(** * Climate dashboard: loaders, synthetic series, range filter

    A shallow embedding of [streamlit_app.py].  The script builds three
    tables (temperature anomaly, sea level, emissions), slices them by a
    year range chosen in the sidebar and renders them.

    Modelling conventions:
    - a pandas [DataFrame] is a list of column labels and a list of rows;
    - a cell is a number, the missing value [NaN], or a string (the
      [object] dtype that [read_csv] gives to a column it cannot parse as
      numbers);
    - [float64] values are exact rationals ([Q]): rounding is not modelled;
    - a Python exception is [None] in the [option] monad;
    - a frame is an object in a store and a variable holds a reference to
      it, where the statements are about what a line changes;
    - a text and its UTF-8 encoding are the same string of bytes;
    - the network, the clock and the random generator are explicit: a
      [World] gives what [pd.read_csv] and [datetime.now()] answer, and the
      run-time state carries the generator, the log of requested URLs, the
      warnings shown and the [st.cache_data] store. *)

From Stdlib Require Import ZArith QArith Qreduction List String Ascii Bool Lia Sorted.
From Stdlib Require Import Permutation Qabs Qround Lqa DecimalString DecimalZ.
Import ListNotations.
Local Open Scope string_scope.
Local Open Scope list_scope.
Local Open Scope Z_scope.

(** ** The option monad: exceptions *)

Definition obind {A B : Type} (m : option A) (k : A -> option B) : option B :=
  match m with
  | Some a => k a
  | None => None
  end.

Notation "x <- m ;; k" := (obind m (fun x => k))
  (at level 61, m at next level, right associativity).

Fixpoint mapM {A B : Type} (f : A -> option B) (l : list A) : option (list B) :=
  match l with
  | [] => Some []
  | a :: l' => b <- f a ;; bs <- mapM f l' ;; Some (b :: bs)
  end.

(** ** Data frames *)

Inductive cell : Type :=
| Num (q : Q)
| NaN
| Str (s : string).

Definition Series : Type := list cell.

Record DataFrame : Type := mkFrame {
  columns : list string;
  rows : list (list cell)
}.

(** Position of the first column carrying label [c]. *)
Fixpoint col_index (c : string) (ls : list string) : option nat :=
  match ls with
  | [] => None
  | l :: ls' => if String.eqb c l then Some O
                else option_map S (col_index c ls')
  end.

(** [df[c]]: the column labelled [c]; [KeyError] when there is none.
    Were a label repeated, pandas would answer with a frame of all the
    columns that carry it; here the first one is taken, so statements
    about frames that may repeat a label assume they do not. *)
Definition getcol (c : string) (df : DataFrame) : option Series :=
  i <- col_index c (columns df) ;;
  Some (map (fun r => nth i r NaN) (rows df)).

(** [df.rename(columns=m)]: labels found in [m] are replaced, the others
    are kept; a label of [m] that the frame lacks is ignored.

    The labels of a parsed file are pairwise different ([read_csv] renames
    repeated ones).  Renaming can repeat a label, when the file already
    has a column called like the new name; lookups then take the first
    column so called, and the statements below leave such files out. *)
Fixpoint lookup_label (m : list (string * string)) (l : string) : string :=
  match m with
  | [] => l
  | (old, new) :: m' => if String.eqb l old then new else lookup_label m' l
  end.

Definition rename (m : list (string * string)) (df : DataFrame) : DataFrame :=
  mkFrame (map (lookup_label m) (columns df)) (rows df).

(** [df[[c1, ..., cn]]]: projection on the listed columns, in that order;
    [KeyError] when one of them is absent. *)
Definition select (cs : list string) (df : DataFrame) : option DataFrame :=
  idx <- mapM (fun c => col_index c (columns df)) cs ;;
  Some (mkFrame cs (map (fun r => map (fun i => nth i r NaN) idx) (rows df))).

(** Comparison of a cell with an integer: [NaN] compares false, a string
    raises [TypeError]. *)
Definition cell_le (y : Z) (c : cell) : option bool :=
  match c with
  | Num q => Some (Qle_bool q (inject_Z y))
  | NaN => Some false
  | Str _ => None
  end.

Definition cell_ge (y : Z) (c : cell) : option bool :=
  match c with
  | Num q => Some (Qle_bool (inject_Z y) q)
  | NaN => Some false
  | Str _ => None
  end.

(** [s <= y] and [s >= y] on a column. *)
Definition series_le (s : Series) (y : Z) : option (list bool) := mapM (cell_le y) s.
Definition series_ge (s : Series) (y : Z) : option (list bool) := mapM (cell_ge y) s.

(** [m1 & m2] on boolean columns. *)
Fixpoint mask_and (m1 m2 : list bool) : list bool :=
  match m1, m2 with
  | b1 :: m1', b2 :: m2' => (b1 && b2) :: mask_and m1' m2'
  | _, _ => []
  end.

(** [df[mask]]: the rows whose mask entry is true, in their order. *)
Fixpoint select_rows {A : Type} (l : list A) (m : list bool) : list A :=
  match l, m with
  | r :: l', b :: m' => if b then r :: select_rows l' m' else select_rows l' m'
  | _, _ => []
  end.

Definition loc_mask (df : DataFrame) (m : list bool) : DataFrame :=
  mkFrame (columns df) (select_rows (rows df) m).

(** ** The range filter (lines 110, 116 and 134-136)

    [T[(T["date"] >= lo) & (T["date"] <= hi)]] *)
Definition range_filter (year_range : Z * Z) (T : DataFrame) : option DataFrame :=
  d1 <- getcol "date" T ;;
  m1 <- series_ge d1 (fst year_range) ;;
  d2 <- getcol "date" T ;;
  m2 <- series_le d2 (snd year_range) ;;
  Some (loc_mask T (mask_and m1 m2)).

(** ** numpy: ranges, interpolation, elementwise arithmetic, random draws *)

(** [np.arange(a, b)]: the integers [a, a+1, ..., b-1]. *)
Definition arange (a b : Z) : list Z :=
  map (fun i => a + Z.of_nat i) (seq 0 (Z.to_nat (b - a))).

(** [np.linspace(start, stop, num)]: [num] evenly spaced samples,
    [i * step + start] with [step = (stop - start) / (num - 1)].  (numpy
    then overwrites the last sample with [stop]; in exact arithmetic that
    sample already equals [stop].) *)
Definition linspace (start stop : Q) (num : nat) : list Q :=
  let div := (num - 1)%nat in
  let step := ((stop - start) / inject_Z (Z.of_nat div))%Q in
  map (fun i => (inject_Z (Z.of_nat i) * step + start)%Q) (seq 0 num).

(** Elementwise [a + b] and [a - b] on arrays. *)
Fixpoint vadd (a b : list Q) : list Q :=
  match a, b with
  | x :: a', y :: b' => (x + y)%Q :: vadd a' b'
  | _, _ => []
  end.

Fixpoint vsub (a b : list Q) : list Q :=
  match a, b with
  | x :: a', y :: b' => (x - y)%Q :: vsub a' b'
  | _, _ => []
  end.

(** The process-wide generator behind [np.random]: an unbounded supply of
    standard normal variates and a cursor on the next one. *)
Record Rng : Type := mkRng {
  gauss : nat -> Q;
  pos : nat
}.

(** [np.random.normal(loc, scale, size)]: each sample is
    [loc + scale * z] for the next standard variate [z]. *)
Definition normal_draws (loc scale : Q) (size : nat) (g : Rng) : list Q :=
  map (fun i => (loc + scale * gauss g (pos g + i))%Q) (seq 0 size).

Definition advance (size : nat) (g : Rng) : Rng :=
  mkRng (gauss g) (pos g + size).

(** [pd.DataFrame({label: array, ...})]: row [i] holds entry [i] of every
    array.  All arrays passed by the script have [len(years)] entries. *)
Definition frame_of_dict (d : list (string * Series)) : DataFrame :=
  let n := match d with
           | [] => O
           | (_, c) :: _ => List.length c
           end in
  mkFrame (map fst d)
          (map (fun i => map (fun kc => nth i (snd kc) NaN) d) (seq 0 n)).

Definition ints (l : list Z) : Series := map (fun z => Num (inject_Z z)) l.
Definition floats (l : list Q) : Series := map Num l.

(** ** The outside world and the run-time state *)

(** What the environment answers during one run of the script:
    [read_csv url skiprows] is the frame [pd.read_csv] parses from the
    remote file, or [None] when fetching or parsing raises;
    [now_year] is [datetime.now().year]. *)
Record World : Type := mkWorld {
  read_csv : string -> nat -> option DataFrame;
  now_year : Z
}.

(** A stored result of [st.cache_data]: the value and the messages the
    function showed, which are shown again on a cache hit. *)
Record Entry : Type := mkEntry {
  e_value : DataFrame;
  e_messages : list string
}.

Record Runtime : Type := mkRuntime {
  rng : Rng;
  fetched : list string;
  warnings : list string;
  cache : string -> option Entry
}.

Definition log_fetch (url : string) (s : Runtime) : Runtime :=
  mkRuntime (rng s) (fetched s ++ [url]) (warnings s) (cache s).

(** [st.warning(msg)] *)
Definition st_warning (msg : string) (s : Runtime) : Runtime :=
  mkRuntime (rng s) (fetched s) (warnings s ++ [msg]) (cache s).

(** [np.random.normal(loc, scale, size)] on the global generator. *)
Definition np_random_normal (loc scale : Q) (size : nat) (s : Runtime)
  : list Q * Runtime :=
  (normal_draws loc scale size (rng s),
   mkRuntime (advance size (rng s)) (fetched s) (warnings s) (cache s)).

Definition set_warnings (ws : list string) (s : Runtime) : Runtime :=
  mkRuntime (rng s) (fetched s) ws (cache s).

Definition set_cache (key : string) (e : Entry) (s : Runtime) : Runtime :=
  mkRuntime (rng s) (fetched s) (warnings s)
            (fun k => if String.eqb k key then Some e else cache s k).

(** [@st.cache_data] on a function without arguments: the first call runs
    the body and stores its result with the messages it showed; later
    calls return the stored value and replay the messages, without
    running the body. *)
Definition cache_data (key : string)
    (body : World -> Runtime -> DataFrame * Runtime)
    (w : World) (s : Runtime) : DataFrame * Runtime :=
  match cache s key with
  | Some e => (e_value e, set_warnings (warnings s ++ e_messages e) s)
  | None =>
      let '(v, s') := body w (set_warnings [] s) in
      let msgs := warnings s' in
      (v, set_cache key (mkEntry v msgs) (set_warnings (warnings s ++ msgs) s'))
  end.

(** ** The temperature loader (lines 36-50) *)

Definition temp_url : string :=
  "https://data.giss.nasa.gov/gistemp/tabledata_v4/GLB.Ts+dSST.csv".

Definition temp_warning : string :=
  "NASA GISTEMP 데이터를 불러올 수 없어 예시 데이터를 사용합니다.".

(** The [try] block, lines 41-45. *)
Definition temp_try (w : World) : option DataFrame :=
  df <- read_csv w temp_url 1 ;;
  let df := rename [("Year", "date")] df in
  df <- select ["date"; "J-D"] df ;;
  let df := rename [("J-D", "value")] df in
  d <- getcol "date" df ;;
  m <- series_le d (now_year w) ;;
  Some (loc_mask df m).

(** The [except] block, lines 47-50. *)
Definition temp_fallback (s : Runtime) : DataFrame * Runtime :=
  let s := st_warning temp_warning s in
  let years := arange 1990 2023 in
  let '(noise, s) := np_random_normal 0 (1 # 10) (List.length years) s in
  let values := vadd (linspace (2 # 10) (12 # 10) (List.length years)) noise in
  (frame_of_dict [("date", ints years); ("value", floats values)], s).

Definition load_global_temp_body (w : World) (s : Runtime) : DataFrame * Runtime :=
  let s := log_fetch temp_url s in
  match temp_try w with
  | Some df => (df, s)
  | None => temp_fallback s
  end.

Definition load_global_temp : World -> Runtime -> DataFrame * Runtime :=
  cache_data "load_global_temp" load_global_temp_body.

(** ** Timestamps *)

Record Timestamp : Type := mkTimestamp {
  year : Z;
  month : Z;
  day : Z
}.

(** An entry of a [datetime64] column: a timestamp or [NaT]. *)
Inductive datetime : Type :=
| Stamp (t : Timestamp)
| NaT.

(** [.dt.year]: the calendar year, [NaN] for [NaT]. *)
Definition dt_year (d : datetime) : cell :=
  match d with
  | Stamp t => Num (inject_Z (year t))
  | NaT => NaN
  end.

(** ** Column assignment and grouping *)

(** Row [r] with position [i] set to [x] (missing positions count as [NaN]). *)
Fixpoint set_nth (i : nat) (x : cell) (r : list cell) : list cell :=
  match i, r with
  | O, [] => [x]
  | O, _ :: r' => x :: r'
  | S i', [] => NaN :: set_nth i' x []
  | S i', c :: r' => c :: set_nth i' x r'
  end.

Fixpoint zip_with {A B C : Type} (f : A -> B -> C) (a : list A) (b : list B) : list C :=
  match a, b with
  | x :: a', y :: b' => f x y :: zip_with f a' b'
  | _, _ => []
  end.

(** [df[c] = v]: column [c] is overwritten, or appended when absent. *)
Definition setcol (c : string) (v : Series) (df : DataFrame) : DataFrame :=
  match col_index c (columns df) with
  | Some i => mkFrame (columns df) (zip_with (fun r x => set_nth i x r) (rows df) v)
  | None => mkFrame (columns df ++ [c]) (zip_with (fun r x => r ++ [x]) (rows df) v)
  end.

(** One group of [groupby(...).mean()]: its key, the running sum and the
    count of the values seen that are not missing. *)
Definition Group : Type := (Q * (Q * nat))%type.

Definition acc_add (v : cell) (a : Q * nat) : Q * nat :=
  match v with
  | Num q => ((fst a + q)%Q, S (snd a))
  | _ => a
  end.

(** The groups are kept in ascending key order ([sort=True]). *)
Fixpoint group_add (k : Q) (v : cell) (gs : list Group) : list Group :=
  match gs with
  | [] => [(k, acc_add v (0%Q, O))]
  | (k', a) :: gs' =>
      match (k ?= k')%Q with
      | Eq => (k', acc_add v a) :: gs'
      | Lt => (k, acc_add v (0%Q, O)) :: (k', a) :: gs'
      | Gt => (k', a) :: group_add k v gs'
      end
  end.

(** One pass over the rows.  A row with a missing key is dropped before
    its value is looked at ([dropna=True]); text among the values of the
    rows that are kept makes [mean] raise [TypeError].  String keys do not
    occur in this program (the key column is written by [.dt.year] just
    before) and are rejected. *)
Fixpoint group_rows (ks vs : Series) (gs : list Group) : option (list Group) :=
  match ks, vs with
  | k :: ks', v :: vs' =>
      match k, v with
      | Str _, _ => None
      | NaN, _ => group_rows ks' vs' gs
      | Num _, Str _ => None
      | Num q, _ => group_rows ks' vs' (group_add q v gs)
      end
  | _, _ => Some gs
  end.

(** The mean of a group skips missing values and is [NaN] when none is
    left.  It is the exact quotient of the sum by the count; the rounding
    of the [float64] sum and quotient is not modelled. *)
Definition group_mean (a : Q * nat) : cell :=
  match snd a with
  | O => NaN
  | S _ => Num (Qred (fst a / inject_Z (Z.of_nat (snd a))))
  end.

(** [df.groupby(key)[val].mean().reset_index()] *)
Definition groupby_mean (key val : string) (df : DataFrame) : option DataFrame :=
  ks <- getcol key df ;;
  vs <- getcol val df ;;
  gs <- group_rows ks vs [] ;;
  Some (mkFrame [key; val] (map (fun g => [Num (fst g); group_mean (snd g)]) gs)).

(** ** The sea-level loader (lines 52-67) *)

Definition sea_url : string :=
  "https://datahub.io/core/sea-level-rise/r/csiro_recons_gmsl_mo_2015.csv".

Definition sea_warning : string :=
  "NOAA 해수면 데이터를 불러올 수 없어 예시 데이터를 사용합니다.".

Section SeaLevel.

(** [pd.to_datetime] on a column: the parsed timestamps, or [None] when
    an entry cannot be parsed.  The parser is pandas', taken as given. *)
Variable to_datetime : Series -> option (list datetime).

(** The [try] block, lines 57-62. *)
Definition sea_try (w : World) : option DataFrame :=
  df <- read_csv w sea_url 0 ;;
  let df := rename [("Time", "date"); ("GMSL", "value")] df in
  d <- getcol "date" df ;;
  ts <- to_datetime d ;;
  let df := setcol "date" (map dt_year ts) df in
  df <- groupby_mean "date" "value" df ;;
  d <- getcol "date" df ;;
  m <- series_le d (now_year w) ;;
  Some (loc_mask df m).

(** The [except] block, lines 64-67. *)
Definition sea_fallback (s : Runtime) : DataFrame * Runtime :=
  let s := st_warning sea_warning s in
  let years := arange 1990 2023 in
  let '(noise, s) := np_random_normal 0 5 (List.length years) s in
  let values := vadd (linspace 0 100 (List.length years)) noise in
  (frame_of_dict [("date", ints years); ("value", floats values)], s).

Definition load_sea_level_body (w : World) (s : Runtime) : DataFrame * Runtime :=
  let s := log_fetch sea_url s in
  match sea_try w with
  | Some df => (df, s)
  | None => sea_fallback s
  end.

Definition load_sea_level : World -> Runtime -> DataFrame * Runtime :=
  cache_data "load_sea_level" load_sea_level_body.

End SeaLevel.

(** ** The emission series (lines 77-86) *)

Definition build_emission (s : Runtime) : DataFrame * Runtime :=
  let years := arange 1990 2023 in
  let '(e1, s) := np_random_normal 0 20 (List.length years) s in
  let total_emission := vadd (linspace 300 750 (List.length years)) e1 in
  let '(e2, s) := np_random_normal 30 5 (List.length years) s in
  let net_emission := vsub total_emission e2 in
  let '(e3, s) := np_random_normal 20 5 (List.length years) s in
  let co2_emission := vsub net_emission e3 in
  (frame_of_dict [("date", ints years);
                  ("총배출량", floats total_emission);
                  ("순배출량", floats net_emission);
                  ("CO2", floats co2_emission)], s).

(** ** Objects, variables and the filtering statements

    A pandas frame is a mutable object, and a Python variable holds a
    reference to one: two variables may name the same object, and what a
    statement does to an object shows through every reference to it.  The
    store gives the frame that each reference holds now. *)
Definition Ref : Type := nat.

Definition Heap : Type := list DataFrame.

Definition deref (h : Heap) (r : Ref) : option DataFrame := nth_error h r.

(** A new object, under a reference that no object has yet. *)
Definition alloc (df : DataFrame) (h : Heap) : Ref * Heap :=
  (List.length h, h ++ [df]).

(** The variables of the script at lines 110-136.  [year_range] is a
    tuple of integers, a value; the others name frames. *)
Record Vars : Type := mkVars {
  temp_df : Ref;
  sea_df : Ref;
  emission_df : Ref;
  year_range : Z * Z;
  filtered_temp : option Ref;
  filtered_sea : option Ref;
  filtered_emission : option Ref
}.

(** [T[(T["date"] >= year_range[0]) & (T["date"] <= year_range[1])]] for
    the object that [t] refers to: the expression reads the frame the
    object holds now, and indexing by a boolean mask returns a new
    object.  The columns and masks in between are temporaries that no
    variable names. *)
Definition filter_object (year_range : Z * Z) (t : Ref) (h : Heap)
  : option (Ref * Heap) :=
  T <- deref h t ;;
  F <- range_filter year_range T ;;
  Some (alloc F h).

(** Line 110. *)
Definition bind_filtered_temp (st : Heap * Vars) : option (Heap * Vars) :=
  let v := snd st in
  p <- filter_object (year_range v) (temp_df v) (fst st) ;;
  Some (snd p, mkVars (temp_df v) (sea_df v) (emission_df v) (year_range v)
                      (Some (fst p)) (filtered_sea v) (filtered_emission v)).

(** Line 116. *)
Definition bind_filtered_sea (st : Heap * Vars) : option (Heap * Vars) :=
  let v := snd st in
  p <- filter_object (year_range v) (sea_df v) (fst st) ;;
  Some (snd p, mkVars (temp_df v) (sea_df v) (emission_df v) (year_range v)
                      (filtered_temp v) (Some (fst p)) (filtered_emission v)).

(** Lines 134-136. *)
Definition bind_filtered_emission (st : Heap * Vars) : option (Heap * Vars) :=
  let v := snd st in
  p <- filter_object (year_range v) (emission_df v) (fst st) ;;
  Some (snd p, mkVars (temp_df v) (sea_df v) (emission_df v) (year_range v)
                      (filtered_temp v) (filtered_sea v) (Some (fst p))).

(** Lines 111-114 and 117-120 hand a filtered frame to plotly
    ([px.line], [px.area]) and the figure to [st.plotly_chart].  What
    these libraries do is not in the script: a chart is any function on
    the store, given the reference it is passed.  A variable that is not
    bound yet raises [NameError]. *)
Definition show_temp (line_chart : Ref -> Heap -> Heap) (st : Heap * Vars)
  : option (Heap * Vars) :=
  r <- filtered_temp (snd st) ;;
  Some (line_chart r (fst st), snd st).

Definition show_sea (area_chart : Ref -> Heap -> Heap) (st : Heap * Vars)
  : option (Heap * Vars) :=
  r <- filtered_sea (snd st) ;;
  Some (area_chart r (fst st), snd st).

(** Lines 110-136. *)
Definition filter_tables (line_chart area_chart : Ref -> Heap -> Heap)
    (st : Heap * Vars) : option (Heap * Vars) :=
  st <- bind_filtered_temp st ;;
  st <- show_temp line_chart st ;;
  st <- bind_filtered_sea st ;;
  st <- show_sea area_chart st ;;
  bind_filtered_emission st.

(** Lines 73-86: the three tables of one run of the script. *)
Definition load_tables (to_datetime : Series -> option (list datetime))
    (w : World) (s : Runtime) : (DataFrame * DataFrame * DataFrame) * Runtime :=
  let '(t, s) := load_global_temp w s in
  let '(l, s) := load_sea_level to_datetime w s in
  let '(e, s) := build_emission s in
  ((t, l, e), s).

(** ** The bounds of the slider (lines 94-95) *)

(** [Series.min()] and [Series.max()]: missing values are skipped, and the
    result is [NaN] when no number is left.  A text column does not reach
    these lines (the loaders return text-free [date] columns and the
    emission years are integers); the model makes it raise. *)
Fixpoint series_min (s : Series) : option cell :=
  match s with
  | [] => Some NaN
  | c :: s' =>
      m <- series_min s' ;;
      match c, m with
      | Str _, _ => None
      | NaN, _ => Some m
      | Num q, Num q' => Some (Num (if Qle_bool q q' then q else q'))
      | Num q, _ => Some (Num q)
      end
  end.

Fixpoint series_max (s : Series) : option cell :=
  match s with
  | [] => Some NaN
  | c :: s' =>
      m <- series_max s' ;;
      match c, m with
      | Str _, _ => None
      | NaN, _ => Some m
      | Num q, Num q' => Some (Num (if Qle_bool q' q then q else q'))
      | Num q, _ => Some (Num q)
      end
  end.

(** Python's [a < b] on numbers: false as soon as one side is [NaN]. *)
Definition py_lt (a b : cell) : bool :=
  match a, b with
  | Num x, Num y => negb (Qle_bool y x)
  | _, _ => false
  end.

(** The builtins [min(x, ...)] and [max(x, ...)]: the first argument is
    kept until a later one compares strictly smaller (larger). *)
Definition py_min (first : cell) (rest : list cell) : cell :=
  fold_left (fun m x => if py_lt x m then x else m) rest first.

Definition py_max (first : cell) (rest : list cell) : cell :=
  fold_left (fun m x => if py_lt m x then x else m) rest first.

(** [int(x)]: truncation toward zero; [ValueError] on [NaN]. *)
Definition py_int (c : cell) : option Z :=
  match c with
  | Num q => Some (Z.quot (Qnum q) (Zpos (Qden q)))
  | _ => None
  end.

(** Line 94. *)
Definition year_min (temp_df sea_df emission_df : DataFrame) : option Z :=
  dt <- getcol "date" temp_df ;; a <- series_min dt ;;
  ds <- getcol "date" sea_df ;; b <- series_min ds ;;
  de <- getcol "date" emission_df ;; c <- series_min de ;;
  py_int (py_min a [b; c]).

(** Line 95. *)
Definition year_max (temp_df sea_df emission_df : DataFrame) : option Z :=
  dt <- getcol "date" temp_df ;; a <- series_max dt ;;
  ds <- getcol "date" sea_df ;; b <- series_max ds ;;
  de <- getcol "date" emission_df ;; c <- series_max de ;;
  py_int (py_max a [b; c]).

(** Lines 97-102, [st.sidebar.slider(..., min_value=year_min,
    max_value=year_max, value=(1990, 2020))].  Streamlit raises when the
    default does not lie within the bounds; otherwise the widget returns
    the pair it holds, [chosen]: the default on a first run, what the user
    has set later. *)
Definition st_slider (min_value max_value : Z) (value chosen : Z * Z) : option (Z * Z) :=
  if (min_value <=? fst value) && (fst value <=? snd value) && (snd value <=? max_value)
  then Some chosen
  else None.

(** One run of lines 73-136.  [st.cache_data] hands out a copy of what it
    stores, so the three tables are three objects of their own; [pick]
    is the user's setting of the slider, given its bounds.  A run that
    raises keeps what it has cached. *)
Definition script (to_datetime : Series -> option (list datetime))
    (line_chart area_chart : Ref -> Heap -> Heap) (pick : Z -> Z -> Z * Z)
    (w : World) (s : Runtime) : option (Heap * Vars) * Runtime :=
  let '((t, l, e), s) := load_tables to_datetime w s in
  (lo <- year_min t l e ;;
   hi <- year_max t l e ;;
   yr <- st_slider lo hi (1990, 2020) (pick lo hi) ;;
   filter_tables line_chart area_chart
                 ([t; l; e], mkVars 0%nat 1%nat 2%nat yr None None None),
   s).

(** Streamlit runs the script again on every interaction, in the same
    process: the tables of successive runs, the world being what it is at
    each run. *)
Fixpoint reruns (to_datetime : Series -> option (list datetime))
    (ws : list World) (s : Runtime)
  : list (DataFrame * DataFrame * DataFrame) * Runtime :=
  match ws with
  | [] => ([], s)
  | w :: ws' =>
      let '(r, s) := load_tables to_datetime w s in
      let '(rs, s) := reruns to_datetime ws' s in
      (r :: rs, s)
  end.

(** ** The download (line 143)

    [csv = filtered_emission.to_csv(index=False).encode("utf-8-sig")] *)

Definition comma : ascii := ascii_of_nat 44.
Definition dquote : ascii := ascii_of_nat 34.
Definition LF : ascii := ascii_of_nat 10.
Definition CR : ascii := ascii_of_nat 13.

(** The three bytes that the codec [utf-8-sig] writes first. *)
Definition bom : string :=
  String (ascii_of_nat 239) (String (ascii_of_nat 187) (String (ascii_of_nat 191)
                                                               EmptyString)).

(** [text.encode("utf-8-sig")] *)
Definition encode_utf_8_sig (text : string) : string := (bom ++ text)%string.

(** The characters that make the writer quote a field
    ([csv.QUOTE_MINIMAL]): the separator, the quote and the line ends. *)
Definition special (c : ascii) : bool :=
  Ascii.eqb c comma || Ascii.eqb c dquote || Ascii.eqb c CR || Ascii.eqb c LF.

Fixpoint plain (s : string) : bool :=
  match s with
  | EmptyString => true
  | String c s' => negb (special c) && plain s'
  end.

Fixpoint double_quotes (s : string) : string :=
  match s with
  | EmptyString => EmptyString
  | String c s' =>
      if Ascii.eqb c dquote then String dquote (String dquote (double_quotes s'))
      else String c (double_quotes s')
  end.

Definition quote_minimal (field : string) : string :=
  if plain field then field
  else String dquote (double_quotes field ++ String dquote EmptyString)%string.

Fixpoint join_lines (lines : list string) : string :=
  match lines with
  | [] => EmptyString
  | l :: lines' => (l ++ join_lines lines')%string
  end.

Section ToCsv.

(** What pandas and the host leave open: the text of a number, which
    depends on the dtype of its column ([number_text j q] for the value
    [q] in column [j]), and the line terminator, [os.linesep]. *)
Variable number_text : nat -> Q -> string.
Variable lineterminator : string.

(** One record: the fields separated by commas, each quoted if it has
    to be; a record that would be an empty line is written as a quoted
    empty field. *)
Definition writerow (fields : list string) : string :=
  match fields with
  | [f] => ((if String.eqb f EmptyString then String dquote (String dquote EmptyString)
             else quote_minimal f) ++ lineterminator)%string
  | _ => (String.concat "," (map quote_minimal fields) ++ lineterminator)%string
  end.

(** A missing value is written as the empty field ([na_rep='']). *)
Definition cell_text (j : nat) (c : cell) : string :=
  match c with
  | Num q => number_text j q
  | NaN => EmptyString
  | Str s => s
  end.

Fixpoint row_texts (j : nat) (r : list cell) : list string :=
  match r with
  | [] => []
  | c :: r' => cell_text j c :: row_texts (S j) r'
  end.

(** [df.to_csv(index=False)]: the header, then one record per row. *)
Definition to_csv (df : DataFrame) : string :=
  (writerow (columns df)
   ++ join_lines (map (fun r => writerow (row_texts 0 r)) (rows df)))%string.

(** Line 143. *)
Definition csv (filtered_emission : DataFrame) : string :=
  encode_utf_8_sig (to_csv filtered_emission).

End ToCsv.

(** ** Reading the download back

    The script has no reader; the specification speaks of re-parsing the
    file.  The reader below is the one the round trip is stated
    against, after [pd.read_csv] with its defaults: a leading byte-order
    mark is dropped; records end at a line feed, a carriage return or
    both, blank lines are skipped; fields are separated by commas; a
    field that starts with a quote runs to the closing quote, a doubled
    quote standing for one, and a text that ends inside it is an error;
    the first record is the header; a column all of whose fields are
    empty or numbers is numeric, any other keeps its texts; an empty
    field is a missing value (the other markers of one are not
    modelled); a record with fewer fields than the header is filled up
    with missing values, one with more is an error. *)
Definition strip_bom (bytes : string) : string :=
  match bytes with
  | String a (String b (String c rest)) =>
      if Ascii.eqb a (ascii_of_nat 239) && Ascii.eqb b (ascii_of_nat 187)
         && Ascii.eqb c (ascii_of_nat 191)
      then rest else bytes
  | _ => bytes
  end.

(** The field being read: [None] until something of it has been seen. *)
Definition field_of (cur : option string) : string :=
  match cur with
  | Some f => f
  | None => EmptyString
  end.

Definition push (cur : option string) (c : ascii) : option string :=
  Some (field_of cur ++ String c EmptyString)%string.

Definition end_record (cur : option string) (row : list string)
    (rest : list (list string)) : list (list string) :=
  match cur, row with
  | None, [] => rest
  | _, _ => rev (field_of cur :: row) :: rest
  end.

(** The records of a text; [row] holds the fields of the current record,
    last first. *)
Fixpoint records (quoted : bool) (cur : option string) (row : list string)
    (s : string) : option (list (list string)) :=
  match s with
  | EmptyString => if quoted then None else Some (end_record cur row [])
  | String c s' =>
      if quoted then
        if Ascii.eqb c dquote then
          match s' with
          | String c' s'' =>
              if Ascii.eqb c' dquote then records true (push cur dquote) row s''
              else records false cur row s'
          | EmptyString => records false cur row s'
          end
        else records true (push cur c) row s'
      else if Ascii.eqb c comma then records false None (field_of cur :: row) s'
      else if Ascii.eqb c LF then
        option_map (end_record cur row) (records false None [] s')
      else if Ascii.eqb c CR then
        option_map (end_record cur row)
          match s' with
          | String c' s'' =>
              if Ascii.eqb c' LF then records false None [] s''
              else records false None [] s'
          | EmptyString => records false None [] s'
          end
      else if Ascii.eqb c dquote then
        match cur with
        | None => records true (Some EmptyString) row s'
        | Some _ => records false (push cur c) row s'
        end
      else records false (push cur c) row s'
  end.

Section Reparse.

(** The reader's conversion of a field to a number. *)
Variable read_number : string -> option Q.

Definition numeric_field (f : string) : bool :=
  String.eqb f EmptyString ||
  match read_number f with
  | Some _ => true
  | None => false
  end.

Definition numeric_column (recs : list (list string)) (j : nat) : bool :=
  forallb (fun r => numeric_field (nth j r EmptyString)) recs.

Definition read_cell (numeric : bool) (f : string) : cell :=
  if String.eqb f EmptyString then NaN
  else if numeric then
         match read_number f with
         | Some q => Num q
         | None => Str f
         end
       else Str f.

Definition reparse_csv (bytes : string) : option DataFrame :=
  match records false None [] (strip_bom bytes) with
  | None | Some [] => None
  | Some (header :: recs) =>
      if existsb (fun r => (List.length header <? List.length r)%nat) recs then None
      else Some (mkFrame header
                   (map (fun r =>
                           map (fun j => read_cell (numeric_column recs j)
                                                   (nth j r EmptyString))
                               (seq 0 (List.length header)))
                        recs))
  end.

End Reparse.

(** ** Vocabulary of the statements *)

(** The [date] cell of a row of table [T]. *)
Definition date_of (T : DataFrame) (r : list cell) : cell :=
  match col_index "date" (columns T) with
  | Some i => nth i r NaN
  | None => NaN
  end.

Definition is_str (c : cell) : bool :=
  match c with
  | Str _ => true
  | _ => false
  end.

(** A table in the sense of the data model: it has a [date] column, and
    that column holds no text. *)
Definition has_dates (T : DataFrame) : bool :=
  match col_index "date" (columns T) with
  | Some i => forallb (fun r => negb (is_str (nth i r NaN))) (rows T)
  | None => false
  end.

(** [lo <= date <= hi] on a cell. *)
Definition in_range (lo hi : Z) (c : cell) : Prop :=
  exists q, c = Num q /\ (inject_Z lo <= q)%Q /\ (q <= inject_Z hi)%Q.

Definition in_rangeb (lo hi : Z) (c : cell) : bool :=
  match c with
  | Num q => Qle_bool (inject_Z lo) q && Qle_bool q (inject_Z hi)
  | _ => false
  end.

Definition at_leastb (y : Z) (c : cell) : bool :=
  match c with
  | Num q => Qle_bool (inject_Z y) q
  | _ => false
  end.

(** [date <= y] on a cell. *)
Definition at_most (y : Z) (c : cell) : Prop :=
  exists q, c = Num q /\ (q <= inject_Z y)%Q.

Definition at_mostb (y : Z) (c : cell) : bool :=
  match c with
  | Num q => Qle_bool q (inject_Z y)
  | _ => false
  end.

(** [l1] is [l2] with some elements left out, the order kept. *)
Inductive Subseq {A : Type} : list A -> list A -> Prop :=
| Subseq_nil : Subseq [] []
| Subseq_skip x l1 l2 : Subseq l1 l2 -> Subseq l1 (x :: l2)
| Subseq_keep x l1 l2 : Subseq l1 l2 -> Subseq (x :: l1) (x :: l2).

Definition Q_eq_dec (a b : Q) : {a = b} + {a <> b}.
Proof. decide equality; [apply Pos.eq_dec | apply Z.eq_dec]. Defined.

Definition cell_eq_dec (a b : cell) : {a = b} + {a <> b}.
Proof. decide equality; [apply Q_eq_dec | apply string_dec]. Defined.

Definition row_eq_dec : forall a b : list cell, {a = b} + {a <> b} :=
  list_eq_dec cell_eq_dec.

(** The values recorded in calendar year [y]: [ts] are the parsed
    timestamps of the remote rows and [vs] their values, in row order;
    missing values and rows without a timestamp do not count. *)
Fixpoint year_values (y : Z) (ts : list datetime) (vs : Series) : list Q :=
  match ts, vs with
  | Stamp t :: ts', Num q :: vs' =>
      if year t =? y then q :: year_values y ts' vs' else year_values y ts' vs'
  | _ :: ts', _ :: vs' => year_values y ts' vs'
  | _, _ => []
  end.

(** The years in which a remote row falls, whatever its value. *)
Fixpoint stamp_years (ts : list datetime) (vs : Series) : list Z :=
  match ts, vs with
  | Stamp t :: ts', _ :: vs' => year t :: stamp_years ts' vs'
  | NaT :: ts', _ :: vs' => stamp_years ts' vs'
  | _, _ => []
  end.

Definition Qsum (l : list Q) : Q := fold_right Qplus 0%Q l.

(** The arithmetic mean as a cell: sum over count in lowest terms, and
    [NaN] for no value at all. *)
Definition mean_cell (l : list Q) : cell :=
  match l with
  | [] => NaN
  | _ :: _ => Num (Qred (Qsum l / inject_Z (Z.of_nat (List.length l))))
  end.

(** The accumulator of the group with key [k], the empty one when there
    is no such group. *)
Fixpoint acc_of (k : Q) (gs : list Group) : Q * nat :=
  match gs with
  | [] => (0%Q, O)
  | (k', a) :: gs' => if Qeq_bool k k' then a else acc_of k gs'
  end.

(** One more value in an accumulator. *)
Definition acc_step (a : Q * nat) (q : Q) : Q * nat := ((fst a + q)%Q, S (snd a)).

(** The groups carry the years [ys] as keys. *)
Definition year_keyed (gs : list Group) (ys : list Z) : Prop :=
  map fst gs = map inject_Z ys.

(** Every table in the [st.cache_data] store is a table in the sense of
    the data model. *)
Definition cache_ok (s : Runtime) : Prop :=
  forall k e, cache s k = Some e -> has_dates (e_value e) = true.

(** A date cell that is an integer year, or missing. *)
Definition is_year_cell (c : cell) : bool :=
  match c with
  | Num q => Pos.eqb (Qden q) 1
  | NaN => true
  | Str _ => false
  end.

(** A table whose dates are integer years (or missing). *)
Definition year_dated (T : DataFrame) : bool :=
  match col_index "date" (columns T) with
  | Some i => forallb (fun r => is_year_cell (nth i r NaN)) (rows T)
  | None => false
  end.

Definition is_num (c : cell) : bool :=
  match c with
  | Num _ => true
  | _ => false
  end.

(** The table has a [date] column with at least one number in it. *)
Definition has_number (T : DataFrame) : bool :=
  match col_index "date" (columns T) with
  | Some i => existsb (fun r => is_num (nth i r NaN)) (rows T)
  | None => false
  end.

(** The integer years of a column, and of the [date] column of a table. *)
Definition years_in (s : Series) : list Z :=
  flat_map (fun c => match c with
                     | Num q => [Qnum q]
                     | _ => []
                     end) s.

Definition table_years (T : DataFrame) : list Z :=
  match getcol "date" T with
  | Some d => years_in d
  | None => []
  end.

Fixpoint zmin (l : list Z) : option Z :=
  match l with
  | [] => None
  | y :: l' => match zmin l' with
               | None => Some y
               | Some m => Some (Z.min y m)
               end
  end.

Fixpoint zmax (l : list Z) : option Z :=
  match l with
  | [] => None
  | y :: l' => match zmax l' with
               | None => Some y
               | Some m => Some (Z.max y m)
               end
  end.

Definition opt_cell (o : option Z) : cell :=
  match o with
  | Some y => Num (inject_Z y)
  | None => NaN
  end.

(** A timestamp whose year is the given year cell ([NaT] for a missing
    one): [dt_year] maps it back to the cell. *)
Definition dt_of_cell (c : cell) : datetime :=
  match c with
  | Num q => Stamp (mkTimestamp (Qnum q) 1 1)
  | _ => NaT
  end.

(** A table whose dates are all integer years, none missing. *)
Definition is_int_cell (c : cell) : bool :=
  match c with
  | Num q => Pos.eqb (Qden q) 1
  | _ => false
  end.

Definition int_dated (T : DataFrame) : bool :=
  match col_index "date" (columns T) with
  | Some i => forallb (fun r => is_int_cell (nth i r NaN)) (rows T)
  | None => false
  end.

(** Some row with a timestamp holds text. *)
Definition keyed_text (ts : list datetime) (vs : Series) : bool :=
  existsb (fun p : datetime * cell =>
             match fst p, snd p with
             | Stamp _, Str _ => true
             | _, _ => false
             end) (combine ts vs).

(** What is assumed of a chart: every object stays allocated, and every
    object other than the one the chart is given holds what it held.  The
    chart may change the frame it is given, and may create objects. *)
Definition chart_local (chart : Ref -> Heap -> Heap) : Prop :=
  forall r h r' df,
    deref h r' = Some df ->
    exists df', deref (chart r h) r' = Some df' /\ (r' <> r -> df' = df).

(** The frames [read_csv] returns have pairwise distinct labels (it
    renames repeated ones), and the remote files are taken not to have a
    column already called as one the loaders introduce: a frame with a
    repeated label answers [df[label]] with a frame, not a column. *)
Definition well_labelled (w : World) : Prop :=
  (forall df, read_csv w temp_url 1 = Some df ->
              NoDup (columns df) /\ ~ In "date" (columns df)) /\
  (forall df, read_csv w sea_url 0 = Some df ->
              NoDup (columns df) /\ ~ In "date" (columns df) /\
              ~ In "value" (columns df)).

(** Equality of cells and of tables up to a tolerance on the numbers. *)
Definition cell_close (tol : Q) (a b : cell) : Prop :=
  match a, b with
  | Num x, Num y => (Qabs (y - x) <= tol)%Q
  | NaN, NaN => True
  | Str s, Str t => s = t
  | _, _ => False
  end.

Definition table_close (tol : Q) (A B : DataFrame) : Prop :=
  columns A = columns B /\ Forall2 (Forall2 (cell_close tol)) (rows A) (rows B).

(** What the round trip asks of the writer's number texts and of the
    reader's conversion, on the numbers of a table: the text of a number
    needs no quoting and is not empty, and the reader takes it for a
    number within the tolerance. *)
Definition formats_well (number_text : nat -> Q -> string)
    (read_number : string -> option Q) (tol : Q) (df : DataFrame) : Prop :=
  forall r j q,
    In r (rows df) -> nth_error r j = Some (Num q) ->
    plain (number_text j q) = true /\
    number_text j q <> EmptyString /\
    exists q', read_number (number_text j q) = Some q' /\ (Qabs (q' - q) <= tol)%Q.

(** Every row is as wide as the header and holds numbers only. *)
Definition numeric_table (df : DataFrame) : bool :=
  forallb (fun r => Nat.eqb (List.length r) (List.length (columns df))
                    && forallb is_num r) (rows df).

(** ** A parser for ISO dates

    An instance of [to_datetime] for text of the form [YYYY-MM] or
    [YYYY-MM-DD], the shape of the remote sea-level file; a missing entry
    becomes [NaT]. *)
Definition digit_value (c : Ascii.ascii) : option Z :=
  let n := Z.of_nat (Ascii.nat_of_ascii c) in
  if (48 <=? n) && (n <=? 57) then Some (n - 48) else None.

Fixpoint read_number (s : string) (acc : Z) : option Z :=
  match s with
  | EmptyString => Some acc
  | String c s' => d <- digit_value c ;; read_number s' (10 * acc + d)
  end.

Definition number (width : nat) (s : string) : option Z :=
  if Nat.eqb (String.length s) width then read_number s 0 else None.

Definition iso_stamp (s : string) : option Timestamp :=
  y <- number 4 (substring 0 4 s) ;;
  m <- number 2 (substring 5 2 s) ;;
  if negb (String.eqb (substring 4 1 s) "-") || negb ((1 <=? m) && (m <=? 12))
  then None
  else if Nat.eqb (String.length s) 7 then Some (mkTimestamp y m 1)
  else
    d <- number 2 (substring 8 2 s) ;;
    if String.eqb (substring 7 1 s) "-" && Nat.eqb (String.length s) 10
       && (1 <=? d) && (d <=? 31)
    then Some (mkTimestamp y m d)
    else None.

Definition iso_cell (c : cell) : option datetime :=
  match c with
  | Str s => option_map Stamp (iso_stamp s)
  | NaN => Some NaT
  | Num _ => None
  end.

Definition iso_to_datetime (col : Series) : option (list datetime) :=
  mapM iso_cell col.

(** ** A number format

    Numbers written to three decimals, as a count of thousandths with an
    exponent ([12345e-3] for 12.345), and read back exactly. *)
Definition milli_text (j : nat) (q : Q) : string :=
  (NilEmpty.string_of_int (Z.to_int (Qfloor (q * 1000))) ++ "e-3")%string.

Definition read_milli (f : string) : option Q :=
  let n := String.length f in
  if (3 <=? n)%nat && String.eqb (substring (n - 3) 3 f) "e-3"
  then option_map (fun d => Z.of_int d # 1000)
                  (NilEmpty.int_of_string (substring 0 (n - 3) f))
  else None.

(** ** Sample inputs *)

Definition sample_table : DataFrame :=
  mkFrame ["date"; "value"]
          [[Num 1990; Num (3 # 10)]; [Num 1995; NaN]; [Num 2001; Num (9 # 10)];
           [Num 2001; Num (9 # 10)]; [Num 1993; Num (1 # 2)]].

Definition sample_emission : DataFrame :=
  mkFrame ["date"; "총배출량"; "순배출량"; "CO2"]
          [[Num 1990; Num 300; Num 270; Num 250];
           [Num 1991; Num 320; Num 291; Num 270]].

(** A store in which [temp_df] and [sea_df] name the same object, and a
    chart that wipes the frame it is given. *)
Definition sample_heap : Heap := [sample_table; sample_emission].

Definition sample_vars : Vars := mkVars 0%nat 0%nat 1%nat (1990, 1995) None None None.

Fixpoint wipe (r : Ref) (h : Heap) : Heap :=
  match h, r with
  | [], _ => []
  | _ :: h', O => mkFrame [] [] :: h'
  | df :: h', S r' => df :: wipe r' h'
  end.

(** A remote temperature file: a past year, the current year, whose
    annual mean is not yet published, and a future year. *)
Definition sample_gistemp : DataFrame :=
  mkFrame ["Year"; "Jan"; "J-D"]
          [[Num 2020; Num (116 # 100); Num (101 # 100)];
           [Num 2026; Num (120 # 100); NaN];
           [Num 2031; NaN; NaN]].

Definition sample_world : World :=
  mkWorld (fun url skiprows =>
             if String.eqb url temp_url && Nat.eqb skiprows 1
             then Some sample_gistemp else None)
          2026.

(** The same file without its annual-mean column, and with text in the
    year column. *)
Definition gistemp_without_jd : DataFrame :=
  mkFrame ["Year"; "Jan"] [[Num 2020; Num (116 # 100)]].

Definition gistemp_text_year : DataFrame :=
  mkFrame ["Year"; "J-D"] [[Str "Year 2020"; Num (101 # 100)]].

Definition serving (df : DataFrame) : World := mkWorld (fun _ _ => Some df) 2026.

(** A world in which every fetch fails, in the year 2026. *)
Definition offline_world : World := mkWorld (fun _ _ => None) 2026.

(** A fresh process: nothing cached, nothing shown, and a fixed supply of
    variates. *)
Definition fresh_runtime : Runtime :=
  mkRuntime (mkRng (fun i => (Z.of_nat i - 3) # 2) 0) [] [] (fun _ => None).

(** The rows of the specification's example, as the remote sea-level
    file, and a world serving them in 2026. *)
Definition sample_gmsl : DataFrame :=
  mkFrame ["Time"; "GMSL"]
          [[Str "2000-01"; Num 5]; [Str "2000-06"; Num 7]; [Str "2001-01"; Num 9]].

Definition sample_sea_world : World :=
  mkWorld (fun url skiprows =>
             if String.eqb url sea_url && Nat.eqb skiprows 0
             then Some sample_gmsl else None)
          2026.

(** A sea-level file with text in a row that has a time, and in one that
    has none. *)
Definition gmsl_text : DataFrame :=
  mkFrame ["Time"; "GMSL"]
          [[Str "2000-01"; Num 5]; [Str "2000-06"; Str "n/a"]; [NaN; Str "n/a"]].

(** A world that serves both files, in 2026. *)
Definition sample_both_world : World :=
  mkWorld (fun url skiprows =>
             if String.eqb url temp_url && Nat.eqb skiprows 1 then Some sample_gistemp
             else if String.eqb url sea_url && Nat.eqb skiprows 0 then Some sample_gmsl
             else None)
          2026.

(** A temperature file whose only row lies in the future. *)
Definition gistemp_future : DataFrame :=
  mkFrame ["Year"; "J-D"] [[Num 2031; NaN]].

(** * Properties *)

(** ** Masks *)

Lemma mapM_total {A B : Type} (f : A -> option B) (g : A -> B) (l : list A) :
  (forall a, In a l -> f a = Some (g a)) -> mapM f l = Some (map g l).
Proof.
  induction l as [| a l IH]; intros H; simpl.
  - reflexivity.
  - rewrite (H a (or_introl eq_refl)). simpl.
    rewrite IH by (intros; apply H; right; assumption).
    reflexivity.
Qed.

Lemma mapM_length {A B : Type} (f : A -> option B) (l : list A) (r : list B) :
  mapM f l = Some r -> List.length r = List.length l.
Proof.
  revert r. induction l as [| a l IH]; simpl; intros r H.
  - injection H as <-. reflexivity.
  - destruct (f a); simpl in H; [| discriminate].
    destruct (mapM f l) eqn:E; simpl in H; [| discriminate].
    injection H as <-. simpl. f_equal. apply IH. reflexivity.
Qed.

Lemma mask_and_map {A : Type} (f g : A -> bool) (l : list A) :
  mask_and (map f l) (map g l) = map (fun x => f x && g x) l.
Proof. induction l; simpl; congruence. Qed.

Lemma select_rows_map {A : Type} (f : A -> bool) (l : list A) :
  select_rows l (map f l) = filter f l.
Proof.
  induction l as [| a l IH]; simpl; [reflexivity |].
  rewrite IH. reflexivity.
Qed.

Lemma Subseq_filter {A : Type} (f : A -> bool) (l : list A) :
  Subseq (filter f l) l.
Proof.
  induction l as [| a l IH]; simpl.
  - constructor.
  - destruct (f a); constructor; assumption.
Qed.

Lemma count_occ_filter {A : Type} (dec : forall a b : A, {a = b} + {a <> b})
    (f : A -> bool) (l : list A) (x : A) :
  f x = true -> count_occ dec (filter f l) x = count_occ dec l x.
Proof.
  intros Hx. induction l as [| a l IH]; simpl; [reflexivity |].
  destruct (dec a x) as [-> | Hne].
  - rewrite Hx. simpl. destruct (dec x x); [| contradiction]. congruence.
  - destruct (f a); simpl; [destruct (dec a x); [contradiction |] |]; assumption.
Qed.

Lemma in_rangeb_iff lo hi c : in_rangeb lo hi c = true <-> in_range lo hi c.
Proof.
  unfold in_range. destruct c as [q | | s]; simpl.
  - rewrite andb_true_iff, !Qle_bool_iff. split.
    + intros [H1 H2]. exists q. auto.
    + intros [q' [E [H1 H2]]]. injection E as ->. auto.
  - split; [discriminate | intros [q [E _]]; discriminate].
  - split; [discriminate | intros [q [E _]]; discriminate].
Qed.

Lemma at_mostb_iff y c : at_mostb y c = true <-> at_most y c.
Proof.
  unfold at_most. destruct c as [q | | s]; simpl.
  - rewrite Qle_bool_iff. split.
    + intros H. exists q. auto.
    + intros [q' [E H]]. injection E as ->. auto.
  - split; [discriminate | intros [q [E _]]; discriminate].
  - split; [discriminate | intros [q [E _]]; discriminate].
Qed.

Lemma series_ge_total (d : Series) (y : Z) :
  forallb (fun c => negb (is_str c)) d = true ->
  series_ge d y = Some (map (at_leastb y) d).
Proof.
  intros H. apply mapM_total. intros c Hc.
  rewrite forallb_forall in H. specialize (H c Hc).
  destruct c; simpl in *; try discriminate; reflexivity.
Qed.

Lemma series_le_total (d : Series) (y : Z) :
  forallb (fun c => negb (is_str c)) d = true ->
  series_le d y = Some (map (at_mostb y) d).
Proof.
  intros H. apply mapM_total. intros c Hc.
  rewrite forallb_forall in H. specialize (H c Hc).
  destruct c; simpl in *; try discriminate; reflexivity.
Qed.

(** A comparison that does not raise saw no text, and its mask is the
    cellwise test. *)
Lemma series_le_inv (d : Series) (y : Z) (m : list bool) :
  series_le d y = Some m ->
  forallb (fun c => negb (is_str c)) d = true /\ m = map (at_mostb y) d.
Proof.
  unfold series_le. revert m. induction d as [| c d IH]; simpl; intros m H.
  - injection H as <-. auto.
  - destruct c as [q | | s]; simpl in H; try discriminate;
      (destruct (mapM (cell_le y) d) eqn:E; simpl in H; [| discriminate];
       injection H as <-; destruct (IH _ eq_refl) as [H1 H2]; simpl;
       split; [assumption | congruence]).
Qed.

Lemma has_dates_col (T : DataFrame) :
  has_dates T = true ->
  exists i, col_index "date" (columns T) = Some i /\
            forallb (fun c => negb (is_str c)) (map (fun r => nth i r NaN) (rows T)) = true.
Proof.
  unfold has_dates. destruct (col_index "date" (columns T)) as [i |]; [| discriminate].
  intros H. exists i. split; [reflexivity |].
  rewrite forallb_forall in *. intros c Hc.
  apply in_map_iff in Hc. destruct Hc as [r [<- Hr]]. apply H. assumption.
Qed.

(** The filter on a table is total, and keeps the rows that pass the
    cellwise test. *)
Lemma range_filter_rows (T : DataFrame) (lo hi : Z) :
  has_dates T = true ->
  range_filter (lo, hi) T =
    Some (mkFrame (columns T) (filter (fun r => in_rangeb lo hi (date_of T r)) (rows T))).
Proof.
  intros H. destruct (has_dates_col T H) as [i [Hi Hs]].
  unfold range_filter, getcol, date_of. rewrite Hi. simpl.
  rewrite (series_ge_total _ lo Hs), (series_le_total _ hi Hs). simpl.
  unfold loc_mask. f_equal. f_equal.
  rewrite !map_map, mask_and_map, select_rows_map.
  apply filter_ext. intros r. destruct (nth i r NaN); reflexivity.
Qed.

(** ** The range filter *)

(** C2.  On every table [T] and every range [[lo, hi]] the filter returns
    a table with the columns of [T] in which every row has
    [lo <= date <= hi]; every row of [T] with [lo <= date <= hi] occurs in
    the output as often as in [T] (exactly once when the rows of [T] are
    distinct); and the output rows are rows of [T] in their original
    order.  The assumption [lo <= hi] of the claim is not needed. *)
Theorem range_filter_correct (T : DataFrame) (lo hi : Z) :
  has_dates T = true ->
  exists out,
    range_filter (lo, hi) T = Some out /\
    columns out = columns T /\
    Forall (fun r => in_range lo hi (date_of T r)) (rows out) /\
    (forall r, in_range lo hi (date_of T r) ->
               count_occ row_eq_dec (rows out) r = count_occ row_eq_dec (rows T) r) /\
    (NoDup (rows T) ->
     forall r, In r (rows T) -> in_range lo hi (date_of T r) ->
               count_occ row_eq_dec (rows out) r = 1%nat) /\
    Subseq (rows out) (rows T).
Proof.
  intros H. eexists. split; [apply range_filter_rows; assumption |]. simpl.
  split; [reflexivity |]. split; [| split; [| split]].
  - apply Forall_forall. intros r Hr. apply filter_In in Hr.
    apply in_rangeb_iff. apply Hr.
  - intros r Hr. apply count_occ_filter. apply in_rangeb_iff. assumption.
  - intros Hnd r Hin Hr.
    rewrite count_occ_filter by (apply in_rangeb_iff; assumption).
    apply NoDup_count_occ' with (decA := row_eq_dec); assumption.
  - apply Subseq_filter.
Qed.

Lemma range_filter_correct_witness :
  exists out,
    range_filter (1990, 2000) sample_table = Some out /\
    columns out = columns sample_table /\
    Forall (fun r => in_range 1990 2000 (date_of sample_table r)) (rows out) /\
    (forall r, in_range 1990 2000 (date_of sample_table r) ->
               count_occ row_eq_dec (rows out) r
               = count_occ row_eq_dec (rows sample_table) r) /\
    (NoDup (rows sample_table) ->
     forall r, In r (rows sample_table) -> in_range 1990 2000 (date_of sample_table r) ->
               count_occ row_eq_dec (rows out) r = 1%nat) /\
    Subseq (rows out) (rows sample_table).
Proof. apply (range_filter_correct sample_table 1990 2000). reflexivity. Defined.

(** C8.  When no date of [T] lies in [[lo, hi]], the filter does not
    raise and returns the table with the columns of [T] and no row. *)
Theorem range_filter_disjoint (T : DataFrame) (lo hi : Z) :
  has_dates T = true ->
  (forall r, In r (rows T) -> ~ in_range lo hi (date_of T r)) ->
  range_filter (lo, hi) T = Some (mkFrame (columns T) []).
Proof.
  intros H Hd. rewrite range_filter_rows by assumption. f_equal. f_equal.
  induction (rows T) as [| r l IH]; simpl; [reflexivity |].
  destruct (in_rangeb lo hi (date_of T r)) eqn:E.
  - exfalso. apply (Hd r (or_introl eq_refl)). apply in_rangeb_iff. assumption.
  - apply IH. intros r' Hr'. apply Hd. right. assumption.
Qed.

Lemma range_filter_disjoint_witness :
  range_filter (2050, 2060) sample_table = Some (mkFrame ["date"; "value"] []).
Proof.
  apply (range_filter_disjoint sample_table 2050 2060).
  - reflexivity.
  - intros r Hr Hin. apply in_rangeb_iff in Hin. simpl in Hr.
    repeat (destruct Hr as [<- | Hr]; [vm_compute in Hin; discriminate Hin |]).
    contradiction.
Defined.

(** ** The filtering statements on the store *)

Lemma deref_alloc_old (h : Heap) (F df : DataFrame) (r : Ref) :
  deref h r = Some df -> deref (snd (alloc F h)) r = Some df.
Proof.
  unfold deref, alloc. cbn [snd]. intros H.
  rewrite nth_error_app1; [exact H |].
  apply nth_error_Some. rewrite H. discriminate.
Qed.

Lemma deref_alloc_new (h : Heap) (F : DataFrame) :
  deref (snd (alloc F h)) (fst (alloc F h)) = Some F.
Proof.
  unfold deref, alloc. cbn [fst snd].
  rewrite nth_error_app2 by apply Nat.le_refl. rewrite Nat.sub_diag. reflexivity.
Qed.

Lemma deref_fresh (h : Heap) : deref h (List.length h) = None.
Proof. apply nth_error_None, Nat.le_refl. Qed.

(** A store that keeps every object of [h] has not handed out the
    reference it hands out next to any object of [h]. *)
Lemma next_ref_fresh (h h1 : Heap) :
  (forall r df, deref h r = Some df -> exists df', deref h1 r = Some df') ->
  deref h (List.length h1) = None.
Proof.
  intros H. destruct (deref h (List.length h1)) as [df |] eqn:E; [| reflexivity].
  destruct (H _ _ E) as [df' E']. rewrite deref_fresh in E'. discriminate E'.
Qed.

(** The indexing expression on an object that holds a table. *)
Lemma filter_object_table (yr : Z * Z) (t : Ref) (h : Heap) (T : DataFrame) :
  deref h t = Some T -> has_dates T = true ->
  exists F, range_filter yr T = Some F /\
            filter_object yr t h = Some (List.length h, h ++ [F]).
Proof.
  intros Hd Ht. destruct yr as [lo hi]. unfold filter_object. rewrite Hd. cbn [obind].
  rewrite (range_filter_rows T lo hi Ht). cbn [obind].
  eexists. split; reflexivity.
Qed.

(** A chart that is handed a new object leaves the objects of before as
    they were, the new one allocated. *)
Lemma chart_on_new (chart : Ref -> Heap -> Heap) (h : Heap) (F : DataFrame) :
  chart_local chart ->
  (forall r df, deref h r = Some df ->
                deref (chart (List.length h) (h ++ [F])) r = Some df) /\
  exists F', deref (chart (List.length h) (h ++ [F])) (List.length h) = Some F'.
Proof.
  intros Hc. split.
  - intros r df Hr.
    destruct (Hc (List.length h) (h ++ [F]) r df (deref_alloc_old h F df r Hr))
      as [df' [E Hdf]].
    rewrite E. f_equal. apply Hdf. intros ->. rewrite deref_fresh in Hr. discriminate Hr.
  - destruct (Hc (List.length h) (h ++ [F]) (List.length h) F (deref_alloc_new h F))
      as [F' [E _]].
    exists F'. exact E.
Qed.

(** Lines 110-136, statement by statement: the stores and the variables
    after each of them. *)
Lemma filter_tables_steps (line_chart area_chart : Ref -> Heap -> Heap)
    (h : Heap) (v : Vars) (T L E : DataFrame) :
  chart_local line_chart -> chart_local area_chart ->
  deref h (temp_df v) = Some T ->
  deref h (sea_df v) = Some L ->
  deref h (emission_df v) = Some E ->
  has_dates T = true -> has_dates L = true -> has_dates E = true ->
  exists T' L' E',
    range_filter (year_range v) T = Some T' /\
    range_filter (year_range v) L = Some L' /\
    range_filter (year_range v) E = Some E' /\
    let ft := List.length h in
    let g1 := line_chart ft (h ++ [T']) in
    let fs := List.length g1 in
    let g2 := area_chart fs (g1 ++ [L']) in
    let fe := List.length g2 in
    let bound a b c :=
      mkVars (temp_df v) (sea_df v) (emission_df v) (year_range v) a b c in
    let v1 := bound (Some ft) (filtered_sea v) (filtered_emission v) in
    let v2 := bound (Some ft) (Some fs) (filtered_emission v) in
    let v3 := bound (Some ft) (Some fs) (Some fe) in
    bind_filtered_temp (h, v) = Some (h ++ [T'], v1) /\
    show_temp line_chart (h ++ [T'], v1) = Some (g1, v1) /\
    bind_filtered_sea (g1, v1) = Some (g1 ++ [L'], v2) /\
    show_sea area_chart (g1 ++ [L'], v2) = Some (g2, v2) /\
    bind_filtered_emission (g2, v2) = Some (g2 ++ [E'], v3) /\
    filter_tables line_chart area_chart (h, v) = Some (g2 ++ [E'], v3) /\
    (forall r df, deref h r = Some df -> deref g1 r = Some df) /\
    (forall r df, deref g1 r = Some df -> deref g2 r = Some df) /\
    (exists X, deref g1 ft = Some X) /\
    (exists Y, deref g2 fs = Some Y).
Proof.
  intros Hlc Hac HT HL HE dT dL dE.
  destruct (filter_object_table (year_range v) (temp_df v) h T HT dT) as [T' [RT FT]].
  destruct (chart_on_new line_chart h T' Hlc) as [K1 A1].
  set (g1 := line_chart (List.length h) (h ++ [T'])) in *.
  destruct (filter_object_table (year_range v) (sea_df v) g1 L (K1 _ _ HL) dL)
    as [L' [RL FL]].
  destruct (chart_on_new area_chart g1 L' Hac) as [K2 A2].
  set (g2 := area_chart (List.length g1) (g1 ++ [L'])) in *.
  destruct (filter_object_table (year_range v) (emission_df v) g2 E
              (K2 _ _ (K1 _ _ HE)) dE) as [E' [RE FE]].
  exists T', L', E'. split; [exact RT |]. split; [exact RL |]. split; [exact RE |].
  cbv zeta. fold g1. fold g2.
  assert (B1 : bind_filtered_temp (h, v)
               = Some (h ++ [T'],
                       mkVars (temp_df v) (sea_df v) (emission_df v) (year_range v)
                              (Some (List.length h)) (filtered_sea v)
                              (filtered_emission v))).
  { unfold bind_filtered_temp. cbn [fst snd]. rewrite FT. reflexivity. }
  assert (B2 : bind_filtered_sea
                 (g1, mkVars (temp_df v) (sea_df v) (emission_df v) (year_range v)
                             (Some (List.length h)) (filtered_sea v)
                             (filtered_emission v))
               = Some (g1 ++ [L'],
                       mkVars (temp_df v) (sea_df v) (emission_df v) (year_range v)
                              (Some (List.length h)) (Some (List.length g1))
                              (filtered_emission v))).
  { unfold bind_filtered_sea. cbn [fst snd year_range sea_df]. rewrite FL. reflexivity. }
  assert (B3 : bind_filtered_emission
                 (g2, mkVars (temp_df v) (sea_df v) (emission_df v) (year_range v)
                             (Some (List.length h)) (Some (List.length g1))
                             (filtered_emission v))
               = Some (g2 ++ [E'],
                       mkVars (temp_df v) (sea_df v) (emission_df v) (year_range v)
                              (Some (List.length h)) (Some (List.length g1))
                              (Some (List.length g2)))).
  { unfold bind_filtered_emission. cbn [fst snd year_range emission_df].
    rewrite FE. reflexivity. }
  split; [exact B1 |]. split; [reflexivity |]. split; [exact B2 |].
  split; [reflexivity |]. split; [exact B3 |]. split.
  { unfold filter_tables. rewrite B1. cbn [obind]. unfold show_temp at 1.
    cbn [fst snd filtered_temp obind]. fold g1. rewrite B2. cbn [obind].
    unfold show_sea at 1. cbn [fst snd filtered_sea obind]. fold g2. exact B3. }
  split; [exact K1 |]. split; [exact K2 |]. split; [exact A1 | exact A2].
Qed.

(** C9.  Lines 110-136 on a store in which the three table variables
    refer to tables, whatever else the store holds and whichever of the
    variables share an object, and whatever the two charts do to the
    frames they are handed.  The one [year_range] filters each table;
    each filtering statement binds its variable to a new object that
    holds the selection from its own table; no variable other than the
    three filtered ones is rebound; the three new objects are distinct
    from one another and from every object of before; and every object
    of before, the three tables among them, holds at the end the frame it
    held at the start: no row of a table is removed, changed or moved. *)
Theorem filter_tables_frame (line_chart area_chart : Ref -> Heap -> Heap)
    (h : Heap) (v : Vars) (T L E : DataFrame) :
  chart_local line_chart -> chart_local area_chart ->
  deref h (temp_df v) = Some T ->
  deref h (sea_df v) = Some L ->
  deref h (emission_df v) = Some E ->
  has_dates T = true -> has_dates L = true -> has_dates E = true ->
  exists h1 v1 h2 v2 h' v' ft fs fe T' L' E',
    range_filter (year_range v) T = Some T' /\
    range_filter (year_range v) L = Some L' /\
    range_filter (year_range v) E = Some E' /\
    bind_filtered_temp (h, v) = Some (h1, v1) /\
    filtered_temp v1 = Some ft /\ deref h1 ft = Some T' /\
    (exists st, show_temp line_chart (h1, v1) = Some st /\
                bind_filtered_sea st = Some (h2, v2)) /\
    filtered_sea v2 = Some fs /\ deref h2 fs = Some L' /\
    (exists st, show_sea area_chart (h2, v2) = Some st /\
                bind_filtered_emission st = Some (h', v')) /\
    filtered_emission v' = Some fe /\ deref h' fe = Some E' /\
    filter_tables line_chart area_chart (h, v) = Some (h', v') /\
    v' = mkVars (temp_df v) (sea_df v) (emission_df v) (year_range v)
                (Some ft) (Some fs) (Some fe) /\
    (deref h ft = None /\ deref h fs = None /\ deref h fe = None) /\
    (ft <> fs /\ fs <> fe /\ ft <> fe) /\
    (forall r df, deref h r = Some df -> deref h' r = Some df).
Proof.
  intros Hlc Hac HT HL HE dT dL dE.
  destruct (filter_tables_steps line_chart area_chart h v T L E
              Hlc Hac HT HL HE dT dL dE)
    as (T' & L' & E' & RT & RL & RE & H).
  cbv zeta in H.
  set (ft := List.length h) in *.
  set (g1 := line_chart ft (h ++ [T'])) in *.
  set (fs := List.length g1) in *.
  set (g2 := area_chart fs (g1 ++ [L'])) in *.
  set (fe := List.length g2) in *.
  destruct H as (B1 & S1 & B2 & S2 & B3 & Hrun & K1 & K2 & [X A1] & [Y A2]).
  assert (K : forall r df, deref h r = Some df -> deref g2 r = Some df)
    by (intros r df Hr; apply K2, K1, Hr).
  do 6 eexists. exists ft, fs, fe, T', L', E'.
  split; [exact RT |]. split; [exact RL |]. split; [exact RE |].
  split; [exact B1 |]. split; [reflexivity |].
  split; [apply (deref_alloc_new h T') |].
  split; [eexists; split; [exact S1 | exact B2] |].
  split; [reflexivity |].
  split; [apply (deref_alloc_new g1 L') |].
  split; [eexists; split; [exact S2 | exact B3] |].
  split; [reflexivity |].
  split; [apply (deref_alloc_new g2 E') |].
  split; [exact Hrun |].
  split; [reflexivity |].
  split; [| split].
  - (* the new references are not references of before *)
    split; [apply deref_fresh |]. split; apply next_ref_fresh; intros r df Hr; exists df.
    + apply K1, Hr.
    + apply K, Hr.
  - (* and they differ from one another: the earlier ones are in use *)
    assert (N1 : ft <> fs).
    { intros Eq. unfold fs in Eq. rewrite Eq in A1.
      rewrite deref_fresh in A1. discriminate A1. }
    assert (N2 : fs <> fe).
    { intros Eq. unfold fe in Eq. rewrite Eq in A2.
      rewrite deref_fresh in A2. discriminate A2. }
    assert (N3 : ft <> fe).
    { intros Eq. pose proof (K2 ft X A1) as A3. unfold fe in Eq. rewrite Eq in A3.
      rewrite deref_fresh in A3. discriminate A3. }
    auto.
  - (* what was allocated before is untouched *)
    intros r df Hr. apply (deref_alloc_old g2 E' df r). apply K, Hr.
Qed.

Lemma wipe_local : chart_local wipe.
Proof.
  intros r h. revert r. induction h as [| x h IH]; intros r r' df H.
  - destruct r'; discriminate H.
  - destruct r as [| r]; destruct r' as [| r']; cbn in *.
    + eexists. split; [reflexivity |]. intros N. contradiction.
    + exists df. split; [exact H | reflexivity].
    + exists df. split; [exact H | reflexivity].
    + destruct (IH r r' df H) as [df' [E Hd]]. exists df'. split; [exact E |].
      intros N. apply Hd. intros ->. apply N. reflexivity.
Qed.

Lemma filter_tables_frame_witness :
  exists h1 v1 h2 v2 h' v' ft fs fe T' L' E',
    range_filter (1990, 1995) sample_table = Some T' /\
    range_filter (1990, 1995) sample_table = Some L' /\
    range_filter (1990, 1995) sample_emission = Some E' /\
    bind_filtered_temp (sample_heap, sample_vars) = Some (h1, v1) /\
    filtered_temp v1 = Some ft /\ deref h1 ft = Some T' /\
    (exists st, show_temp wipe (h1, v1) = Some st /\
                bind_filtered_sea st = Some (h2, v2)) /\
    filtered_sea v2 = Some fs /\ deref h2 fs = Some L' /\
    (exists st, show_sea wipe (h2, v2) = Some st /\
                bind_filtered_emission st = Some (h', v')) /\
    filtered_emission v' = Some fe /\ deref h' fe = Some E' /\
    filter_tables wipe wipe (sample_heap, sample_vars) = Some (h', v') /\
    v' = mkVars 0%nat 0%nat 1%nat (1990, 1995) (Some ft) (Some fs) (Some fe) /\
    (deref sample_heap ft = None /\ deref sample_heap fs = None /\
     deref sample_heap fe = None) /\
    (ft <> fs /\ fs <> fe /\ ft <> fe) /\
    (forall r df, deref sample_heap r = Some df -> deref h' r = Some df).
Proof.
  apply (filter_tables_frame wipe wipe sample_heap sample_vars
                             sample_table sample_table sample_emission);
    try reflexivity; apply wipe_local.
Defined.

(** ** The temperature loader: the path without exception *)

Lemma col_index_map (f : string -> string) (c c' : string) (ls : list string) :
  (forall l, In l ls -> (f l = c' <-> l = c)) ->
  col_index c' (map f ls) = col_index c ls.
Proof.
  induction ls as [| l ls IH]; intros H; simpl; [reflexivity |].
  rewrite IH by (intros; apply H; right; assumption).
  destruct (String.eqb c' (f l)) eqn:E1, (String.eqb c l) eqn:E2; try reflexivity.
  - apply String.eqb_eq in E1. apply String.eqb_neq in E2.
    exfalso. apply E2. symmetry. apply (H l (or_introl eq_refl)). auto.
  - apply String.eqb_neq in E1. apply String.eqb_eq in E2.
    exfalso. apply E1. symmetry. apply (H l (or_introl eq_refl)). auto.
Qed.

Lemma col_index_year_renamed (ls : list string) :
  ~ In "date" ls ->
  col_index "date" (map (lookup_label [("Year", "date")]) ls) = col_index "Year" ls.
Proof.
  intros Hn. apply col_index_map. intros l Hl. simpl.
  destruct (String.eqb l "Year") eqn:E.
  - apply String.eqb_eq in E. tauto.
  - apply String.eqb_neq in E. split; intros ->; [exfalso; auto | contradiction].
Qed.

Lemma col_index_jd_renamed (ls : list string) :
  col_index "J-D" (map (lookup_label [("Year", "date")]) ls) = col_index "J-D" ls.
Proof.
  apply col_index_map. intros l _. simpl.
  destruct (String.eqb l "Year") eqn:E.
  - apply String.eqb_eq in E. subst l. split; discriminate.
  - tauto.
Qed.

(** C5.  Let the remote file parse to [df], a frame without a column
    already called [date].  Whenever the [try] block returns a table, [df]
    has a [Year] and a [J-D] column, and the table has exactly the columns
    [date] and [value], holding the [Year] and [J-D] cells of the rows of
    [df] whose year is at most the current year, in their order; every
    returned row has [date <= now_year]; and the loader's body returns
    that table with no warning and no random draw. *)
Theorem load_global_temp_success (w : World) (df out : DataFrame) :
  read_csv w temp_url 1 = Some df ->
  ~ In "date" (columns df) ->
  temp_try w = Some out ->
  exists iy iv,
    col_index "Year" (columns df) = Some iy /\
    col_index "J-D" (columns df) = Some iv /\
    columns out = ["date"; "value"] /\
    rows out = filter (fun r => at_mostb (now_year w) (nth 0 r NaN))
                      (map (fun r => [nth iy r NaN; nth iv r NaN]) (rows df)) /\
    Forall (fun r => at_most (now_year w) (date_of out r)) (rows out) /\
    forall s, load_global_temp_body w s = (out, log_fetch temp_url s).
Proof.
  intros Hread Hnd Htry.
  assert (Hbody : forall s, load_global_temp_body w s = (out, log_fetch temp_url s)).
  { intros s. unfold load_global_temp_body. rewrite Htry. reflexivity. }
  unfold temp_try in Htry. rewrite Hread in Htry.
  unfold select, rename in Htry. cbn [obind mapM columns rows] in Htry.
  rewrite (col_index_year_renamed _ Hnd), col_index_jd_renamed in Htry.
  destruct (col_index "Year" (columns df)) as [iy |]; [| discriminate].
  destruct (col_index "J-D" (columns df)) as [iv |]; [| discriminate].
  simpl in Htry. unfold getcol in Htry. simpl in Htry.
  destruct (series_le _ (now_year w)) as [m |] eqn:Em; [| discriminate].
  simpl in Htry. injection Htry as <-.
  apply series_le_inv in Em. destruct Em as [_ ->].
  exists iy, iv. unfold loc_mask in *. simpl in *.
  set (R := map (fun r => [nth iy r NaN; nth iv r NaN]) (rows df)) in *.
  rewrite (map_map (fun r => nth 0 r NaN) (at_mostb (now_year w)) R) in *.
  rewrite select_rows_map in *.
  repeat split; try assumption.
  - apply Forall_forall. intros r Hr. apply filter_In in Hr.
    apply at_mostb_iff. unfold date_of. simpl. apply Hr.
Qed.

Lemma load_global_temp_success_witness :
  exists iy iv,
    col_index "Year" (columns sample_gistemp) = Some iy /\
    col_index "J-D" (columns sample_gistemp) = Some iv /\
    columns (mkFrame ["date"; "value"]
                     [[Num 2020; Num (101 # 100)]; [Num 2026; NaN]]) = ["date"; "value"] /\
    rows (mkFrame ["date"; "value"]
                  [[Num 2020; Num (101 # 100)]; [Num 2026; NaN]])
    = filter (fun r => at_mostb (now_year sample_world) (nth 0 r NaN))
             (map (fun r => [nth iy r NaN; nth iv r NaN]) (rows sample_gistemp)) /\
    Forall (fun r => at_most (now_year sample_world)
                       (date_of (mkFrame ["date"; "value"]
                                         [[Num 2020; Num (101 # 100)]; [Num 2026; NaN]]) r))
           (rows (mkFrame ["date"; "value"]
                          [[Num 2020; Num (101 # 100)]; [Num 2026; NaN]])) /\
    forall s, load_global_temp_body sample_world s
              = (mkFrame ["date"; "value"]
                         [[Num 2020; Num (101 # 100)]; [Num 2026; NaN]],
                 log_fetch temp_url s).
Proof.
  apply (load_global_temp_success sample_world sample_gistemp).
  - reflexivity.
  - simpl. intros [H | [H | [H | []]]]; discriminate H.
  - reflexivity.
Defined.

(** ** Arrays and synthetic frames *)

Lemma nth_map_seq {A : Type} (f : nat -> A) (n i : nat) (d : A) :
  (i < n)%nat -> nth i (map f (seq 0 n)) d = f i.
Proof.
  intros H. rewrite (nth_indep _ d (f O)) by (rewrite length_map, length_seq; exact H).
  rewrite (map_nth f (seq 0 n) O i). rewrite seq_nth by exact H. reflexivity.
Qed.

Lemma nth_map_in {A B : Type} (f : A -> B) (l : list A) (i : nat) (da : A) (db : B) :
  (i < List.length l)%nat -> nth i (map f l) db = f (nth i l da).
Proof.
  intros H. rewrite (nth_indep _ db (f da)) by (rewrite length_map; exact H).
  apply map_nth.
Qed.

Lemma length_arange (a b : Z) : List.length (arange a b) = Z.to_nat (b - a).
Proof. unfold arange. rewrite length_map, length_seq. reflexivity. Qed.

Lemma nth_arange (a b : Z) (i : nat) :
  (i < Z.to_nat (b - a))%nat -> nth i (arange a b) 0 = a + Z.of_nat i.
Proof. intros H. unfold arange. rewrite nth_map_seq by exact H. reflexivity. Qed.

Lemma length_linspace (a b : Q) (n : nat) : List.length (linspace a b n) = n.
Proof. unfold linspace. rewrite length_map, length_seq. reflexivity. Qed.

Lemma nth_linspace (a b : Q) (n i : nat) :
  (i < n)%nat ->
  nth i (linspace a b n) 0%Q
  = (inject_Z (Z.of_nat i) * ((b - a) / inject_Z (Z.of_nat (n - 1))) + a)%Q.
Proof. intros H. unfold linspace. rewrite nth_map_seq by exact H. reflexivity. Qed.

Lemma length_normal_draws (loc scale : Q) (n : nat) (g : Rng) :
  List.length (normal_draws loc scale n g) = n.
Proof. unfold normal_draws. rewrite length_map, length_seq. reflexivity. Qed.

Lemma nth_normal_draws (loc scale : Q) (n i : nat) (g : Rng) :
  (i < n)%nat ->
  nth i (normal_draws loc scale n g) 0%Q = (loc + scale * gauss g (pos g + i))%Q.
Proof. intros H. unfold normal_draws. rewrite nth_map_seq by exact H. reflexivity. Qed.

Lemma length_vadd (a b : list Q) :
  List.length a = List.length b -> List.length (vadd a b) = List.length a.
Proof.
  revert b. induction a as [| x a IH]; intros [| y b] H; simpl in *;
    try discriminate; [reflexivity |].
  f_equal. apply IH. congruence.
Qed.

Lemma nth_vadd (a b : list Q) (i : nat) :
  List.length a = List.length b -> (i < List.length a)%nat ->
  nth i (vadd a b) 0%Q = (nth i a 0 + nth i b 0)%Q.
Proof.
  revert b i. induction a as [| x a IH]; intros [| y b] i H Hi; simpl in *;
    try discriminate; try lia.
  destruct i as [| i]; [reflexivity |]. apply IH; [congruence | lia].
Qed.

Lemma length_vsub (a b : list Q) :
  List.length a = List.length b -> List.length (vsub a b) = List.length a.
Proof.
  revert b. induction a as [| x a IH]; intros [| y b] H; simpl in *;
    try discriminate; [reflexivity |].
  f_equal. apply IH. congruence.
Qed.

Lemma nth_vsub (a b : list Q) (i : nat) :
  List.length a = List.length b -> (i < List.length a)%nat ->
  nth i (vsub a b) 0%Q = (nth i a 0 - nth i b 0)%Q.
Proof.
  revert b i. induction a as [| x a IH]; intros [| y b] i H Hi; simpl in *;
    try discriminate; try lia.
  destruct i as [| i]; [reflexivity |]. apply IH; [congruence | lia].
Qed.

Lemma nth_ints (l : list Z) (i : nat) :
  (i < List.length l)%nat -> nth i (ints l) NaN = Num (inject_Z (nth i l 0)).
Proof.
  intros H. unfold ints.
  apply (nth_map_in (fun z => Num (inject_Z z)) l i 0 NaN H).
Qed.

Lemma nth_floats (l : list Q) (i : nat) :
  (i < List.length l)%nat -> nth i (floats l) NaN = Num (nth i l 0%Q).
Proof. intros H. unfold floats. apply (nth_map_in Num l i 0%Q NaN H). Qed.

(** A trend plus noise, sample by sample. *)
Lemma nth_trend_plus_noise (a b loc scale : Q) (n i : nat) (g : Rng) :
  (i < n)%nat ->
  nth i (vadd (linspace a b n) (normal_draws loc scale n g)) 0%Q
  = (inject_Z (Z.of_nat i) * ((b - a) / inject_Z (Z.of_nat (n - 1))) + a
     + (loc + scale * gauss g (pos g + i)))%Q.
Proof.
  intros Hi.
  pose proof (length_linspace a b n) as L1.
  pose proof (length_normal_draws loc scale n g) as L2.
  rewrite nth_vadd by congruence.
  rewrite nth_linspace, nth_normal_draws by exact Hi. reflexivity.
Qed.

Lemma length_trend_plus_noise (a b loc scale : Q) (n : nat) (g : Rng) :
  List.length (vadd (linspace a b n) (normal_draws loc scale n g)) = n.
Proof.
  pose proof (length_linspace a b n) as L1.
  pose proof (length_normal_draws loc scale n g) as L2.
  rewrite length_vadd; congruence.
Qed.

(** The synthetic temperature frame, row by row. *)
Lemma temp_fallback_rows (s : Runtime) :
  exists df s',
    temp_fallback s = (df, s') /\
    warnings s' = warnings s ++ [temp_warning] /\
    fetched s' = fetched s /\
    cache s' = cache s /\
    rng s' = advance 33 (rng s) /\
    columns df = ["date"; "value"] /\
    List.length (rows df) = 33%nat /\
    forall i, (i < 33)%nat ->
      exists v,
        nth i (rows df) [] = [Num (inject_Z (1990 + Z.of_nat i)); Num v] /\
        (v == (2 # 10) + inject_Z (Z.of_nat i) * (((12 # 10) - (2 # 10)) / 32)
              + (1 # 10) * gauss (rng s) (pos (rng s) + i))%Q.
Proof.
  unfold temp_fallback, np_random_normal. cbn [rng st_warning].
  do 2 eexists. split; [reflexivity |]. cbn [warnings fetched cache rng].
  repeat (split; [reflexivity |]).
  intros i Hi. unfold frame_of_dict. cbn [columns rows map fst snd].
  assert (Hn : List.length (ints (arange 1990 2023)) = 33%nat) by reflexivity.
  rewrite Hn. rewrite nth_map_seq by exact Hi. cbn [map snd].
  rewrite nth_ints by (rewrite length_arange; exact Hi).
  rewrite nth_arange by exact Hi.
  assert (Hl : List.length (arange 1990 2023) = 33%nat) by reflexivity.
  rewrite Hl.
  rewrite nth_floats by (rewrite length_trend_plus_noise; exact Hi).
  rewrite nth_trend_plus_noise by exact Hi.
  eexists. split; [reflexivity |].
  change (inject_Z (Z.of_nat (33 - 1))) with 32%Q. field.
Qed.

(** ** The temperature loader: the path through [except] *)

(** The three kinds of failure: the fetch raises, a column is missing,
    the year column cannot be compared with a number. *)
Example temp_try_network_error : temp_try offline_world = None.
Proof. reflexivity. Qed.

Example temp_try_missing_column : temp_try (serving gistemp_without_jd) = None.
Proof. reflexivity. Qed.

Example temp_try_text_year : temp_try (serving gistemp_text_year) = None.
Proof. reflexivity. Qed.

(** C1 (amended).  Whenever the [try] block of the temperature loader
    raises, whatever the cause, a call that runs the body shows exactly
    one warning and returns the synthetic table: columns [date] and
    [value], 33 rows, one per year of the fixed span 1990-2022 whatever
    the current year is, the value of row [i] being the interpolation
    from 0.2 to 1.2 at step [i] of 32 plus 0.1 times the next standard
    normal variate. *)
Theorem load_global_temp_fallback (w : World) (s : Runtime) :
  temp_try w = None ->
  cache s "load_global_temp" = None ->
  exists df s',
    load_global_temp w s = (df, s') /\
    warnings s' = warnings s ++ [temp_warning] /\
    columns df = ["date"; "value"] /\
    List.length (rows df) = 33%nat /\
    forall i, (i < 33)%nat ->
      exists v,
        nth i (rows df) [] = [Num (inject_Z (1990 + Z.of_nat i)); Num v] /\
        (v == (2 # 10) + inject_Z (Z.of_nat i) * (((12 # 10) - (2 # 10)) / 32)
              + (1 # 10) * gauss (rng s) (pos (rng s) + i))%Q.
Proof.
  intros Htry Hmiss.
  unfold load_global_temp, cache_data. rewrite Hmiss.
  unfold load_global_temp_body. rewrite Htry.
  destruct (temp_fallback_rows (log_fetch temp_url (set_warnings [] s)))
    as (df & s1 & E & Hw & _ & _ & _ & Hc & Hl & Hr).
  rewrite E. exists df. eexists. split; [reflexivity |].
  cbn [warnings set_cache set_warnings]. rewrite Hw.
  repeat (split; [reflexivity || assumption |]).
  exact Hr.
Qed.

Lemma load_global_temp_fallback_witness :
  exists df s',
    load_global_temp offline_world fresh_runtime = (df, s') /\
    warnings s' = warnings fresh_runtime ++ [temp_warning] /\
    columns df = ["date"; "value"] /\
    List.length (rows df) = 33%nat /\
    forall i, (i < 33)%nat ->
      exists v,
        nth i (rows df) [] = [Num (inject_Z (1990 + Z.of_nat i)); Num v] /\
        (v == (2 # 10) + inject_Z (Z.of_nat i) * (((12 # 10) - (2 # 10)) / 32)
              + (1 # 10) * gauss (rng fresh_runtime) (pos (rng fresh_runtime) + i))%Q.
Proof. apply (load_global_temp_fallback offline_world fresh_runtime); reflexivity. Defined.

(** C1 as stated fails: in 2026, with the network down, the table
    returned stops at 2022 and has 33 rows, not the 37 of 1990-2026. *)
Lemma load_global_temp_fallback_not_to_present :
  temp_try offline_world = None /\
  now_year offline_world = 2026 /\
  getcol "date" (fst (load_global_temp offline_world fresh_runtime))
  = Some (ints (arange 1990 2023)) /\
  getcol "date" (fst (load_global_temp offline_world fresh_runtime))
  <> Some (ints (arange 1990 (now_year offline_world + 1))) /\
  List.length (rows (fst (load_global_temp offline_world fresh_runtime)))
  <> List.length (arange 1990 (now_year offline_world + 1)).
Proof.
  repeat split; try reflexivity.
  - vm_compute. intros H. discriminate H.
  - vm_compute. intros H. discriminate H.
Qed.

(** ** Memoization *)

Lemma cache_data_hit (key : string) (body : World -> Runtime -> DataFrame * Runtime)
    (w : World) (s : Runtime) (e : Entry) :
  cache s key = Some e ->
  cache_data key body w s = (e_value e, set_warnings (warnings s ++ e_messages e) s).
Proof. intros H. unfold cache_data. rewrite H. reflexivity. Qed.

(** After a call the store holds the value that the call returned. *)
Lemma cache_data_stores (key : string) (body : World -> Runtime -> DataFrame * Runtime)
    (w : World) (s : Runtime) :
  exists e, cache (snd (cache_data key body w s)) key = Some e /\
            e_value e = fst (cache_data key body w s).
Proof.
  unfold cache_data. destruct (cache s key) as [e |] eqn:E.
  - exists e. simpl. auto.
  - destruct (body w (set_warnings [] s)) as [v s']. eexists. simpl.
    rewrite String.eqb_refl. split; reflexivity.
Qed.

(** A call never drops a stored entry, provided the body leaves the store
    alone. *)
Lemma cache_data_keeps (key : string) (body : World -> Runtime -> DataFrame * Runtime)
    (w : World) (s : Runtime) (k : string) (e : Entry) :
  (forall w0 s0, cache (snd (body w0 s0)) = cache s0) ->
  cache s k = Some e ->
  cache (snd (cache_data key body w s)) k = Some e.
Proof.
  intros Hb Hk. unfold cache_data. destruct (cache s key) as [e0 |] eqn:E.
  - simpl. exact Hk.
  - specialize (Hb w (set_warnings [] s)).
    destruct (body w (set_warnings [] s)) as [v s']. simpl in *.
    destruct (String.eqb k key) eqn:Ek.
    + apply String.eqb_eq in Ek. subst k. congruence.
    + rewrite Hb. exact Hk.
Qed.

Lemma load_global_temp_body_cache (w : World) (s : Runtime) :
  cache (snd (load_global_temp_body w s)) = cache s.
Proof. unfold load_global_temp_body. destruct (temp_try w); reflexivity. Qed.

Lemma load_sea_level_body_cache td (w : World) (s : Runtime) :
  cache (snd (load_sea_level_body td w s)) = cache s.
Proof. unfold load_sea_level_body. destruct (sea_try td w); reflexivity. Qed.

Lemma build_emission_frame (s : Runtime) :
  cache (snd (build_emission s)) = cache s /\
  fetched (snd (build_emission s)) = fetched s /\
  warnings (snd (build_emission s)) = warnings s /\
  rng (snd (build_emission s)) = advance 33 (advance 33 (advance 33 (rng s))).
Proof. repeat split; reflexivity. Qed.

(** A second call of a cached function: same value, no fetch, no draw. *)
Lemma cache_data_twice (key : string) (body : World -> Runtime -> DataFrame * Runtime)
    (w1 w2 : World) (s : Runtime) :
  let r1 := cache_data key body w1 s in
  let r2 := cache_data key body w2 (snd r1) in
  fst r2 = fst r1 /\ fetched (snd r2) = fetched (snd r1) /\ rng (snd r2) = rng (snd r1).
Proof.
  intros r1 r2. destruct (cache_data_stores key body w1 s) as [e [He Hv]].
  fold r1 in He, Hv. unfold r2. rewrite (cache_data_hit key body w2 (snd r1) e He).
  simpl. auto.
Qed.

Lemma load_tables_steps td (w : World) (s : Runtime) :
  load_tables td w s
  = let a := load_global_temp w s in
    let b := load_sea_level td w (snd a) in
    let c := build_emission (snd b) in
    ((fst a, fst b, fst c), snd c).
Proof.
  unfold load_tables. cbv zeta.
  destruct (load_global_temp w s) as [t s1]. cbn [fst snd].
  destruct (load_sea_level td w s1) as [l s2]. cbn [fst snd].
  destruct (build_emission s2) as [e s3]. reflexivity.
Qed.

(** C6.  For each loader, a second call in the same process returns the
    table of the first call and requests no URL, whatever the remote
    files (and the clock) have become in between; and a second run of
    lines 73-86 gets the temperature and sea-level tables of the first
    run without any request. *)
Theorem loaders_memoized (to_datetime : Series -> option (list datetime))
    (w1 w2 : World) (s : Runtime) :
  (let r1 := load_global_temp w1 s in
   let r2 := load_global_temp w2 (snd r1) in
   fst r2 = fst r1 /\ fetched (snd r2) = fetched (snd r1)) /\
  (let r1 := load_sea_level to_datetime w1 s in
   let r2 := load_sea_level to_datetime w2 (snd r1) in
   fst r2 = fst r1 /\ fetched (snd r2) = fetched (snd r1)) /\
  (let r1 := load_tables to_datetime w1 s in
   let r2 := load_tables to_datetime w2 (snd r1) in
   fst (fst (fst r2)) = fst (fst (fst r1)) /\
   snd (fst (fst r2)) = snd (fst (fst r1)) /\
   fetched (snd r2) = fetched (snd r1)).
Proof.
  split; [| split].
  - pose proof (cache_data_twice "load_global_temp" load_global_temp_body w1 w2 s) as H.
    simpl in H. unfold load_global_temp. simpl. tauto.
  - pose proof (cache_data_twice "load_sea_level" (load_sea_level_body to_datetime)
                                 w1 w2 s) as H.
    simpl in H. unfold load_sea_level. simpl. tauto.
  - cbv zeta. rewrite (load_tables_steps to_datetime w1 s). cbv zeta. cbn [fst snd].
    set (a1 := load_global_temp w1 s).
    set (b1 := load_sea_level to_datetime w1 (snd a1)).
    set (c1 := build_emission (snd b1)).
    destruct (cache_data_stores "load_global_temp" load_global_temp_body w1 s)
      as [e1 [He1 Hv1]].
    fold load_global_temp in He1, Hv1. fold a1 in He1, Hv1.
    destruct (cache_data_stores "load_sea_level" (load_sea_level_body to_datetime)
                                w1 (snd a1)) as [e2 [He2 Hv2]].
    pose proof (cache_data_keeps "load_sea_level" (load_sea_level_body to_datetime)
                  w1 (snd a1) "load_global_temp" e1
                  (load_sea_level_body_cache to_datetime) He1) as Hk.
    fold (load_sea_level to_datetime) in He2, Hv2, Hk. fold b1 in He2, Hv2, Hk.
    destruct (build_emission_frame (snd b1)) as [Hc [Hf _]]. fold c1 in Hc, Hf.
    rewrite <- Hc in He2, Hk.
    assert (Ha2 : load_global_temp w2 (snd c1)
                  = (e_value e1, set_warnings (warnings (snd c1) ++ e_messages e1) (snd c1)))
      by (apply cache_data_hit; exact Hk).
    rewrite load_tables_steps. cbv zeta. rewrite Ha2. cbn [fst snd].
    assert (Hb2 : load_sea_level to_datetime w2
                    (set_warnings (warnings (snd c1) ++ e_messages e1) (snd c1))
                  = (e_value e2,
                     set_warnings
                       (warnings (set_warnings (warnings (snd c1) ++ e_messages e1) (snd c1))
                        ++ e_messages e2)
                       (set_warnings (warnings (snd c1) ++ e_messages e1) (snd c1))))
      by (apply cache_data_hit; exact He2).
    rewrite Hb2. cbn [fst snd].
    split; [exact Hv1 | split; [exact Hv2 |]].
    destruct (build_emission_frame
                (set_warnings
                   (warnings (set_warnings (warnings (snd c1) ++ e_messages e1) (snd c1))
                    ++ e_messages e2)
                   (set_warnings (warnings (snd c1) ++ e_messages e1) (snd c1))))
      as [_ [Hf' _]].
    rewrite Hf'. reflexivity.
Qed.

(** ** The emission series *)

(** C4.  The builder returns 33 rows, one per year of 1990-2022, and
    requests no URL.  In row [i] the gross value is the interpolation from
    300 to 750 at step [i] of 32 plus 20 times a standard variate; the net
    value is exactly the gross value minus [noiseA = 30 + 5 z'], and the
    CO2 value exactly the net value minus [noiseB = 20 + 5 z''], where
    [z], [z'], [z''] are three different draws of the generator
    (positions [i], [33 + i] and [66 + i] after the cursor). *)
Theorem build_emission_spec (s : Runtime) :
  exists df s',
    build_emission s = (df, s') /\
    columns df = ["date"; "총배출량"; "순배출량"; "CO2"] /\
    List.length (rows df) = 33%nat /\
    fetched s' = fetched s /\
    forall i, (i < 33)%nat ->
      exists gross net co2 noiseA noiseB,
        nth i (rows df) [] = [Num (inject_Z (1990 + Z.of_nat i)); Num gross; Num net; Num co2] /\
        (gross == 300 + inject_Z (Z.of_nat i) * ((750 - 300) / 32)
                  + 20 * gauss (rng s) (pos (rng s) + i))%Q /\
        noiseA = (30 + 5 * gauss (rng s) (pos (rng s) + 33 + i))%Q /\
        noiseB = (20 + 5 * gauss (rng s) (pos (rng s) + 33 + 33 + i))%Q /\
        net = (gross - noiseA)%Q /\
        co2 = (net - noiseB)%Q.
Proof.
  unfold build_emission, np_random_normal. cbn [rng fetched warnings cache].
  do 2 eexists. split; [reflexivity |]. cbn [fetched].
  repeat (split; [reflexivity |]).
  intros i Hi. unfold frame_of_dict. cbn [columns rows map fst snd].
  assert (Hn : List.length (ints (arange 1990 2023)) = 33%nat) by reflexivity.
  rewrite Hn. rewrite nth_map_seq by exact Hi. cbn [map snd].
  assert (Hl : List.length (arange 1990 2023) = 33%nat) by reflexivity.
  rewrite Hl.
  set (total := vadd (linspace 300 750 33) (normal_draws 0 20 33 (rng s))).
  set (e2 := normal_draws 30 5 33 (advance 33 (rng s))).
  set (e3 := normal_draws 20 5 33 (advance 33 (advance 33 (rng s)))).
  assert (Lt : List.length total = 33%nat) by apply length_trend_plus_noise.
  assert (L2 : List.length e2 = 33%nat) by apply length_normal_draws.
  assert (L3 : List.length e3 = 33%nat) by apply length_normal_draws.
  assert (Ln : List.length (vsub total e2) = 33%nat)
    by (rewrite length_vsub; congruence).
  assert (Lc : List.length (vsub (vsub total e2) e3) = 33%nat)
    by (rewrite length_vsub; congruence).
  rewrite nth_ints by (rewrite length_arange; exact Hi).
  rewrite nth_arange by exact Hi.
  rewrite !nth_floats by congruence.
  rewrite (nth_vsub (vsub total e2) e3) by congruence.
  rewrite (nth_vsub total e2) by congruence.
  unfold e2, e3. rewrite !nth_normal_draws by exact Hi. cbn [advance gauss pos].
  do 5 eexists. split; [reflexivity |].
  split; [| repeat split; reflexivity].
  unfold total. rewrite nth_trend_plus_noise by exact Hi.
  change (inject_Z (Z.of_nat (33 - 1))) with 32%Q. field.
Qed.

Lemma build_emission_spec_witness :
  exists df s',
    build_emission fresh_runtime = (df, s') /\
    columns df = ["date"; "총배출량"; "순배출량"; "CO2"] /\
    List.length (rows df) = 33%nat /\
    fetched s' = fetched fresh_runtime /\
    forall i, (i < 33)%nat ->
      exists gross net co2 noiseA noiseB,
        nth i (rows df) [] = [Num (inject_Z (1990 + Z.of_nat i)); Num gross; Num net; Num co2] /\
        (gross == 300 + inject_Z (Z.of_nat i) * ((750 - 300) / 32)
                  + 20 * gauss (rng fresh_runtime) (pos (rng fresh_runtime) + i))%Q /\
        noiseA = (30 + 5 * gauss (rng fresh_runtime) (pos (rng fresh_runtime) + 33 + i))%Q /\
        noiseB = (20 + 5 * gauss (rng fresh_runtime) (pos (rng fresh_runtime) + 33 + 33 + i))%Q /\
        net = (gross - noiseA)%Q /\
        co2 = (net - noiseB)%Q.
Proof. exact (build_emission_spec fresh_runtime). Defined.


(** ** Grouping by year *)

Lemma Qcompare_inject_Z (a b : Z) : (inject_Z a ?= inject_Z b)%Q = (a ?= b)%Z.
Proof. unfold Qcompare, inject_Z. simpl. rewrite !Z.mul_1_r. reflexivity. Qed.

Lemma Qeq_bool_inject_Z (a b : Z) : Qeq_bool (inject_Z a) (inject_Z b) = (a =? b)%Z.
Proof.
  destruct (a =? b)%Z eqn:E.
  - apply Z.eqb_eq in E. subst b. apply Qeq_bool_iff. reflexivity.
  - apply Z.eqb_neq in E. destruct (Qeq_bool (inject_Z a) (inject_Z b)) eqn:E'; auto.
    apply Qeq_bool_iff in E'. exfalso. apply E.
    unfold Qeq, inject_Z in E'. simpl in E'. lia.
Qed.

Lemma Qle_bool_inject_Z (a b : Z) : Qle_bool (inject_Z a) (inject_Z b) = (a <=? b)%Z.
Proof.
  destruct (a <=? b)%Z eqn:E.
  - apply Z.leb_le in E. apply Qle_bool_iff. rewrite <- Zle_Qle. exact E.
  - apply Z.leb_gt in E. destruct (Qle_bool (inject_Z a) (inject_Z b)) eqn:E'; auto.
    apply Qle_bool_iff in E'. rewrite <- Zle_Qle in E'. lia.
Qed.

Lemma acc_of_absent (gs : list Group) (ys : list Z) (y : Z) :
  year_keyed gs ys -> ~ In y ys -> acc_of (inject_Z y) gs = (0%Q, O).
Proof.
  unfold year_keyed. revert ys.
  induction gs as [| [k a] gs IH]; intros [| y' ys] H Hn; simpl in *;
    try discriminate; [reflexivity |].
  injection H as -> H. rewrite Qeq_bool_inject_Z.
  destruct (y =? y') eqn:E.
  - apply Z.eqb_eq in E. exfalso. apply Hn. left. congruence.
  - apply (IH ys H). intros Hin. apply Hn. right. exact Hin.
Qed.

(** Adding a row of year [y]: the keys stay years in ascending order, [y]
    joins them, and only the accumulator of [y] moves. *)
Lemma group_add_year (y : Z) (v : cell) (gs : list Group) (ys : list Z) :
  year_keyed gs ys -> StronglySorted Z.lt ys ->
  exists ys',
    year_keyed (group_add (inject_Z y) v gs) ys' /\
    StronglySorted Z.lt ys' /\
    (forall z, In z ys' <-> z = y \/ In z ys) /\
    (forall z, acc_of (inject_Z z) (group_add (inject_Z y) v gs)
               = if z =? y then acc_add v (acc_of (inject_Z z) gs)
                 else acc_of (inject_Z z) gs).
Proof.
  unfold year_keyed. revert ys.
  induction gs as [| [k a] gs IH]; intros [| y' ys] H Hs; simpl in H; try discriminate.
  - exists [y]. simpl. repeat split.
    + repeat constructor.
    + intros [-> | []]. left. reflexivity.
    + intros [-> | []]. left. reflexivity.
    + intros z. rewrite Qeq_bool_inject_Z. destruct (z =? y); reflexivity.
  - injection H as -> H. inversion Hs as [| ? ? Hs' Hall]; subst.
    simpl. rewrite Qcompare_inject_Z. destruct (Z.compare_spec y y') as [E | E | E].
    + subst y'. exists (y :: ys). simpl. repeat split.
      * f_equal. exact H.
      * exact Hs.
      * intros [-> | Hin]; [right; left; reflexivity | right; right; exact Hin].
      * intros [-> | [-> | Hin]]; [left | left | right]; auto.
      * intros z. rewrite Qeq_bool_inject_Z. destruct (z =? y); reflexivity.
    + exists (y :: y' :: ys). simpl. repeat split.
      * do 2 f_equal. exact H.
      * constructor; [exact Hs |]. constructor; [exact E |].
        rewrite Forall_forall in *. intros z Hz. specialize (Hall z Hz). lia.
      * intros [-> | Hin]; [left; reflexivity | right; exact Hin].
      * intros [-> | Hin]; [left; reflexivity | right; exact Hin].
      * intros z. rewrite !Qeq_bool_inject_Z. destruct (z =? y) eqn:Ez; [| reflexivity].
        apply Z.eqb_eq in Ez. subst z.
        replace (y =? y') with false by (symmetry; apply Z.eqb_neq; lia).
        rewrite (acc_of_absent gs ys y H); [reflexivity |].
        intros Hin. rewrite Forall_forall in Hall. specialize (Hall y Hin). lia.
    + destruct (IH ys H Hs') as (ys' & Hk & Hs'' & Hin & Hacc).
      exists (y' :: ys'). simpl. repeat split.
      * f_equal. exact Hk.
      * constructor; [exact Hs'' |]. rewrite Forall_forall in *. intros z Hz.
        apply Hin in Hz. destruct Hz as [-> | Hz]; [lia | apply Hall; exact Hz].
      * intros [-> | Hz]; [right; left; reflexivity |].
        apply Hin in Hz. destruct Hz; [left | right; right]; assumption.
      * intros [-> | [-> | Hz]]; [right; apply Hin; left; reflexivity
                                 | left; reflexivity
                                 | right; apply Hin; right; exact Hz].
      * intros z. rewrite !Qeq_bool_inject_Z. destruct (z =? y') eqn:Ez.
        -- apply Z.eqb_eq in Ez. subst z.
           replace (y' =? y) with false by (symmetry; apply Z.eqb_neq; lia).
           reflexivity.
        -- apply Hacc.
Qed.

(** One pass over the rows of a frame whose keys are calendar years. *)
Lemma group_rows_years (ts : list datetime) :
  forall (vs : Series) (gs gs' : list Group) (ys : list Z),
    year_keyed gs ys -> StronglySorted Z.lt ys ->
    group_rows (map dt_year ts) vs gs = Some gs' ->
    exists ys',
      year_keyed gs' ys' /\
      StronglySorted Z.lt ys' /\
      (forall z, In z ys' <-> In z ys \/ In z (stamp_years ts vs)) /\
      (forall z, acc_of (inject_Z z) gs'
                 = fold_left acc_step (year_values z ts vs) (acc_of (inject_Z z) gs)).
Proof.
  induction ts as [| t ts IH]; intros vs gs gs' ys Hk Hs H.
  - simpl in H. injection H as <-. exists ys. simpl. repeat split; tauto.
  - destruct vs as [| v vs].
    + simpl in H. injection H as <-. exists ys.
      destruct t; simpl; repeat split; tauto.
    + destruct t as [t |]; destruct v as [q | | s]; simpl in H; try discriminate.
      * destruct (group_add_year (year t) (Num q) gs ys Hk Hs)
          as (ys1 & Hk1 & Hs1 & Hin1 & Hacc1).
        destruct (IH vs _ gs' ys1 Hk1 Hs1 H) as (ys' & Hk' & Hs' & Hin' & Hacc').
        exists ys'. repeat split; try assumption.
        -- intros Hz. apply Hin' in Hz. destruct Hz as [Hz | Hz].
           ++ apply Hin1 in Hz. simpl. destruct Hz; [right; left; auto | left; auto].
           ++ simpl. auto.
        -- intros Hz. apply Hin'. simpl in Hz. rewrite Hin1.
           destruct Hz as [Hz | [Hz | Hz]]; auto.
        -- intros z. rewrite Hacc', Hacc1. simpl. rewrite (Z.eqb_sym (year t) z).
           destruct (z =? year t); reflexivity.
      * destruct (group_add_year (year t) NaN gs ys Hk Hs)
          as (ys1 & Hk1 & Hs1 & Hin1 & Hacc1).
        destruct (IH vs _ gs' ys1 Hk1 Hs1 H) as (ys' & Hk' & Hs' & Hin' & Hacc').
        exists ys'. repeat split; try assumption.
        -- intros Hz. apply Hin' in Hz. destruct Hz as [Hz | Hz].
           ++ apply Hin1 in Hz. simpl. destruct Hz; [right; left; auto | left; auto].
           ++ simpl. auto.
        -- intros Hz. apply Hin'. simpl in Hz. rewrite Hin1.
           destruct Hz as [Hz | [Hz | Hz]]; auto.
        -- intros z. rewrite Hacc', Hacc1. simpl.
           destruct (z =? year t); reflexivity.
      * destruct (IH vs gs gs' ys Hk Hs H) as (ys' & Hk' & Hs' & Hin' & Hacc').
        exists ys'. simpl. repeat split; assumption || apply Hin'.
      * destruct (IH vs gs gs' ys Hk Hs H) as (ys' & Hk' & Hs' & Hin' & Hacc').
        exists ys'. simpl. repeat split; assumption || apply Hin'.
      * destruct (IH vs gs gs' ys Hk Hs H) as (ys' & Hk' & Hs' & Hin' & Hacc').
        exists ys'. simpl. repeat split; assumption || apply Hin'.
Qed.

(** With distinct year keys, a group list is read back by lookup. *)
Lemma year_keyed_lookup (gs : list Group) :
  forall ys, year_keyed gs ys -> StronglySorted Z.lt ys ->
             gs = map (fun y => (inject_Z y, acc_of (inject_Z y) gs)) ys.
Proof.
  unfold year_keyed.
  induction gs as [| [k a] gs IH]; intros [| y ys] H Hs; simpl in H; try discriminate.
  - reflexivity.
  - injection H as -> H. inversion Hs as [| ? ? Hs' Hall]; subst.
    simpl. rewrite Qeq_bool_inject_Z, Z.eqb_refl. f_equal.
    rewrite (IH ys H Hs') at 1. apply map_ext_in. intros z Hz.
    rewrite Qeq_bool_inject_Z.
    replace (z =? y) with false; [reflexivity |].
    symmetry. apply Z.eqb_neq. rewrite Forall_forall in Hall. specialize (Hall z Hz). lia.
Qed.

Lemma fold_acc_step (l : list Q) :
  forall a, snd (fold_left acc_step l a) = (snd a + List.length l)%nat /\
            (fst (fold_left acc_step l a) == fst a + Qsum l)%Q.
Proof.
  induction l as [| q l IH]; intros a; simpl.
  - split; [lia | ring].
  - destruct (IH (acc_step a q)) as [H1 H2]. rewrite H1, H2. simpl.
    split; [lia | ring].
Qed.

(** The mean of a group is the arithmetic mean of the values it saw. *)
Lemma group_mean_fold (l : list Q) :
  group_mean (fold_left acc_step l (0%Q, O)) = mean_cell l.
Proof.
  destruct (fold_acc_step l (0%Q, O)) as [H1 H2]. simpl in H1, H2.
  unfold group_mean, mean_cell. rewrite H1.
  destruct l as [| q l]; [reflexivity |].
  cbn [List.length]. f_equal. apply Qred_complete.
  rewrite H2, Qplus_0_l. reflexivity.
Qed.

(** ** Column assignment *)

Lemma nth_set_nth_same (i : nat) (x : cell) (r : list cell) :
  nth i (set_nth i x r) NaN = x.
Proof.
  revert r. induction i as [| i IH]; intros [| c r]; simpl; auto.
Qed.

Lemma nth_set_nth_other (i j : nat) (x : cell) (r : list cell) :
  i <> j -> nth j (set_nth i x r) NaN = nth j r NaN.
Proof.
  revert j r. induction i as [| i IH]; intros [| j] [| c r] H; simpl;
    try reflexivity; try contradiction.
  - destruct j; reflexivity.
  - rewrite IH by congruence. destruct j; reflexivity.
  - apply IH. congruence.
Qed.

Lemma col_index_label (c : string) (ls : list string) (i : nat) :
  col_index c ls = Some i -> nth_error ls i = Some c.
Proof.
  revert i. induction ls as [| l ls IH]; intros i H; simpl in H; [discriminate |].
  destruct (String.eqb c l) eqn:E.
  - injection H as <-. apply String.eqb_eq in E. subst. reflexivity.
  - destruct (col_index c ls) as [j |]; [| discriminate].
    injection H as <-. simpl. apply IH. reflexivity.
Qed.

Lemma map_zip_with_set_same (i : nat) (rs : list (list cell)) (v : Series) :
  List.length v = List.length rs ->
  map (fun r => nth i r NaN) (zip_with (fun r x => set_nth i x r) rs v) = v.
Proof.
  revert v. induction rs as [| r rs IH]; intros [| x v] H; simpl in *;
    try discriminate; [reflexivity |].
  rewrite nth_set_nth_same. f_equal. apply IH. congruence.
Qed.

Lemma map_zip_with_set_other (i j : nat) (rs : list (list cell)) (v : Series) :
  i <> j -> List.length v = List.length rs ->
  map (fun r => nth j r NaN) (zip_with (fun r x => set_nth i x r) rs v)
  = map (fun r => nth j r NaN) rs.
Proof.
  intros Hij. revert v. induction rs as [| r rs IH]; intros [| x v] H; simpl in *;
    try discriminate; [reflexivity |].
  rewrite nth_set_nth_other by exact Hij. f_equal. apply IH. congruence.
Qed.

Lemma getcol_setcol_same (c : string) (v : Series) (df : DataFrame) (i : nat) :
  col_index c (columns df) = Some i ->
  List.length v = List.length (rows df) ->
  getcol c (setcol c v df) = Some v.
Proof.
  intros Hi Hl. unfold getcol, setcol. rewrite Hi. cbn [columns rows]. rewrite Hi.
  cbn [obind]. apply f_equal. apply map_zip_with_set_same. exact Hl.
Qed.

Lemma getcol_setcol_other (c c' : string) (v : Series) (df : DataFrame) (i : nat) :
  col_index c (columns df) = Some i ->
  List.length v = List.length (rows df) ->
  c' <> c ->
  getcol c' (setcol c v df) = getcol c' df.
Proof.
  intros Hi Hl Hne. unfold getcol, setcol. rewrite Hi. cbn [columns rows].
  destruct (col_index c' (columns df)) as [j |] eqn:Hj; [| reflexivity].
  cbn [obind]. apply f_equal. apply map_zip_with_set_other; [| exact Hl].
  intros ->. apply col_index_label in Hi, Hj. congruence.
Qed.

Lemma getcol_length (c : string) (df : DataFrame) (d : Series) :
  getcol c df = Some d -> List.length d = List.length (rows df).
Proof.
  unfold getcol. destruct (col_index c (columns df)); [| discriminate].
  cbn [obind]. intros H. injection H as <-. apply length_map.
Qed.

Lemma StronglySorted_filter {A : Type} (R : A -> A -> Prop) (f : A -> bool) (l : list A) :
  StronglySorted R l -> StronglySorted R (filter f l).
Proof.
  induction 1 as [| a l Hs IH Hall]; simpl; [constructor |].
  destruct (f a); [| exact IH].
  constructor; [exact IH |].
  rewrite Forall_forall in *. intros x Hx. apply filter_In in Hx. apply Hall, Hx.
Qed.

Lemma getcol_date_first (rs : list (list cell)) :
  getcol "date" (mkFrame ["date"; "value"] rs) = Some (map (fun r => nth 0 r NaN) rs).
Proof. reflexivity. Qed.

Lemma series_le_years (ys : list Z) (now : Z) :
  series_le (map (fun y => Num (inject_Z y)) ys) now = Some (map (fun y => y <=? now) ys).
Proof.
  unfold series_le. induction ys as [| y ys IH]; simpl; [reflexivity |].
  rewrite IH. simpl. rewrite Qle_bool_inject_Z. reflexivity.
Qed.

Lemma select_rows_maps {A B : Type} (f : A -> B) (g : A -> bool) (l : list A) :
  select_rows (map f l) (map g l) = map f (filter g l).
Proof.
  induction l as [| a l IH]; simpl; [reflexivity |].
  destruct (g a); simpl; congruence.
Qed.

(** ** The sea-level loader: the path without exception *)

Section SeaLevelProofs.

Variable to_datetime : Series -> option (list datetime).

(** Parsing a column yields one entry per cell. *)
Hypothesis to_datetime_length :
  forall d ts, to_datetime d = Some ts -> List.length ts = List.length d.

(** The table returned by the [try] block: one row per calendar year
    that occurs among the remote rows and is not in the future, in
    ascending order, holding the mean of that year's values. *)
Lemma sea_try_rows (w : World) (df out : DataFrame) :
  read_csv w sea_url 0 = Some df ->
  sea_try to_datetime w = Some out ->
  exists d ts vs ys,
    getcol "date" (rename [("Time", "date"); ("GMSL", "value")] df) = Some d /\
    to_datetime d = Some ts /\
    getcol "value" (rename [("Time", "date"); ("GMSL", "value")] df) = Some vs /\
    StronglySorted Z.lt ys /\
    (forall y, In y ys <-> In y (stamp_years ts vs) /\ y <= now_year w) /\
    out = mkFrame ["date"; "value"]
                  (map (fun y => [Num (inject_Z y); mean_cell (year_values y ts vs)]) ys).
Proof.
  intros Hread H. unfold sea_try in H. rewrite Hread in H. cbn [obind] in H.
  set (df' := rename [("Time", "date"); ("GMSL", "value")] df) in *.
  destruct (getcol "date" df') as [d |] eqn:Ed; [| discriminate]. cbn [obind] in H.
  destruct (to_datetime d) as [ts |] eqn:Et; [| discriminate]. cbn [obind] in H.
  assert (Hl : List.length (map dt_year ts) = List.length (rows df')).
  { rewrite length_map, (to_datetime_length d ts Et). apply (getcol_length _ _ _ Ed). }
  assert (Hi : exists i, col_index "date" (columns df') = Some i).
  { unfold getcol in Ed. destruct (col_index "date" (columns df')) as [i |];
      [exists i; reflexivity | discriminate]. }
  destruct Hi as [i Hi].
  unfold groupby_mean in H.
  rewrite (getcol_setcol_same "date" _ df' i Hi Hl) in H. cbn [obind] in H.
  rewrite (getcol_setcol_other "date" "value" _ df' i Hi Hl) in H by discriminate.
  destruct (getcol "value" df') as [vs |] eqn:Ev; [| discriminate]. cbn [obind] in H.
  destruct (group_rows (map dt_year ts) vs []) as [gs |] eqn:Eg; [| discriminate].
  cbn [obind] in H.
  destruct (group_rows_years ts vs [] gs [] eq_refl (SSorted_nil _) Eg)
    as (ys' & Hk & Hs & Hin & Hacc).
  assert (Hrows : map (fun g : Group => [Num (fst g); group_mean (snd g)]) gs
                  = map (fun y => [Num (inject_Z y); mean_cell (year_values y ts vs)]) ys').
  { rewrite (year_keyed_lookup gs ys' Hk Hs) at 1. rewrite map_map.
    apply map_ext. intros y. cbn [fst snd]. rewrite Hacc. cbn [acc_of].
    rewrite group_mean_fold. reflexivity. }
  unfold Group in Hrows. rewrite Hrows in H.
  rewrite getcol_date_first, map_map in H. cbn [obind nth] in H.
  rewrite series_le_years in H. cbn [obind] in H.
  injection H as <-. unfold loc_mask. cbn [columns rows].
  rewrite select_rows_maps.
  exists d, ts, vs, (filter (fun y => y <=? now_year w) ys').
  do 3 (split; [reflexivity || assumption |]).
  split; [apply StronglySorted_filter; exact Hs |].
  split; [| reflexivity].
  intros y. rewrite filter_In, Z.leb_le, Hin. simpl. tauto.
Qed.

Lemma col_index_time_renamed (ls : list string) :
  ~ In "date" ls ->
  col_index "date" (map (lookup_label [("Time", "date"); ("GMSL", "value")]) ls)
  = col_index "Time" ls.
Proof.
  intros Hn. apply col_index_map. intros l Hl. simpl.
  destruct (String.eqb l "Time") eqn:E1.
  - apply String.eqb_eq in E1. tauto.
  - apply String.eqb_neq in E1. destruct (String.eqb l "GMSL") eqn:E2.
    + apply String.eqb_eq in E2. subst l. split; discriminate.
    + split; intros ->; [exfalso; auto | contradiction].
Qed.

Lemma col_index_gmsl_renamed (ls : list string) :
  ~ In "value" ls ->
  col_index "value" (map (lookup_label [("Time", "date"); ("GMSL", "value")]) ls)
  = col_index "GMSL" ls.
Proof.
  intros Hn. apply col_index_map. intros l Hl. simpl.
  destruct (String.eqb l "Time") eqn:E1.
  - apply String.eqb_eq in E1. subst l. split; discriminate.
  - destruct (String.eqb l "GMSL") eqn:E2.
    + apply String.eqb_eq in E2. tauto.
    + apply String.eqb_neq in E2. split; intros ->; [exfalso; auto | contradiction].
Qed.

Lemma StronglySorted_lt_NoDup (ys : list Z) : StronglySorted Z.lt ys -> NoDup ys.
Proof.
  induction 1 as [| y ys Hs IH Hall]; constructor; [| exact IH].
  intros Hin. rewrite Forall_forall in Hall. specialize (Hall y Hin). lia.
Qed.

(** C3.  Let the remote file parse to [df], a frame without columns
    already called [date] or [value].  Whenever the [try] block returns a
    table, [df] has a [Time] column that parses to timestamps and a [GMSL]
    column, and the table is: one row per calendar year in which a remote
    row falls and which is not after the current year, in ascending order,
    holding that year and the arithmetic mean of the values of that year's
    rows.  On the rows [(2000-01, 5), (2000-06, 7), (2001-01, 9)] the
    result is [(2000, 6), (2001, 9)]. *)
Theorem load_sea_level_yearly_mean :
  (forall (w : World) (df out : DataFrame),
      read_csv w sea_url 0 = Some df ->
      ~ In "date" (columns df) ->
      ~ In "value" (columns df) ->
      sea_try to_datetime w = Some out ->
      exists time gmsl ts ys,
        getcol "Time" df = Some time /\
        getcol "GMSL" df = Some gmsl /\
        to_datetime time = Some ts /\
        StronglySorted Z.lt ys /\
        (forall y, In y ys <-> In y (stamp_years ts gmsl) /\ y <= now_year w) /\
        out = mkFrame ["date"; "value"]
                (map (fun y => [Num (inject_Z y); mean_cell (year_values y ts gmsl)]) ys) /\
        forall s, load_sea_level_body to_datetime w s = (out, log_fetch sea_url s)) /\
  sea_try iso_to_datetime sample_sea_world
  = Some (mkFrame ["date"; "value"] [[Num 2000; Num 6]; [Num 2001; Num 9]]).
Proof.
  split; [| reflexivity].
  intros w df out Hread Hd Hv Htry.
  destruct (sea_try_rows w df out Hread Htry)
    as (d & ts & vs & ys & Ed & Et & Ev & Hs & Hin & Hout).
  exists d, vs, ts, ys.
  unfold getcol, rename in Ed, Ev. cbn [columns rows] in Ed, Ev.
  rewrite (col_index_time_renamed _ Hd) in Ed.
  rewrite (col_index_gmsl_renamed _ Hv) in Ev.
  repeat (split; [assumption |]).
  intros s. unfold load_sea_level_body. rewrite Htry. reflexivity.
Qed.

(** C10.  Whenever the [try] block of the sea-level loader returns a
    table, whatever the remote rows and their order, the dates of that
    table are calendar years in strictly ascending order, hence pairwise
    different. *)
Theorem load_sea_level_sorted (w : World) (out : DataFrame) :
  sea_try to_datetime w = Some out ->
  exists ys,
    map (date_of out) (rows out) = map (fun y => Num (inject_Z y)) ys /\
    StronglySorted Z.lt ys /\
    NoDup ys /\
    forall s, fst (load_sea_level_body to_datetime w s) = out.
Proof.
  intros Htry.
  assert (Hbody : forall s, fst (load_sea_level_body to_datetime w s) = out).
  { intros s. unfold load_sea_level_body. rewrite Htry. reflexivity. }
  destruct (read_csv w sea_url 0) as [df |] eqn:Hread.
  - destruct (sea_try_rows w df out Hread Htry)
      as (d & ts & vs & ys & _ & _ & _ & Hs & _ & Hout).
    exists ys. subst out. split; [| split; [exact Hs | split]].
    + cbn [rows]. rewrite map_map. apply map_ext. intros y. reflexivity.
    + apply StronglySorted_lt_NoDup. exact Hs.
    + exact Hbody.
  - unfold sea_try in Htry. rewrite Hread in Htry. discriminate Htry.
Qed.

End SeaLevelProofs.

Lemma iso_to_datetime_length (d : Series) (ts : list datetime) :
  iso_to_datetime d = Some ts -> List.length ts = List.length d.
Proof. apply mapM_length. Qed.

Lemma load_sea_level_yearly_mean_witness :
  exists time gmsl ts ys,
    getcol "Time" sample_gmsl = Some time /\
    getcol "GMSL" sample_gmsl = Some gmsl /\
    iso_to_datetime time = Some ts /\
    StronglySorted Z.lt ys /\
    (forall y, In y ys <-> In y (stamp_years ts gmsl) /\ y <= now_year sample_sea_world) /\
    mkFrame ["date"; "value"] [[Num 2000; Num 6]; [Num 2001; Num 9]]
    = mkFrame ["date"; "value"]
              (map (fun y => [Num (inject_Z y); mean_cell (year_values y ts gmsl)]) ys) /\
    forall s, load_sea_level_body iso_to_datetime sample_sea_world s
              = (mkFrame ["date"; "value"] [[Num 2000; Num 6]; [Num 2001; Num 9]],
                 log_fetch sea_url s).
Proof.
  apply (proj1 (load_sea_level_yearly_mean iso_to_datetime iso_to_datetime_length)
               sample_sea_world sample_gmsl).
  - reflexivity.
  - simpl. intros [H | [H | []]]; discriminate H.
  - simpl. intros [H | [H | []]]; discriminate H.
  - reflexivity.
Defined.

Lemma load_sea_level_sorted_witness :
  exists ys,
    map (date_of (mkFrame ["date"; "value"] [[Num 2000; Num 6]; [Num 2001; Num 9]]))
        (rows (mkFrame ["date"; "value"] [[Num 2000; Num 6]; [Num 2001; Num 9]]))
    = map (fun y => Num (inject_Z y)) ys /\
    StronglySorted Z.lt ys /\
    NoDup ys /\
    forall s, fst (load_sea_level_body iso_to_datetime sample_sea_world s)
              = mkFrame ["date"; "value"] [[Num 2000; Num 6]; [Num 2001; Num 9]].
Proof.
  apply (load_sea_level_sorted iso_to_datetime iso_to_datetime_length sample_sea_world).
  reflexivity.
Defined.

(** ** The tables handed to the filter

    No failure leaves a loader: whatever the world answers, the three
    tables of a run have a text-free [date] column, so the filtering
    statements do not raise. *)

Lemma forallb_select_rows {A : Type} (p : A -> bool) (l : list A) (m : list bool) :
  forallb p l = true -> forallb p (select_rows l m) = true.
Proof.
  revert m. induction l as [| a l IH]; intros [| b m] H; simpl in *; try reflexivity.
  apply andb_true_iff in H. destruct H as [Ha Hl].
  destruct b; simpl; [rewrite Ha |]; apply IH; exact Hl.
Qed.

Lemma loc_mask_le_has_dates (F : DataFrame) (d : Series) (m : list bool) (y : Z) :
  getcol "date" F = Some d -> series_le d y = Some m ->
  has_dates (loc_mask F m) = true.
Proof.
  unfold getcol, has_dates, loc_mask. cbn [columns rows].
  destruct (col_index "date" (columns F)) as [i |]; [| discriminate].
  cbn [obind]. intros Hd Hm. injection Hd as <-.
  apply series_le_inv in Hm. destruct Hm as [Hs _].
  apply forallb_select_rows. rewrite forallb_forall in *. intros r Hr.
  apply Hs. apply in_map_iff. exists r. auto.
Qed.

Lemma temp_try_has_dates (w : World) (out : DataFrame) :
  temp_try w = Some out -> has_dates out = true.
Proof.
  unfold temp_try. destruct (read_csv w temp_url 1) as [df |]; [| discriminate].
  cbn [obind]. destruct (select _ _) as [f |]; [| discriminate]. cbn [obind].
  destruct (getcol "date" _) as [d |] eqn:Ed; [| discriminate]. cbn [obind].
  destruct (series_le d (now_year w)) as [m |] eqn:Em; [| discriminate]. cbn [obind].
  intros H. injection H as <-. apply (loc_mask_le_has_dates _ d m _ Ed Em).
Qed.

Lemma sea_try_has_dates td (w : World) (out : DataFrame) :
  sea_try td w = Some out -> has_dates out = true.
Proof.
  unfold sea_try. destruct (read_csv w sea_url 0) as [df |]; [| discriminate].
  cbn [obind]. destruct (getcol "date" _) as [d0 |]; [| discriminate]. cbn [obind].
  destruct (td d0) as [ts |]; [| discriminate]. cbn [obind].
  destruct (groupby_mean _ _ _) as [g |]; [| discriminate]. cbn [obind].
  destruct (getcol "date" g) as [d |] eqn:Ed; [| discriminate]. cbn [obind].
  destruct (series_le d (now_year w)) as [m |] eqn:Em; [| discriminate]. cbn [obind].
  intros H. injection H as <-. apply (loc_mask_le_has_dates _ d m _ Ed Em).
Qed.

Lemma load_global_temp_body_has_dates (w : World) (s : Runtime) :
  has_dates (fst (load_global_temp_body w s)) = true.
Proof.
  unfold load_global_temp_body. destruct (temp_try w) as [out |] eqn:E.
  - apply (temp_try_has_dates w out E).
  - reflexivity.
Qed.

Lemma load_sea_level_body_has_dates td (w : World) (s : Runtime) :
  has_dates (fst (load_sea_level_body td w s)) = true.
Proof.
  unfold load_sea_level_body. destruct (sea_try td w) as [out |] eqn:E.
  - apply (sea_try_has_dates td w out E).
  - reflexivity.
Qed.

Lemma build_emission_has_dates (s : Runtime) :
  has_dates (fst (build_emission s)) = true.
Proof. reflexivity. Qed.

Lemma cache_data_ok (key : string) (body : World -> Runtime -> DataFrame * Runtime)
    (w : World) (s : Runtime) :
  (forall w0 s0, has_dates (fst (body w0 s0)) = true) ->
  (forall w0 s0, cache (snd (body w0 s0)) = cache s0) ->
  cache_ok s ->
  has_dates (fst (cache_data key body w s)) = true /\
  cache_ok (snd (cache_data key body w s)).
Proof.
  intros Hd Hc Hok. unfold cache_data. destruct (cache s key) as [e |] eqn:E.
  - split; [apply (Hok key e E) | exact Hok].
  - specialize (Hd w (set_warnings [] s)). specialize (Hc w (set_warnings [] s)).
    destruct (body w (set_warnings [] s)) as [v s']. simpl in *.
    split; [exact Hd |]. intros k e. unfold cache_ok in Hok. simpl.
    destruct (String.eqb k key).
    + intros H. injection H as <-. exact Hd.
    + rewrite Hc. apply Hok.
Qed.

(** ** The bounds of the slider *)

Lemma year_cell_num (q : Q) : is_year_cell (Num q) = true -> q = inject_Z (Qnum q).
Proof.
  destruct q as [n d]. unfold is_year_cell. cbn [Qden Qnum]. intros H.
  apply Pos.eqb_eq in H. subst d. reflexivity.
Qed.

Lemma zmin_spec (l : list Z) (m : Z) :
  zmin l = Some m -> In m l /\ forall y, In y l -> m <= y.
Proof.
  revert m. induction l as [| x l IH]; intros m H; simpl in H; [discriminate |].
  destruct (zmin l) as [m' |] eqn:E.
  - injection H as <-. destruct (IH m' eq_refl) as [Hin Hle]. split.
    + destruct (Z.min_spec x m') as [[_ ->] | [_ ->]]; [left | right]; auto.
    + intros y [<- | Hy]; [lia | specialize (Hle y Hy); lia].
  - injection H as <-. destruct l; [| simpl in E; destruct (zmin l); discriminate].
    split; [left; reflexivity |]. intros y [<- | []]. lia.
Qed.

Lemma zmax_spec (l : list Z) (m : Z) :
  zmax l = Some m -> In m l /\ forall y, In y l -> y <= m.
Proof.
  revert m. induction l as [| x l IH]; intros m H; simpl in H; [discriminate |].
  destruct (zmax l) as [m' |] eqn:E.
  - injection H as <-. destruct (IH m' eq_refl) as [Hin Hle]. split.
    + destruct (Z.max_spec x m') as [[_ ->] | [_ ->]]; [right | left]; auto.
    + intros y [<- | Hy]; [lia | specialize (Hle y Hy); lia].
  - injection H as <-. destruct l; [| simpl in E; destruct (zmax l); discriminate].
    split; [left; reflexivity |]. intros y [<- | []]. lia.
Qed.

Lemma zmin_none (l : list Z) : zmin l = None -> l = [].
Proof. destruct l; [reflexivity |]. simpl. destruct (zmin l); discriminate. Qed.

Lemma zmax_none (l : list Z) : zmax l = None -> l = [].
Proof. destruct l; [reflexivity |]. simpl. destruct (zmax l); discriminate. Qed.

Lemma Qle_bool_min (a b : Z) :
  (if Qle_bool (inject_Z a) (inject_Z b) then inject_Z a else inject_Z b)
  = inject_Z (Z.min a b).
Proof.
  rewrite Qle_bool_inject_Z. destruct (a <=? b) eqn:E.
  - apply Z.leb_le in E. rewrite Z.min_l by exact E. reflexivity.
  - apply Z.leb_gt in E. rewrite Z.min_r by lia. reflexivity.
Qed.

Lemma Qle_bool_max (a b : Z) :
  (if Qle_bool (inject_Z b) (inject_Z a) then inject_Z a else inject_Z b)
  = inject_Z (Z.max a b).
Proof.
  rewrite Qle_bool_inject_Z. destruct (b <=? a) eqn:E.
  - apply Z.leb_le in E. rewrite Z.max_l by exact E. reflexivity.
  - apply Z.leb_gt in E. rewrite Z.max_r by lia. reflexivity.
Qed.

(** On a column of years, [min()] and [max()] are the least and the
    greatest year, [NaN] when there is none. *)
Lemma series_min_years (d : Series) :
  forallb is_year_cell d = true -> series_min d = Some (opt_cell (zmin (years_in d))).
Proof.
  induction d as [| c d IH]; intros H; simpl in *; [reflexivity |].
  apply andb_true_iff in H. destruct H as [Hc Hd]. rewrite (IH Hd). cbn [obind].
  destruct c as [q | | s]; [| reflexivity | discriminate].
  rewrite (year_cell_num q Hc). cbn [Qnum inject_Z app zmin].
  destruct (zmin (years_in d)) as [m |]; cbn [opt_cell]; [| reflexivity].
  do 2 f_equal. apply Qle_bool_min.
Qed.

Lemma series_max_years (d : Series) :
  forallb is_year_cell d = true -> series_max d = Some (opt_cell (zmax (years_in d))).
Proof.
  induction d as [| c d IH]; intros H; simpl in *; [reflexivity |].
  apply andb_true_iff in H. destruct H as [Hc Hd]. rewrite (IH Hd). cbn [obind].
  destruct c as [q | | s]; [| reflexivity | discriminate].
  rewrite (year_cell_num q Hc). cbn [Qnum inject_Z app zmax].
  destruct (zmax (years_in d)) as [m |]; cbn [opt_cell]; [| reflexivity].
  do 2 f_equal. apply Qle_bool_max.
Qed.

Lemma year_dated_col (T : DataFrame) :
  year_dated T = true ->
  exists d, getcol "date" T = Some d /\ forallb is_year_cell d = true.
Proof.
  unfold year_dated, getcol.
  destruct (col_index "date" (columns T)) as [i |]; [| discriminate].
  intros H. eexists. split; [reflexivity |]. rewrite forallb_forall in *.
  intros c Hc. apply in_map_iff in Hc. destruct Hc as [r [<- Hr]]. apply H, Hr.
Qed.

Lemma has_number_years (T : DataFrame) (d : Series) :
  getcol "date" T = Some d -> has_number T = true -> years_in d <> [].
Proof.
  unfold getcol, has_number.
  destruct (col_index "date" (columns T)) as [i |]; [| discriminate].
  cbn [obind]. intros H He. injection H as <-.
  apply existsb_exists in He. destruct He as [r [Hr Hn]].
  intros E. unfold years_in in E. rewrite flat_map_concat_map, map_map in E.
  assert (Hz : In (match nth i r NaN with
                   | Num q => [Qnum q]
                   | _ => []
                   end)
                  (map (fun x => match nth i x NaN with
                                 | Num q => [Qnum q]
                                 | _ => []
                                 end) (rows T))).
  { apply in_map_iff. exists r. split; [reflexivity | exact Hr]. }
  destruct (nth i r NaN) as [q | |]; try discriminate Hn.
  assert (Hq : In (Qnum q) (List.concat (map (fun x => match nth i x NaN with
                                                  | Num q => [Qnum q]
                                                  | _ => []
                                                  end) (rows T)))).
  { apply in_concat. eexists. split; [exact Hz | left; reflexivity]. }
  rewrite E in Hq. contradiction.
Qed.

Lemma py_lt_years (a b : Z) : py_lt (Num (inject_Z a)) (Num (inject_Z b)) = (a <? b).
Proof.
  unfold py_lt. rewrite Qle_bool_inject_Z. rewrite Z.ltb_antisym. reflexivity.
Qed.

Lemma py_min_step (m : Z) (o : option Z) :
  (if py_lt (opt_cell o) (Num (inject_Z m)) then opt_cell o else Num (inject_Z m))
  = Num (inject_Z (match o with
                   | Some b => Z.min m b
                   | None => m
                   end)).
Proof.
  destruct o as [b |]; cbn [opt_cell]; [| reflexivity].
  rewrite py_lt_years. destruct (b <? m) eqn:E.
  - apply Z.ltb_lt in E. rewrite Z.min_r by lia. reflexivity.
  - apply Z.ltb_ge in E. rewrite Z.min_l by lia. reflexivity.
Qed.

Lemma py_max_step (m : Z) (o : option Z) :
  (if py_lt (Num (inject_Z m)) (opt_cell o) then opt_cell o else Num (inject_Z m))
  = Num (inject_Z (match o with
                   | Some b => Z.max m b
                   | None => m
                   end)).
Proof.
  destruct o as [b |]; cbn [opt_cell]; [| reflexivity].
  rewrite py_lt_years. destruct (m <? b) eqn:E.
  - apply Z.ltb_lt in E. rewrite Z.max_r by lia. reflexivity.
  - apply Z.ltb_ge in E. rewrite Z.max_l by lia. reflexivity.
Qed.

(** The builtin [min] on the three column minima, the first being a year. *)
Lemma py_min_years (a : Z) (ob oc : option Z) :
  exists m,
    py_min (Num (inject_Z a)) [opt_cell ob; opt_cell oc] = Num (inject_Z m) /\
    (m = a \/ ob = Some m \/ oc = Some m) /\
    m <= a /\ (forall b, ob = Some b -> m <= b) /\ (forall c, oc = Some c -> m <= c).
Proof.
  unfold py_min. cbn [fold_left]. rewrite py_min_step, py_min_step.
  eexists. split; [reflexivity |].
  destruct ob as [b |], oc as [c |]; repeat split;
    try (intros ? [= <-]); try discriminate; try lia.
  - destruct (Z.min_spec (Z.min a b) c) as [[_ ->] | [_ ->]];
      [destruct (Z.min_spec a b) as [[_ ->] | [_ ->]] |]; auto.
  - destruct (Z.min_spec a b) as [[_ ->] | [_ ->]]; auto.
  - destruct (Z.min_spec a c) as [[_ ->] | [_ ->]]; auto.
Qed.

Lemma py_max_years (a : Z) (ob oc : option Z) :
  exists m,
    py_max (Num (inject_Z a)) [opt_cell ob; opt_cell oc] = Num (inject_Z m) /\
    (m = a \/ ob = Some m \/ oc = Some m) /\
    a <= m /\ (forall b, ob = Some b -> b <= m) /\ (forall c, oc = Some c -> c <= m).
Proof.
  unfold py_max. cbn [fold_left]. rewrite py_max_step, py_max_step.
  eexists. split; [reflexivity |].
  destruct ob as [b |], oc as [c |]; repeat split;
    try (intros ? [= <-]); try discriminate; try lia.
  - destruct (Z.max_spec (Z.max a b) c) as [[_ ->] | [_ ->]];
      [| destruct (Z.max_spec a b) as [[_ ->] | [_ ->]]]; auto.
  - destruct (Z.max_spec a b) as [[_ ->] | [_ ->]]; auto.
  - destruct (Z.max_spec a c) as [[_ ->] | [_ ->]]; auto.
Qed.

Lemma py_int_year (m : Z) : py_int (Num (inject_Z m)) = Some m.
Proof. simpl. rewrite Z.quot_1_r. reflexivity. Qed.

Lemma table_years_col (T : DataFrame) (d : Series) :
  getcol "date" T = Some d -> table_years T = years_in d.
Proof. intros H. unfold table_years. rewrite H. reflexivity. Qed.

(** The bounds of three tables of years. *)
Lemma year_bounds_cover (t l e : DataFrame) :
  year_dated t = true -> year_dated l = true -> year_dated e = true ->
  has_number t = true ->
  exists lo hi,
    year_min t l e = Some lo /\ year_max t l e = Some hi /\
    In lo (table_years t ++ table_years l ++ table_years e) /\
    In hi (table_years t ++ table_years l ++ table_years e) /\
    forall y, In y (table_years t ++ table_years l ++ table_years e) -> lo <= y <= hi.
Proof.
  intros Ht Hl He Hn.
  destruct (year_dated_col t Ht) as [dt [Gt Yt]].
  destruct (year_dated_col l Hl) as [dl [Gl Yl]].
  destruct (year_dated_col e He) as [de [Ge Ye]].
  pose proof (has_number_years t dt Gt Hn) as Hne.
  rewrite (table_years_col t dt Gt), (table_years_col l dl Gl), (table_years_col e de Ge).
  unfold year_min, year_max. rewrite Gt, Gl, Ge. cbn [obind].
  rewrite (series_min_years dt Yt), (series_min_years dl Yl), (series_min_years de Ye).
  rewrite (series_max_years dt Yt), (series_max_years dl Yl), (series_max_years de Ye).
  cbn [obind].
  destruct (zmin (years_in dt)) as [a |] eqn:Ea;
    [| apply zmin_none in Ea; contradiction].
  destruct (zmax (years_in dt)) as [a' |] eqn:Ea';
    [| apply zmax_none in Ea'; contradiction].
  cbn [opt_cell].
  destruct (py_min_years a (zmin (years_in dl)) (zmin (years_in de)))
    as (lo & -> & Hlo & Hlo1 & Hlo2 & Hlo3).
  destruct (py_max_years a' (zmax (years_in dl)) (zmax (years_in de)))
    as (hi & -> & Hhi & Hhi1 & Hhi2 & Hhi3).
  exists lo, hi. rewrite !py_int_year.
  destruct (zmin_spec _ _ Ea) as [Ina La]. destruct (zmax_spec _ _ Ea') as [Ina' La'].
  split; [reflexivity |]. split; [reflexivity |]. split; [| split].
  - rewrite !in_app_iff. destruct Hlo as [-> | [Hb | Hc]].
    + left. exact Ina.
    + right. left. apply (zmin_spec _ _ Hb).
    + right. right. apply (zmin_spec _ _ Hc).
  - rewrite !in_app_iff. destruct Hhi as [-> | [Hb | Hc]].
    + left. exact Ina'.
    + right. left. apply (zmax_spec _ _ Hb).
    + right. right. apply (zmax_spec _ _ Hc).
  - intros y Hy. rewrite !in_app_iff in Hy. destruct Hy as [Hy | [Hy | Hy]].
    + specialize (La y Hy). specialize (La' y Hy). lia.
    + destruct (zmin (years_in dl)) as [b |] eqn:Eb;
        [| apply zmin_none in Eb; rewrite Eb in Hy; contradiction].
      destruct (zmax (years_in dl)) as [b' |] eqn:Eb';
        [| apply zmax_none in Eb'; rewrite Eb' in Hy; contradiction].
      pose proof (proj2 (zmin_spec _ _ Eb) y Hy).
      pose proof (proj2 (zmax_spec _ _ Eb') y Hy).
      specialize (Hlo2 b eq_refl). specialize (Hhi2 b' eq_refl). lia.
    + destruct (zmin (years_in de)) as [c |] eqn:Ec;
        [| apply zmin_none in Ec; rewrite Ec in Hy; contradiction].
      destruct (zmax (years_in de)) as [c' |] eqn:Ec';
        [| apply zmax_none in Ec'; rewrite Ec' in Hy; contradiction].
      pose proof (proj2 (zmin_spec _ _ Ec) y Hy).
      pose proof (proj2 (zmax_spec _ _ Ec') y Hy).
      specialize (Hlo3 c eq_refl). specialize (Hhi3 c' eq_refl). lia.
Qed.

(** X6.  Lines 94-95 on three tables whose dates are integer years, the
    temperature table holding at least one: both bounds are computed,
    each is a date of one of the tables, and every date of the three
    tables lies between them. *)
Theorem year_bounds_exact (t l e : DataFrame) :
  year_dated t = true -> year_dated l = true -> year_dated e = true ->
  has_number t = true ->
  exists lo hi,
    year_min t l e = Some lo /\ year_max t l e = Some hi /\
    In lo (table_years t ++ table_years l ++ table_years e) /\
    In hi (table_years t ++ table_years l ++ table_years e) /\
    forall y, In y (table_years t ++ table_years l ++ table_years e) -> lo <= y <= hi.
Proof. exact (year_bounds_cover t l e). Qed.

Lemma year_bounds_exact_witness :
  exists lo hi,
    year_min sample_table sample_table sample_emission = Some lo /\
    year_max sample_table sample_table sample_emission = Some hi /\
    In lo (table_years sample_table ++ table_years sample_table
           ++ table_years sample_emission) /\
    In hi (table_years sample_table ++ table_years sample_table
           ++ table_years sample_emission) /\
    forall y, In y (table_years sample_table ++ table_years sample_table
                    ++ table_years sample_emission) -> lo <= y <= hi.
Proof.
  apply (year_bounds_exact sample_table sample_table sample_emission); reflexivity.
Defined.

Lemma py_min_nan (rest : list cell) : py_min NaN rest = NaN.
Proof. unfold py_min. induction rest as [| x rest IH]; simpl; [reflexivity |].
  destruct x; exact IH.
Qed.

Lemma py_max_nan (rest : list cell) : py_max NaN rest = NaN.
Proof. unfold py_max. induction rest as [| x rest IH]; simpl; [reflexivity | exact IH]. Qed.

Lemma series_min_no_number (d : Series) (m : cell) :
  forallb (fun c => negb (is_num c)) d = true -> series_min d = Some m -> m = NaN.
Proof.
  revert m. induction d as [| c d IH]; intros m H E; simpl in *.
  - congruence.
  - apply andb_true_iff in H. destruct H as [Hc Hd].
    destruct (series_min d) as [m' |]; [| discriminate]. cbn [obind] in E.
    destruct c; try discriminate. injection E as <-. apply IH; auto.
Qed.

Lemma series_max_no_number (d : Series) (m : cell) :
  forallb (fun c => negb (is_num c)) d = true -> series_max d = Some m -> m = NaN.
Proof.
  revert m. induction d as [| c d IH]; intros m H E; simpl in *.
  - congruence.
  - apply andb_true_iff in H. destruct H as [Hc Hd].
    destruct (series_max d) as [m' |]; [| discriminate]. cbn [obind] in E.
    destruct c; try discriminate. injection E as <-. apply IH; auto.
Qed.

Lemma no_number_col (T : DataFrame) (d : Series) :
  getcol "date" T = Some d -> has_number T = false ->
  forallb (fun c => negb (is_num c)) d = true.
Proof.
  unfold getcol, has_number.
  destruct (col_index "date" (columns T)) as [i |]; [| discriminate].
  cbn [obind]. intros H He. injection H as <-.
  rewrite forallb_forall. intros c Hc. apply in_map_iff in Hc.
  destruct Hc as [r [<- Hr]].
  destruct (is_num (nth i r NaN)) eqn:E; [| reflexivity].
  assert (Hex : existsb (fun r0 => is_num (nth i r0 NaN)) (rows T) = true)
    by (apply existsb_exists; exists r; auto).
  congruence.
Qed.

(** X7.  When the temperature table has no number in its [date] column
    (an empty table, for one), lines 94 and 95 raise, whatever dates the
    other two tables hold: the builtin [min] and [max] keep a first
    argument that is [NaN], and [int] rejects it. *)
Theorem year_bounds_need_temperature (t l e : DataFrame) :
  has_number t = false ->
  year_min t l e = None /\ year_max t l e = None.
Proof.
  intros Hn. unfold year_min, year_max.
  destruct (getcol "date" t) as [dt |] eqn:Gt; [| split; reflexivity].
  pose proof (no_number_col t dt Gt Hn) as Hd. cbn [obind].
  split.
  - destruct (series_min dt) as [a |] eqn:Ea; [| reflexivity].
    rewrite (series_min_no_number dt a Hd Ea). cbn [obind].
    destruct (getcol "date" l) as [dl |]; [| reflexivity]. cbn [obind].
    destruct (series_min dl) as [b |]; [| reflexivity]. cbn [obind].
    destruct (getcol "date" e) as [de |]; [| reflexivity]. cbn [obind].
    destruct (series_min de) as [c |]; [| reflexivity]. cbn [obind].
    rewrite py_min_nan. reflexivity.
  - destruct (series_max dt) as [a |] eqn:Ea; [| reflexivity].
    rewrite (series_max_no_number dt a Hd Ea). cbn [obind].
    destruct (getcol "date" l) as [dl |]; [| reflexivity]. cbn [obind].
    destruct (series_max dl) as [b |]; [| reflexivity]. cbn [obind].
    destruct (getcol "date" e) as [de |]; [| reflexivity]. cbn [obind].
    destruct (series_max de) as [c |]; [| reflexivity]. cbn [obind].
    rewrite py_max_nan. reflexivity.
Qed.

Lemma year_bounds_need_temperature_witness :
  year_min (mkFrame ["date"; "value"] []) sample_table sample_emission = None /\
  year_max (mkFrame ["date"; "value"] []) sample_table sample_emission = None.
Proof.
  apply (year_bounds_need_temperature (mkFrame ["date"; "value"] [])
           sample_table sample_emission).
  reflexivity.
Defined.

Lemma emission_dates (s : Runtime) :
  getcol "date" (fst (build_emission s)) = Some (ints (arange 1990 2023)).
Proof. reflexivity. Qed.

Lemma emission_date_min : series_min (ints (arange 1990 2023)) = Some (Num (inject_Z 1990)).
Proof. vm_compute. reflexivity. Qed.

Lemma emission_date_max : series_max (ints (arange 1990 2023)) = Some (Num (inject_Z 2022)).
Proof. vm_compute. reflexivity. Qed.

Lemma py_int_at_most (q : Q) (y n : Z) :
  (q <= inject_Z y)%Q -> py_int (Num q) = Some n -> n <= y.
Proof.
  destruct q as [a d]. unfold Qle, py_int. cbn [Qnum Qden inject_Z].
  intros H E. injection E as <-. rewrite Z.mul_1_r in H.
  rewrite <- (Z.quot_mul y (Zpos d)) by discriminate.
  apply Z.quot_le_mono; [reflexivity | exact H].
Qed.

Lemma py_int_at_least (q : Q) (y n : Z) :
  (inject_Z y <= q)%Q -> py_int (Num q) = Some n -> y <= n.
Proof.
  destruct q as [a d]. unfold Qle, py_int. cbn [Qnum Qden inject_Z].
  intros H E. injection E as <-. rewrite Z.mul_1_r in H.
  rewrite <- (Z.quot_mul y (Zpos d)) by discriminate.
  apply Z.quot_le_mono; [reflexivity | exact H].
Qed.

(** The emission years keep the bounds around 1990 and 2022. *)
Lemma bounds_around_emission (t l : DataFrame) (s : Runtime) (lo hi : Z) :
  year_min t l (fst (build_emission s)) = Some lo ->
  year_max t l (fst (build_emission s)) = Some hi ->
  lo <= 1990 /\ 2022 <= hi.
Proof.
  unfold year_min, year_max. rewrite emission_dates.
  destruct (getcol "date" t) as [dt |]; [| discriminate]. cbn [obind].
  destruct (getcol "date" l) as [dl |];
    [| destruct (series_min dt); discriminate].
  rewrite emission_date_min, emission_date_max.
  destruct (series_min dt) as [a |]; [| discriminate].
  destruct (series_max dt) as [a' |]; [| discriminate]. cbn [obind].
  destruct (series_min dl) as [b |]; [| discriminate].
  destruct (series_max dl) as [b' |]; [| discriminate]. cbn [obind].
  unfold py_min, py_max. cbn [fold_left].
  set (m1 := if py_lt b a then b else a).
  set (m1' := if py_lt a' b' then b' else a').
  intros Hlo Hhi. split.
  - destruct (py_lt (Num (inject_Z 1990)) m1) eqn:E.
    + rewrite py_int_year in Hlo. injection Hlo as <-. lia.
    + destruct m1 as [q | |]; try discriminate Hlo.
      apply (py_int_at_most q 1990 lo); [| exact Hlo].
      unfold py_lt in E. apply negb_false_iff in E. apply Qle_bool_iff. exact E.
  - destruct (py_lt m1' (Num (inject_Z 2022))) eqn:E.
    + rewrite py_int_year in Hhi. injection Hhi as <-. lia.
    + destruct m1' as [q | |]; try discriminate Hhi.
      apply (py_int_at_least q 2022 hi); [| exact Hhi].
      unfold py_lt in E. apply negb_false_iff in E. apply Qle_bool_iff. exact E.
Qed.

(** X8.  With the emission table of the script as third table, whenever
    lines 94-95 return bounds, the lower one is at most 1990 and the
    upper one at least 2022, whatever the two loaded tables hold; so the
    slider's default [(1990, 2020)] lies inside the bounds. *)
Theorem default_range_within_bounds (t l : DataFrame) (s : Runtime) (lo hi : Z) :
  year_min t l (fst (build_emission s)) = Some lo ->
  year_max t l (fst (build_emission s)) = Some hi ->
  lo <= 1990 /\ 2022 <= hi.
Proof. exact (bounds_around_emission t l s lo hi). Qed.

Lemma default_range_within_bounds_witness : 1880 <= 1990 /\ 2022 <= 2022.
Proof.
  apply (default_range_within_bounds
           (mkFrame ["date"; "value"] [[Num 1880; Num 0]; [Num 2001; NaN]])
           sample_table fresh_runtime 1880 2022); reflexivity.
Defined.

(** ** One run of the script *)

Lemma series_min_text_free (d : Series) :
  forallb (fun c => negb (is_str c)) d = true ->
  exists m, series_min d = Some m /\ is_str m = false /\
            (existsb is_num d = true -> is_num m = true).
Proof.
  induction d as [| c d IH]; intros H; simpl in *.
  - exists NaN. split; [reflexivity |]. split; [reflexivity | discriminate].
  - apply andb_true_iff in H. destruct H as [Hc Hd].
    destruct (IH Hd) as (m & -> & Hm & Hn). cbn [obind].
    destruct c as [q | | s]; [| | discriminate Hc].
    + destruct m as [q' | | s']; [| | discriminate Hm];
        eexists; (split; [reflexivity |]); (split; [reflexivity | intros _; reflexivity]).
    + exists m. split; [reflexivity |]. split; [exact Hm | exact Hn].
Qed.

Lemma series_max_text_free (d : Series) :
  forallb (fun c => negb (is_str c)) d = true ->
  exists m, series_max d = Some m /\ is_str m = false /\
            (existsb is_num d = true -> is_num m = true).
Proof.
  induction d as [| c d IH]; intros H; simpl in *.
  - exists NaN. split; [reflexivity |]. split; [reflexivity | discriminate].
  - apply andb_true_iff in H. destruct H as [Hc Hd].
    destruct (IH Hd) as (m & -> & Hm & Hn). cbn [obind].
    destruct c as [q | | s]; [| | discriminate Hc].
    + destruct m as [q' | | s']; [| | discriminate Hm];
        eexists; (split; [reflexivity |]); (split; [reflexivity | intros _; reflexivity]).
    + exists m. split; [reflexivity |]. split; [exact Hm | exact Hn].
Qed.

Lemma py_lt_num (a b : cell) : py_lt a b = true -> is_num a = true /\ is_num b = true.
Proof. destruct a, b; simpl; intros H; try discriminate H; split; reflexivity. Qed.

Lemma py_min_is_num (rest : list cell) :
  forall first, is_num first = true -> is_num (py_min first rest) = true.
Proof.
  unfold py_min. induction rest as [| x rest IH]; intros first H; simpl; [exact H |].
  apply IH. destruct (py_lt x first) eqn:E; [apply (py_lt_num _ _ E) | exact H].
Qed.

Lemma py_max_is_num (rest : list cell) :
  forall first, is_num first = true -> is_num (py_max first rest) = true.
Proof.
  unfold py_max. induction rest as [| x rest IH]; intros first H; simpl; [exact H |].
  apply IH. destruct (py_lt first x) eqn:E; [apply (py_lt_num _ _ E) | exact H].
Qed.

Lemma py_int_num (c : cell) : is_num c = true -> exists n, py_int c = Some n.
Proof. destruct c; intros H; try discriminate H. eexists. reflexivity. Qed.

Lemma has_dates_getcol (T : DataFrame) :
  has_dates T = true ->
  exists d, getcol "date" T = Some d /\
            forallb (fun c => negb (is_str c)) d = true /\
            existsb is_num d = has_number T.
Proof.
  intros H. destruct (has_dates_col T H) as [i [Hi Hs]].
  unfold getcol, has_number. rewrite Hi. cbn [obind].
  eexists. split; [reflexivity |]. split; [exact Hs |]. clear Hs.
  induction (rows T) as [| r rs IH]; simpl; [reflexivity |].
  rewrite IH. reflexivity.
Qed.

(** Lines 94-95 on three tables, the temperature table holding a date. *)
Lemma year_bounds_computed (t l e : DataFrame) :
  has_dates t = true -> has_dates l = true -> has_dates e = true ->
  has_number t = true ->
  exists lo hi, year_min t l e = Some lo /\ year_max t l e = Some hi.
Proof.
  intros Ht Hl He Hn.
  destruct (has_dates_getcol t Ht) as (dt & Gt & St & Nt). rewrite Hn in Nt.
  destruct (has_dates_getcol l Hl) as (dl & Gl & Sl & _).
  destruct (has_dates_getcol e He) as (de & Ge & Se & _).
  destruct (series_min_text_free dt St) as (a & Ea & _ & Na).
  destruct (series_min_text_free dl Sl) as (b & Eb & _ & _).
  destruct (series_min_text_free de Se) as (c & Ec & _ & _).
  destruct (series_max_text_free dt St) as (a' & Ea' & _ & Na').
  destruct (series_max_text_free dl Sl) as (b' & Eb' & _ & _).
  destruct (series_max_text_free de Se) as (c' & Ec' & _ & _).
  destruct (py_int_num _ (py_min_is_num [b; c] a (Na Nt))) as [lo Hlo].
  destruct (py_int_num _ (py_max_is_num [b'; c'] a' (Na' Nt))) as [hi Hhi].
  exists lo, hi. unfold year_min, year_max. rewrite Gt, Gl, Ge. cbn [obind].
  rewrite Ea, Ea'. cbn [obind]. rewrite Eb, Eb'. cbn [obind].
  rewrite Ec, Ec'. cbn [obind]. split; assumption.
Qed.

(** Line 94 raises on a temperature table without a date. *)
Lemma year_min_needs_number (t l e : DataFrame) :
  has_number t = false -> year_min t l e = None.
Proof.
  intros Hn. unfold year_min.
  destruct (getcol "date" t) as [dt |] eqn:Gt; [| reflexivity].
  pose proof (no_number_col t dt Gt Hn) as Hd. cbn [obind].
  destruct (series_min dt) as [a |] eqn:Ea; [| reflexivity].
  rewrite (series_min_no_number dt a Hd Ea). cbn [obind].
  destruct (getcol "date" l) as [dl |]; [| reflexivity]. cbn [obind].
  destruct (series_min dl) as [b |]; [| reflexivity]. cbn [obind].
  destruct (getcol "date" e) as [de |]; [| reflexivity]. cbn [obind].
  destruct (series_min de) as [c |]; [| reflexivity]. cbn [obind].
  rewrite py_min_nan. reflexivity.
Qed.

(** The tables of a run are tables, and so is what the run leaves cached. *)
Lemma load_tables_ok td (w : World) (s s' : Runtime) (t l e : DataFrame) :
  cache_ok s ->
  load_tables td w s = ((t, l, e), s') ->
  t = fst (load_global_temp w s) /\
  e = fst (build_emission (snd (load_sea_level td w (snd (load_global_temp w s))))) /\
  has_dates t = true /\ has_dates l = true /\ has_dates e = true /\ cache_ok s'.
Proof.
  intros Hok. rewrite load_tables_steps. cbv zeta.
  destruct (cache_data_ok "load_global_temp" load_global_temp_body w s
              load_global_temp_body_has_dates load_global_temp_body_cache Hok)
    as [Ht Hok1].
  fold load_global_temp in Ht, Hok1.
  destruct (cache_data_ok "load_sea_level" (load_sea_level_body td) w
              (snd (load_global_temp w s))
              (load_sea_level_body_has_dates td) (load_sea_level_body_cache td) Hok1)
    as [Hs Hok2].
  fold (load_sea_level td) in Hs, Hok2.
  set (b := load_sea_level td w (snd (load_global_temp w s))) in *.
  pose proof (build_emission_has_dates (snd b)) as He.
  destruct (build_emission_frame (snd b)) as [Hc _].
  intros H.
  pose proof (f_equal (fun x => fst (fst (fst x))) H) as E1.
  pose proof (f_equal (fun x => snd (fst (fst x))) H) as E2.
  pose proof (f_equal (fun x => snd (fst x)) H) as E3.
  pose proof (f_equal snd H) as E4.
  cbn [fst snd] in E1, E2, E3, E4. subst t l e s'.
  split; [reflexivity |]. split; [reflexivity |].
  split; [exact Ht |]. split; [exact Hs |]. split; [exact He |].
  unfold cache_ok. rewrite Hc. exact Hok2.
Qed.


(** ** More on the range filter *)

Lemma mapM_none {A B : Type} (f : A -> option B) (l : list A) (a : A) :
  In a l -> f a = None -> mapM f l = None.
Proof.
  induction l as [| x l IH]; intros Hin Hf; [contradiction |]. simpl.
  destruct Hin as [-> | Hin].
  - rewrite Hf. reflexivity.
  - rewrite (IH Hin Hf). destruct (f x); reflexivity.
Qed.

(** X1.  The filter raises exactly on frames that are not tables: those
    without a [date] column ([KeyError]) and those with text in it
    ([TypeError]); on every other frame it returns. *)
Theorem range_filter_raises_iff (T : DataFrame) (yr : Z * Z) :
  range_filter yr T = None <-> has_dates T = false.
Proof.
  destruct yr as [lo hi]. split.
  - intros H. destruct (has_dates T) eqn:E; [| reflexivity].
    rewrite (range_filter_rows T lo hi E) in H. discriminate H.
  - unfold has_dates, range_filter, getcol.
    destruct (col_index "date" (columns T)) as [i |]; [| reflexivity].
    intros H. cbn [obind fst snd].
    assert (Hex : exists r, In r (rows T) /\ is_str (nth i r NaN) = true).
    { induction (rows T) as [| r l IH]; [discriminate |]. simpl in H.
      destruct (is_str (nth i r NaN)) eqn:E.
      - exists r. split; [left; reflexivity | exact E].
      - destruct (IH H) as [r' [Hr' Hs]]. exists r'. split; [right |]; assumption. }
    destruct Hex as [r [Hr Hs]].
    assert (Hge : series_ge (map (fun r0 => nth i r0 NaN) (rows T)) lo = None).
    { apply (mapM_none _ _ (nth i r NaN)).
      - apply in_map_iff. exists r. auto.
      - destruct (nth i r NaN); try discriminate Hs. reflexivity. }
    rewrite Hge. reflexivity.
Qed.

Lemma filter_all {A : Type} (f : A -> bool) (l : list A) :
  (forall a, In a l -> f a = true) -> filter f l = l.
Proof.
  induction l as [| a l IH]; intros H; simpl; [reflexivity |].
  rewrite (H a (or_introl eq_refl)). f_equal. apply IH. intros; apply H; right; assumption.
Qed.

(** X2.  When every date of the table lies in the range, the filter
    returns the table itself. *)
Theorem range_filter_full_range (T : DataFrame) (lo hi : Z) :
  has_dates T = true ->
  (forall r, In r (rows T) -> in_range lo hi (date_of T r)) ->
  range_filter (lo, hi) T = Some T.
Proof.
  intros H Hall. rewrite (range_filter_rows T lo hi H).
  rewrite filter_all by (intros r Hr; apply in_rangeb_iff, Hall, Hr).
  destruct T. reflexivity.
Qed.

Lemma range_filter_full_range_witness :
  range_filter (1990, 2001) sample_table = Some sample_table.
Proof.
  apply (range_filter_full_range sample_table 1990 2001).
  - reflexivity.
  - intros r Hr. apply in_rangeb_iff. simpl in Hr.
    repeat (destruct Hr as [<- | Hr]; [reflexivity |]). contradiction.
Defined.

Lemma filter_twice {A : Type} (f g : A -> bool) (l : list A) :
  filter g (filter f l) = filter (fun a => f a && g a) l.
Proof.
  induction l as [| a l IH]; simpl; [reflexivity |].
  destruct (f a); simpl; [destruct (g a) |]; congruence.
Qed.

Lemma in_rangeb_meet (lo1 hi1 lo2 hi2 : Z) (c : cell) :
  in_rangeb (Z.max lo1 lo2) (Z.min hi1 hi2) c
  = in_rangeb lo1 hi1 c && in_rangeb lo2 hi2 c.
Proof.
  apply eq_true_iff_eq. rewrite andb_true_iff, !in_rangeb_iff. unfold in_range. split.
  - intros (q & -> & H1 & H2).
    assert (inject_Z lo1 <= q /\ inject_Z lo2 <= q /\ q <= inject_Z hi1 /\ q <= inject_Z hi2)%Q
      as (A & B & C & D).
    { repeat split.
      - eapply Qle_trans; [| exact H1]. rewrite <- Zle_Qle. lia.
      - eapply Qle_trans; [| exact H1]. rewrite <- Zle_Qle. lia.
      - eapply Qle_trans; [exact H2 |]. rewrite <- Zle_Qle. lia.
      - eapply Qle_trans; [exact H2 |]. rewrite <- Zle_Qle. lia. }
    split; exists q; auto.
  - intros [(q & -> & H1 & H2) (q' & E & H3 & H4)]. injection E as <-.
    exists q. split; [reflexivity |]. split.
    + destruct (Z.max_spec lo1 lo2) as [[_ ->] | [_ ->]]; assumption.
    + destruct (Z.min_spec hi1 hi2) as [[_ ->] | [_ ->]]; assumption.
Qed.

Lemma has_dates_filter (T : DataFrame) (f : list cell -> bool) :
  has_dates T = true -> has_dates (mkFrame (columns T) (filter f (rows T))) = true.
Proof.
  unfold has_dates. cbn [columns rows].
  destruct (col_index "date" (columns T)); [| discriminate].
  rewrite !forallb_forall. intros H r Hr. apply filter_In in Hr. apply H, Hr.
Qed.

(** X3.  Filtering a filtered table is filtering the table once by the
    intersection of the two ranges (so filtering twice by the same range
    changes nothing, and the result of a filter is again a table). *)
Theorem range_filter_compose (T T1 : DataFrame) (lo1 hi1 lo2 hi2 : Z) :
  has_dates T = true ->
  range_filter (lo1, hi1) T = Some T1 ->
  has_dates T1 = true /\
  range_filter (lo2, hi2) T1 = range_filter (Z.max lo1 lo2, Z.min hi1 hi2) T.
Proof.
  intros H E. rewrite (range_filter_rows T lo1 hi1 H) in E. injection E as <-.
  pose proof (has_dates_filter T (fun r => in_rangeb lo1 hi1 (date_of T r)) H) as H1.
  split; [exact H1 |].
  rewrite (range_filter_rows _ lo2 hi2 H1), (range_filter_rows T _ _ H).
  cbn [columns rows]. rewrite filter_twice. do 2 f_equal.
  apply filter_ext. intros r. unfold date_of. cbn [columns].
  symmetry. apply in_rangeb_meet.
Qed.

Lemma range_filter_compose_witness :
  has_dates (mkFrame ["date"; "value"]
                     [[Num 1990; Num (3 # 10)]; [Num 1995; NaN]; [Num 1993; Num (1 # 2)]])
  = true /\
  range_filter (1993, 2010)
               (mkFrame ["date"; "value"]
                        [[Num 1990; Num (3 # 10)]; [Num 1995; NaN]; [Num 1993; Num (1 # 2)]])
  = range_filter (Z.max 1990 1993, Z.min 2000 2010) sample_table.
Proof.
  apply (range_filter_compose sample_table _ 1990 2000 1993 2010); reflexivity.
Defined.

(** ** The sea-level loader: the path through [except] *)

Lemma sea_fallback_rows (s : Runtime) :
  exists df s',
    sea_fallback s = (df, s') /\
    warnings s' = warnings s ++ [sea_warning] /\
    columns df = ["date"; "value"] /\
    List.length (rows df) = 33%nat /\
    forall i, (i < 33)%nat ->
      exists v,
        nth i (rows df) [] = [Num (inject_Z (1990 + Z.of_nat i)); Num v] /\
        (v == inject_Z (Z.of_nat i) * (100 / 32) + 5 * gauss (rng s) (pos (rng s) + i))%Q.
Proof.
  unfold sea_fallback, np_random_normal. cbn [rng st_warning].
  do 2 eexists. split; [reflexivity |]. cbn [warnings].
  repeat (split; [reflexivity |]).
  intros i Hi. unfold frame_of_dict. cbn [columns rows map fst snd].
  assert (Hn : List.length (ints (arange 1990 2023)) = 33%nat) by reflexivity.
  rewrite Hn. rewrite nth_map_seq by exact Hi. cbn [map snd].
  rewrite nth_ints by (rewrite length_arange; exact Hi).
  rewrite nth_arange by exact Hi.
  assert (Hl : List.length (arange 1990 2023) = 33%nat) by reflexivity.
  rewrite Hl.
  rewrite nth_floats by (rewrite length_trend_plus_noise; exact Hi).
  rewrite nth_trend_plus_noise by exact Hi.
  eexists. split; [reflexivity |].
  change (inject_Z (Z.of_nat (33 - 1))) with 32%Q. field.
Qed.

(** X4.  Whenever the [try] block of the sea-level loader raises, a call
    that runs the body shows exactly one warning, the sea-level one, and
    returns 33 rows, one per year of 1990-2022 whatever the current year,
    the value of row [i] being the interpolation from 0 to 100 at step
    [i] of 32 plus 5 times the next standard normal variate. *)
Theorem load_sea_level_fallback (to_datetime : Series -> option (list datetime))
    (w : World) (s : Runtime) :
  sea_try to_datetime w = None ->
  cache s "load_sea_level" = None ->
  exists df s',
    load_sea_level to_datetime w s = (df, s') /\
    warnings s' = warnings s ++ [sea_warning] /\
    columns df = ["date"; "value"] /\
    List.length (rows df) = 33%nat /\
    forall i, (i < 33)%nat ->
      exists v,
        nth i (rows df) [] = [Num (inject_Z (1990 + Z.of_nat i)); Num v] /\
        (v == inject_Z (Z.of_nat i) * (100 / 32) + 5 * gauss (rng s) (pos (rng s) + i))%Q.
Proof.
  intros Htry Hmiss.
  unfold load_sea_level, cache_data. rewrite Hmiss.
  unfold load_sea_level_body. rewrite Htry.
  destruct (sea_fallback_rows (log_fetch sea_url (set_warnings [] s)))
    as (df & s1 & E & Hw & Hc & Hl & Hr).
  rewrite E. exists df. eexists. split; [reflexivity |].
  cbn [warnings set_cache set_warnings]. rewrite Hw.
  repeat (split; [reflexivity || assumption |]).
  exact Hr.
Qed.

Lemma load_sea_level_fallback_witness :
  exists df s',
    load_sea_level iso_to_datetime offline_world fresh_runtime = (df, s') /\
    warnings s' = warnings fresh_runtime ++ [sea_warning] /\
    columns df = ["date"; "value"] /\
    List.length (rows df) = 33%nat /\
    forall i, (i < 33)%nat ->
      exists v,
        nth i (rows df) [] = [Num (inject_Z (1990 + Z.of_nat i)); Num v] /\
        (v == inject_Z (Z.of_nat i) * (100 / 32)
              + 5 * gauss (rng fresh_runtime) (pos (rng fresh_runtime) + i))%Q.
Proof.
  apply (load_sea_level_fallback iso_to_datetime offline_world fresh_runtime); reflexivity.
Defined.

(** ** What a loader returns, whatever happens *)

Lemma forallb_width_select_rows (l : list (list cell)) (m : list bool) (n : nat) :
  Forall (fun r => List.length r = n) l ->
  Forall (fun r => List.length r = n) (select_rows l m).
Proof.
  intros H. revert m. induction H as [| r l Hr Hl IH]; intros [| b m]; simpl;
    try constructor.
  destruct b; [constructor; [exact Hr | apply IH] | apply IH].
Qed.

Lemma temp_try_shape (w : World) (out : DataFrame) :
  temp_try w = Some out ->
  columns out = ["date"; "value"] /\ Forall (fun r => List.length r = 2%nat) (rows out).
Proof.
  unfold temp_try. destruct (read_csv w temp_url 1) as [df |]; [| discriminate].
  cbn [obind]. unfold select.
  destruct (mapM _ ["date"; "J-D"]) as [idx |] eqn:Ei; [| discriminate]. cbn [obind].
  destruct (getcol "date" _) as [d |]; [| discriminate]. cbn [obind].
  destruct (series_le d (now_year w)) as [m |]; [| discriminate]. cbn [obind].
  intros H. injection H as <-. unfold loc_mask, rename. cbn [columns rows].
  split; [reflexivity |]. apply forallb_width_select_rows.
  apply Forall_forall. intros r Hr. apply in_map_iff in Hr. destruct Hr as [r0 [<- _]].
  rewrite length_map. apply (mapM_length _ _ _ Ei).
Qed.

Lemma sea_try_shape td (w : World) (out : DataFrame) :
  sea_try td w = Some out ->
  columns out = ["date"; "value"] /\ Forall (fun r => List.length r = 2%nat) (rows out).
Proof.
  unfold sea_try. destruct (read_csv w sea_url 0) as [df |]; [| discriminate].
  cbn [obind]. destruct (getcol "date" _) as [d0 |]; [| discriminate]. cbn [obind].
  destruct (td d0) as [ts |]; [| discriminate]. cbn [obind].
  unfold groupby_mean.
  destruct (getcol "date" (setcol _ _ _)) as [ks |]; [| discriminate]. cbn [obind].
  destruct (getcol "value" (setcol _ _ _)) as [vs |]; [| discriminate]. cbn [obind].
  destruct (group_rows ks vs []) as [gs |]; [| discriminate]. cbn [obind].
  destruct (getcol "date" _) as [d |]; [| discriminate]. cbn [obind].
  destruct (series_le d (now_year w)) as [m |]; [| discriminate]. cbn [obind].
  intros H. injection H as <-. unfold loc_mask. cbn [columns rows].
  split; [reflexivity |]. apply forallb_width_select_rows.
  apply Forall_forall. intros r Hr. apply in_map_iff in Hr. destruct Hr as [g [<- _]].
  reflexivity.
Qed.

Lemma fallback_width (d : list (string * Series)) (n : nat) :
  Forall (fun r => List.length r = List.length d)
         (map (fun i => map (fun kc : string * Series => nth i (snd kc) NaN) d) (seq 0 n)).
Proof.
  apply Forall_forall. intros r Hr. apply in_map_iff in Hr. destruct Hr as [i [<- _]].
  apply length_map.
Qed.

(** X5.  In a world whose remote frames are well labelled (distinct
    labels, none already called [date], nor [value] in the sea-level
    file), whatever else the files hold and whether or not fetching
    works, the body of each loader returns a frame with exactly the
    columns [date] and [value], two cells in every row and no text among
    its dates: no failure leaves a loader, and what leaves it is a table
    the filter accepts. *)
Theorem loaders_return_tables (to_datetime : Series -> option (list datetime))
    (w : World) (s : Runtime) :
  well_labelled w ->
  (columns (fst (load_global_temp_body w s)) = ["date"; "value"] /\
   Forall (fun r => List.length r = 2%nat) (rows (fst (load_global_temp_body w s))) /\
   has_dates (fst (load_global_temp_body w s)) = true) /\
  (columns (fst (load_sea_level_body to_datetime w s)) = ["date"; "value"] /\
   Forall (fun r => List.length r = 2%nat)
          (rows (fst (load_sea_level_body to_datetime w s))) /\
   has_dates (fst (load_sea_level_body to_datetime w s)) = true).
Proof.
  intros _. split.
  - split; [| split; [| apply load_global_temp_body_has_dates]];
      unfold load_global_temp_body; destruct (temp_try w) as [out |] eqn:E;
      try (apply (temp_try_shape w out E)); try reflexivity.
    apply (fallback_width [("date", _); ("value", _)]).
  - split; [| split; [| apply load_sea_level_body_has_dates]];
      unfold load_sea_level_body; destruct (sea_try to_datetime w) as [out |] eqn:E;
      try (apply (sea_try_shape to_datetime w out E)); try reflexivity.
    apply (fallback_width [("date", _); ("value", _)]).
Qed.

Lemma labels_distinct_sample :
  well_labelled sample_both_world /\ well_labelled (serving gistemp_future).
Proof.
  assert (N3 : NoDup ["Year"; "Jan"; "J-D"]).
  { repeat (constructor;
            [simpl; intros H; repeat (destruct H as [H | H]; [discriminate H |]); exact H |]).
    constructor. }
  assert (N2 : NoDup ["Time"; "GMSL"]).
  { repeat (constructor;
            [simpl; intros H; repeat (destruct H as [H | H]; [discriminate H |]); exact H |]).
    constructor. }
  assert (N1 : NoDup ["Year"; "J-D"]).
  { repeat (constructor;
            [simpl; intros H; repeat (destruct H as [H | H]; [discriminate H |]); exact H |]).
    constructor. }
  unfold well_labelled.
  split; (split; intros df0 H0; vm_compute in H0; injection H0 as <-);
    (split; [assumption |]); try split;
    simpl; intros H; repeat (destruct H as [H | H]; [discriminate H |]); exact H.
Qed.

Lemma loaders_return_tables_witness :
  (columns (fst (load_global_temp_body sample_both_world fresh_runtime))
   = ["date"; "value"] /\
   Forall (fun r => List.length r = 2%nat)
          (rows (fst (load_global_temp_body sample_both_world fresh_runtime))) /\
   has_dates (fst (load_global_temp_body sample_both_world fresh_runtime)) = true) /\
  (columns (fst (load_sea_level_body iso_to_datetime sample_both_world fresh_runtime))
   = ["date"; "value"] /\
   Forall (fun r => List.length r = 2%nat)
          (rows (fst (load_sea_level_body iso_to_datetime sample_both_world
                                          fresh_runtime))) /\
   has_dates (fst (load_sea_level_body iso_to_datetime sample_both_world fresh_runtime))
   = true).
Proof.
  apply (loaders_return_tables iso_to_datetime sample_both_world fresh_runtime).
  apply labels_distinct_sample.
Defined.


(** ** A run without network *)

Lemma load_global_temp_miss_fails (w : World) (s : Runtime) :
  temp_try w = None -> cache s "load_global_temp" = None ->
  load_global_temp w s
  = (fst (temp_fallback (log_fetch temp_url (set_warnings [] s))),
     set_cache "load_global_temp"
       (mkEntry (fst (temp_fallback (log_fetch temp_url (set_warnings [] s))))
                [temp_warning])
       (set_warnings (warnings s ++ [temp_warning])
          (snd (temp_fallback (log_fetch temp_url (set_warnings [] s)))))).
Proof.
  intros Ht Hm. unfold load_global_temp, cache_data. rewrite Hm.
  unfold load_global_temp_body. rewrite Ht. reflexivity.
Qed.

Lemma load_sea_level_miss_fails td (w : World) (s : Runtime) :
  sea_try td w = None -> cache s "load_sea_level" = None ->
  load_sea_level td w s
  = (fst (sea_fallback (log_fetch sea_url (set_warnings [] s))),
     set_cache "load_sea_level"
       (mkEntry (fst (sea_fallback (log_fetch sea_url (set_warnings [] s))))
                [sea_warning])
       (set_warnings (warnings s ++ [sea_warning])
          (snd (sea_fallback (log_fetch sea_url (set_warnings [] s)))))).
Proof.
  intros Ht Hm. unfold load_sea_level, cache_data. rewrite Hm.
  unfold load_sea_level_body. rewrite Ht. reflexivity.
Qed.

(** X9.  A first run of lines 73-95 in which both fetches fail: the two
    URLs are requested once each, temperature first; the two warnings are
    shown in that order; the three tables all cover the years 1990-2022;
    165 variates are drawn in all; and the slider bounds are 1990 and
    2022. *)
Theorem offline_run (to_datetime : Series -> option (list datetime))
    (w : World) (s : Runtime) :
  temp_try w = None ->
  sea_try to_datetime w = None ->
  cache s "load_global_temp" = None ->
  cache s "load_sea_level" = None ->
  exists t l e s',
    load_tables to_datetime w s = ((t, l, e), s') /\
    fetched s' = fetched s ++ [temp_url; sea_url] /\
    warnings s' = warnings s ++ [temp_warning; sea_warning] /\
    pos (rng s') = (pos (rng s) + 165)%nat /\
    gauss (rng s') = gauss (rng s) /\
    table_years t = arange 1990 2023 /\
    table_years l = arange 1990 2023 /\
    table_years e = arange 1990 2023 /\
    year_min t l e = Some 1990 /\
    year_max t l e = Some 2022.
Proof.
  intros Ht Hs Hm1 Hm2. rewrite load_tables_steps. cbv zeta.
  rewrite (load_global_temp_miss_fails w s Ht Hm1). cbn [fst snd].
  rewrite (load_sea_level_miss_fails to_datetime w _ Hs) by exact Hm2.
  cbn [fst snd].
  do 4 eexists. split; [reflexivity |].
  split; [cbn; rewrite <- !app_assoc; reflexivity |].
  split; [cbn; rewrite <- !app_assoc; reflexivity |].
  split; [change (pos (rng s) + 33 + 33 + 33 + 33 + 33 = pos (rng s) + 165)%nat; lia |].
  repeat (split; [reflexivity |]). reflexivity.
Qed.

Lemma offline_run_witness :
  exists t l e s',
    load_tables iso_to_datetime offline_world fresh_runtime = ((t, l, e), s') /\
    fetched s' = fetched fresh_runtime ++ [temp_url; sea_url] /\
    warnings s' = warnings fresh_runtime ++ [temp_warning; sea_warning] /\
    pos (rng s') = (pos (rng fresh_runtime) + 165)%nat /\
    gauss (rng s') = gauss (rng fresh_runtime) /\
    table_years t = arange 1990 2023 /\
    table_years l = arange 1990 2023 /\
    table_years e = arange 1990 2023 /\
    year_min t l e = Some 1990 /\
    year_max t l e = Some 2022.
Proof. apply (offline_run iso_to_datetime offline_world fresh_runtime); reflexivity. Defined.

(** ** Runs after the first *)

(** A run with both tables in the store: they are returned as stored,
    nothing is requested, the store is left as it is, and the generator
    only moves by the 99 draws of the emission series. *)
Lemma warm_run td (w : World) (s : Runtime) (e1 e2 : Entry) :
  cache s "load_global_temp" = Some e1 ->
  cache s "load_sea_level" = Some e2 ->
  fst (fst (fst (load_tables td w s))) = e_value e1 /\
  snd (fst (fst (load_tables td w s))) = e_value e2 /\
  fetched (snd (load_tables td w s)) = fetched s /\
  cache (snd (load_tables td w s)) = cache s /\
  snd (fst (load_tables td w s))
  = fst (build_emission
           (set_warnings (warnings s ++ e_messages e1 ++ e_messages e2) s)).
Proof.
  intros H1 H2. rewrite load_tables_steps. cbv zeta.
  assert (Ha : load_global_temp w s
               = (e_value e1, set_warnings (warnings s ++ e_messages e1) s))
    by (apply cache_data_hit; exact H1).
  rewrite Ha. cbn [fst snd].
  assert (Hb : load_sea_level td w (set_warnings (warnings s ++ e_messages e1) s)
               = (e_value e2,
                  set_warnings
                    (warnings (set_warnings (warnings s ++ e_messages e1) s)
                     ++ e_messages e2)
                    (set_warnings (warnings s ++ e_messages e1) s)))
    by (apply cache_data_hit; exact H2).
  rewrite Hb. cbn [fst snd].
  destruct (build_emission_frame
              (set_warnings
                 (warnings (set_warnings (warnings s ++ e_messages e1) s) ++ e_messages e2)
                 (set_warnings (warnings s ++ e_messages e1) s))) as (Hc & Hf & _ & _).
  rewrite Hc, Hf. cbn [warnings set_warnings cache fetched].
  rewrite <- app_assoc. repeat split; reflexivity.
Qed.

(** After a run, both tables are in the store. *)
Lemma first_run_stores td (w : World) (s : Runtime) :
  exists e1 e2,
    cache (snd (load_tables td w s)) "load_global_temp" = Some e1 /\
    cache (snd (load_tables td w s)) "load_sea_level" = Some e2 /\
    e_value e1 = fst (fst (fst (load_tables td w s))) /\
    e_value e2 = snd (fst (fst (load_tables td w s))).
Proof.
  rewrite load_tables_steps. cbv zeta. cbn [fst snd].
  set (a1 := load_global_temp w s).
  set (b1 := load_sea_level td w (snd a1)).
  destruct (cache_data_stores "load_global_temp" load_global_temp_body w s)
    as [e1 [He1 Hv1]].
  fold load_global_temp in He1, Hv1. fold a1 in He1, Hv1.
  destruct (cache_data_stores "load_sea_level" (load_sea_level_body td) w (snd a1))
    as [e2 [He2 Hv2]].
  pose proof (cache_data_keeps "load_sea_level" (load_sea_level_body td)
                w (snd a1) "load_global_temp" e1
                (load_sea_level_body_cache td) He1) as Hk.
  fold (load_sea_level td) in He2, Hv2, Hk. fold b1 in He2, Hv2, Hk.
  destruct (build_emission_frame (snd b1)) as [Hc _].
  exists e1, e2. rewrite Hc. auto.
Qed.

Lemma reruns_warm td (ws : list World) :
  forall (s : Runtime) (e1 e2 : Entry),
    cache s "load_global_temp" = Some e1 ->
    cache s "load_sea_level" = Some e2 ->
    Forall (fun r => fst (fst r) = e_value e1 /\ snd (fst r) = e_value e2)
           (fst (reruns td ws s)) /\
    fetched (snd (reruns td ws s)) = fetched s.
Proof.
  induction ws as [| w ws IH]; intros s e1 e2 H1 H2; simpl.
  - split; [constructor | reflexivity].
  - destruct (warm_run td w s e1 e2 H1 H2) as (Ht & Hl & Hf & Hc & _).
    destruct (load_tables td w s) as [r s1]. cbn [fst snd] in *.
    rewrite <- Hc in H1, H2. destruct (IH s1 e1 e2 H1 H2) as [Hall Hf'].
    destruct (reruns td ws s1) as [rs s2]. cbn [fst snd] in *.
    split; [constructor; [split; assumption | exact Hall] | congruence].
Qed.

(** X11.  However often the script is run again in a process, and
    whatever the remote files have become at each run, every later run
    gets the temperature and sea-level tables of the first run, and no
    URL is requested after the first run. *)
Theorem reruns_memoized (to_datetime : Series -> option (list datetime))
    (w : World) (ws : list World) (s : Runtime) :
  Forall (fun r => fst (fst r) = fst (fst (fst (load_tables to_datetime w s))) /\
                   snd (fst r) = snd (fst (fst (load_tables to_datetime w s))))
         (fst (reruns to_datetime ws (snd (load_tables to_datetime w s)))) /\
  fetched (snd (reruns to_datetime ws (snd (load_tables to_datetime w s))))
  = fetched (snd (load_tables to_datetime w s)).
Proof.
  destruct (first_run_stores to_datetime w s) as (e1 & e2 & H1 & H2 & <- & <-).
  apply reruns_warm; assumption.
Qed.

(** ** The emission series from run to run *)

Lemma build_emission_gross (s : Runtime) (i : nat) :
  (i < 33)%nat ->
  exists g,
    nth 1 (nth i (rows (fst (build_emission s))) []) NaN = Num g /\
    (g == 300 + inject_Z (Z.of_nat i) * (450 / 32)
          + 20 * gauss (rng s) (pos (rng s) + i))%Q.
Proof.
  intros Hi. unfold build_emission, np_random_normal. cbn [rng fst].
  unfold frame_of_dict. cbn [columns rows map fst snd].
  assert (Hn : List.length (ints (arange 1990 2023)) = 33%nat) by reflexivity.
  rewrite Hn. rewrite nth_map_seq by exact Hi. cbn [map snd nth].
  assert (Hl : List.length (arange 1990 2023) = 33%nat) by reflexivity.
  rewrite Hl.
  rewrite nth_floats by (rewrite length_trend_plus_noise; exact Hi).
  rewrite nth_trend_plus_noise by exact Hi.
  eexists. split; [reflexivity |].
  change (inject_Z (Z.of_nat (33 - 1))) with 32%Q. field.
Qed.

Lemma cache_data_gauss (key : string) (body : World -> Runtime -> DataFrame * Runtime)
    (w : World) (s : Runtime) :
  (forall w0 s0, gauss (rng (snd (body w0 s0))) = gauss (rng s0)) ->
  gauss (rng (snd (cache_data key body w s))) = gauss (rng s).
Proof.
  intros Hb. unfold cache_data. destruct (cache s key) as [e |]; [reflexivity |].
  specialize (Hb w (set_warnings [] s)).
  destruct (body w (set_warnings [] s)) as [v s']. exact Hb.
Qed.

Lemma load_global_temp_body_gauss (w : World) (s : Runtime) :
  gauss (rng (snd (load_global_temp_body w s))) = gauss (rng s).
Proof. unfold load_global_temp_body. destruct (temp_try w); reflexivity. Qed.

Lemma load_sea_level_body_gauss td (w : World) (s : Runtime) :
  gauss (rng (snd (load_sea_level_body td w s))) = gauss (rng s).
Proof. unfold load_sea_level_body. destruct (sea_try td w); reflexivity. Qed.

(** X12.  The emission series is not memoized: in two successive runs
    of the script it is built twice, from different variates.  With [q]
    the cursor of the generator when the first run builds the series, the
    gross value of year [1990 + i] is the trend plus 20 times variate
    [q + i] in the first run and 20 times variate [q + 99 + i] in the
    second, whatever the loaders did. *)
Theorem emission_redrawn (to_datetime : Series -> option (list datetime))
    (w1 w2 : World) (s : Runtime) :
  exists q : nat,
    forall i, (i < 33)%nat ->
      exists g1 g2,
        nth 1 (nth i (rows (snd (fst (load_tables to_datetime w1 s)))) []) NaN = Num g1 /\
        nth 1 (nth i (rows (snd (fst (load_tables to_datetime w2
                                        (snd (load_tables to_datetime w1 s)))))) []) NaN
        = Num g2 /\
        (g1 == 300 + inject_Z (Z.of_nat i) * (450 / 32)
               + 20 * gauss (rng s) (q + i))%Q /\
        (g2 == 300 + inject_Z (Z.of_nat i) * (450 / 32)
               + 20 * gauss (rng s) (q + 99 + i))%Q.
Proof.
  destruct (first_run_stores to_datetime w1 s) as (e1 & e2 & H1 & H2 & _ & _).
  destruct (warm_run to_datetime w2 _ e1 e2 H1 H2) as (_ & _ & _ & _ & He2).
  rewrite He2. clear He2 H1 H2.
  rewrite (load_tables_steps to_datetime w1 s). cbv zeta. cbn [fst snd].
  set (a := load_global_temp w1 s).
  set (b := load_sea_level to_datetime w1 (snd a)).
  assert (Hg : gauss (rng (snd b)) = gauss (rng s)).
  { unfold b, load_sea_level. rewrite cache_data_gauss
      by apply load_sea_level_body_gauss.
    unfold a, load_global_temp. apply cache_data_gauss.
    apply load_global_temp_body_gauss. }
  destruct (build_emission_frame (snd b)) as (_ & _ & _ & Hr).
  exists (pos (rng (snd b))). intros i Hi.
  destruct (build_emission_gross (snd b) i Hi) as (g1 & E1 & V1).
  destruct (build_emission_gross
              (set_warnings
                 (warnings (snd (build_emission (snd b))) ++ e_messages e1 ++ e_messages e2)
                 (snd (build_emission (snd b)))) i Hi) as (g2 & E2 & V2).
  exists g1, g2. split; [exact E1 |]. split; [exact E2 |].
  rewrite Hg in V1. split; [exact V1 |].
  cbn [rng set_warnings] in V2. rewrite Hr in V2. cbn [gauss pos advance] in V2.
  rewrite Hg in V2.
  replace (pos (rng (snd b)) + 99 + i)%nat
    with (pos (rng (snd b)) + 33 + 33 + 33 + i)%nat by lia.
  exact V2.
Qed.

(** ** Grouping: order of the rows, range of the means *)

(** The rows written by [groupby(...).mean().reset_index()] on year keys. *)
Lemma group_rows_means (ts : list datetime) (vs : Series) (gs : list Group) :
  group_rows (map dt_year ts) vs [] = Some gs ->
  exists ys,
    StronglySorted Z.lt ys /\
    (forall y, In y ys <-> In y (stamp_years ts vs)) /\
    map (fun g : Q * (Q * nat) => [Num (fst g); group_mean (snd g)]) gs
    = map (fun y => [Num (inject_Z y); mean_cell (year_values y ts vs)]) ys.
Proof.
  intros Eg.
  destruct (group_rows_years ts vs [] gs [] eq_refl (SSorted_nil _) Eg)
    as (ys & Hk & Hs & Hin & Hacc).
  exists ys. split; [exact Hs |]. split.
  - intros y. rewrite Hin. simpl. tauto.
  - rewrite (year_keyed_lookup gs ys Hk Hs) at 1. rewrite map_map.
    apply map_ext. intros y. cbn [fst snd]. rewrite Hacc. cbn [acc_of].
    rewrite group_mean_fold. reflexivity.
Qed.

(** Grouping raises exactly when a row with a timestamp holds text. *)
Lemma group_rows_fails_iff (ts : list datetime) :
  forall (vs : Series) (gs0 : list Group),
    group_rows (map dt_year ts) vs gs0 = None <-> keyed_text ts vs = true.
Proof.
  unfold keyed_text.
  induction ts as [| t ts IH]; intros [| v vs] gs0; simpl;
    try (split; discriminate).
  destruct t as [t |]; destruct v as [q | | s]; simpl;
    try (apply IH); split; reflexivity.
Qed.

Lemma stamp_years_flat (ts : list datetime) :
  forall vs, stamp_years ts vs
             = flat_map (fun p : datetime * cell =>
                           match fst p with
                           | Stamp t => [year t]
                           | NaT => []
                           end) (combine ts vs).
Proof.
  induction ts as [| t ts IH]; intros [| v vs]; simpl; try reflexivity.
  - destruct t; reflexivity.
  - rewrite IH. destruct t; reflexivity.
Qed.

Lemma year_values_flat (y : Z) (ts : list datetime) :
  forall vs, year_values y ts vs
             = flat_map (fun p : datetime * cell =>
                           match fst p, snd p with
                           | Stamp t, Num q => if year t =? y then [q] else []
                           | _, _ => []
                           end) (combine ts vs).
Proof.
  induction ts as [| t ts IH]; intros [| v vs]; simpl; try reflexivity.
  - destruct t; reflexivity.
  - rewrite IH. destruct t as [t |]; [destruct v as [q | | s] |]; try reflexivity.
    destruct (year t =? y); reflexivity.
Qed.

Lemma combine_maps {A B C : Type} (f : A -> B) (g : A -> C) (l : list A) :
  combine (map f l) (map g l) = map (fun a => (f a, g a)) l.
Proof. induction l; simpl; congruence. Qed.

Lemma Qsum_perm (l1 l2 : list Q) : Permutation l1 l2 -> (Qsum l1 == Qsum l2)%Q.
Proof.
  induction 1 as [| x l1 l2 _ IH | x y l | l1 l2 l3 _ IH1 _ IH2]; simpl.
  - reflexivity.
  - rewrite IH. reflexivity.
  - ring.
  - rewrite IH1. exact IH2.
Qed.

Lemma mean_cell_perm (l1 l2 : list Q) : Permutation l1 l2 -> mean_cell l1 = mean_cell l2.
Proof.
  intros H. pose proof (Permutation_length H) as Hl. pose proof (Qsum_perm _ _ H) as Hq.
  destruct l1 as [| a l1], l2 as [| b l2]; try discriminate Hl; [reflexivity |].
  unfold mean_cell. f_equal. apply Qred_complete. rewrite Hq, Hl. reflexivity.
Qed.

Lemma sorted_same_members (l1 : list Z) :
  forall l2, StronglySorted Z.lt l1 -> StronglySorted Z.lt l2 ->
             (forall y, In y l1 <-> In y l2) -> l1 = l2.
Proof.
  induction l1 as [| a l1 IH]; intros [| b l2] S1 S2 H.
  - reflexivity.
  - exfalso. apply (proj2 (H b)). left. reflexivity.
  - exfalso. apply (proj1 (H a)). left. reflexivity.
  - inversion S1 as [| ? ? S1' A1]; subst. inversion S2 as [| ? ? S2' A2]; subst.
    rewrite Forall_forall in A1, A2.
    assert (a = b).
    { destruct (proj1 (H a) (or_introl eq_refl)) as [-> | Ha]; [reflexivity |].
      destruct (proj2 (H b) (or_introl eq_refl)) as [-> | Hb]; [reflexivity |].
      specialize (A1 b Hb). specialize (A2 a Ha). lia. }
    subst b. f_equal. apply IH; [exact S1' | exact S2' |].
    intros y. split; intros Hy.
    + destruct (proj1 (H y) (or_intror Hy)) as [<- | Hy']; [| exact Hy'].
      specialize (A1 a Hy). lia.
    + destruct (proj2 (H y) (or_intror Hy)) as [<- | Hy']; [| exact Hy'].
      specialize (A2 a Hy). lia.
Qed.

Lemma dt_year_of_cell (c : cell) : is_year_cell c = true -> dt_year (dt_of_cell c) = c.
Proof.
  destruct c as [q | | s]; intros H; [| reflexivity | discriminate H].
  simpl. rewrite <- (year_cell_num q H). reflexivity.
Qed.

(** The key and value columns of a frame, as timestamps and values. *)
Lemma year_keys_of_rows (i : nat) (rs : list (list cell)) :
  (forall r, In r rs -> is_year_cell (nth i r NaN) = true) ->
  map (fun r => nth i r NaN) rs
  = map dt_year (map (fun r => dt_of_cell (nth i r NaN)) rs).
Proof.
  intros H. rewrite map_map. apply map_ext_in. intros r Hr.
  symmetry. apply dt_year_of_cell, H, Hr.
Qed.

Lemma existsb_perm {A : Type} (f : A -> bool) (l1 l2 : list A) :
  Permutation l1 l2 -> existsb f l1 = existsb f l2.
Proof.
  intros H. apply eq_true_iff_eq. rewrite !existsb_exists.
  split; intros [x [Hx Hf]]; exists x; split; try exact Hf.
  - apply (Permutation_in _ H Hx).
  - apply (Permutation_in _ (Permutation_sym H) Hx).
Qed.

(** X13.  On a frame whose [date] column holds years, the result of
    [groupby("date")["value"].mean().reset_index()] does not depend on the
    order of the rows: a permutation of the rows gives the same frame, or
    the same exception.  (Values are exact rationals here; the rounding
    of a floating-point sum, which may depend on the order, is not
    modelled.) *)
Theorem groupby_mean_order_irrelevant (cols : list string) (rs1 rs2 : list (list cell)) :
  Permutation rs1 rs2 ->
  (forall r, In r rs1 -> is_year_cell (date_of (mkFrame cols rs1) r) = true) ->
  groupby_mean "date" "value" (mkFrame cols rs1)
  = groupby_mean "date" "value" (mkFrame cols rs2).
Proof.
  intros Hp Hy. unfold groupby_mean, getcol, date_of in *. cbn [columns rows] in *.
  destruct (col_index "date" cols) as [i |]; [| reflexivity].
  destruct (col_index "value" cols) as [j |]; [| reflexivity].
  cbn [obind].
  assert (Hy2 : forall r, In r rs2 -> is_year_cell (nth i r NaN) = true)
    by (intros r Hr; apply Hy, (Permutation_in _ (Permutation_sym Hp) Hr)).
  rewrite (year_keys_of_rows i rs1 Hy), (year_keys_of_rows i rs2 Hy2).
  set (ts1 := map (fun r => dt_of_cell (nth i r NaN)) rs1).
  set (ts2 := map (fun r => dt_of_cell (nth i r NaN)) rs2).
  set (vs1 := map (fun r => nth j r NaN) rs1).
  set (vs2 := map (fun r => nth j r NaN) rs2).
  assert (L1 : List.length ts1 = List.length vs1)
    by (unfold ts1, vs1; rewrite !length_map; reflexivity).
  assert (L2 : List.length ts2 = List.length vs2)
    by (unfold ts2, vs2; rewrite !length_map; reflexivity).
  assert (Hc : Permutation (combine ts1 vs1) (combine ts2 vs2)).
  { unfold ts1, ts2, vs1, vs2. rewrite !combine_maps. apply Permutation_map, Hp. }
  assert (Hs : keyed_text ts1 vs1 = keyed_text ts2 vs2)
    by (apply existsb_perm, Hc).
  destruct (group_rows (map dt_year ts1) vs1 []) as [gs1 |] eqn:E1;
    destruct (group_rows (map dt_year ts2) vs2 []) as [gs2 |] eqn:E2; cbn [obind].
  - destruct (group_rows_means ts1 vs1 gs1 E1) as (ys1 & S1 & M1 & R1).
    destruct (group_rows_means ts2 vs2 gs2 E2) as (ys2 & S2 & M2 & R2).
    unfold Group in *. rewrite R1, R2. do 2 f_equal.
    assert (ys1 = ys2) as <-.
    { apply sorted_same_members; [exact S1 | exact S2 |].
      intros y. rewrite M1, M2, !stamp_years_flat.
      split; apply Permutation_in, Permutation_flat_map;
        [exact Hc | apply Permutation_sym, Hc]. }
    apply map_ext. intros y. do 2 f_equal. apply mean_cell_perm.
    rewrite !year_values_flat. apply Permutation_flat_map, Hc.
  - apply (group_rows_fails_iff ts2 vs2 []) in E2. rewrite <- Hs in E2.
    apply (group_rows_fails_iff ts1 vs1 []) in E2. congruence.
  - apply (group_rows_fails_iff ts1 vs1 []) in E1. rewrite Hs in E1.
    apply (group_rows_fails_iff ts2 vs2 []) in E1. congruence.
  - reflexivity.
Qed.

Lemma groupby_mean_order_irrelevant_witness :
  groupby_mean "date" "value"
    (mkFrame ["date"; "value"] [[Num 2000; Num 5]; [Num 2001; Num 9]; [Num 2000; Num 7]])
  = groupby_mean "date" "value"
      (mkFrame ["date"; "value"] [[Num 2001; Num 9]; [Num 2000; Num 7]; [Num 2000; Num 5]]).
Proof.
  apply (groupby_mean_order_irrelevant ["date"; "value"]
           [[Num 2000; Num 5]; [Num 2001; Num 9]; [Num 2000; Num 7]]
           [[Num 2001; Num 9]; [Num 2000; Num 7]; [Num 2000; Num 5]]).
  - apply perm_trans with [[Num 2001; Num 9]; [Num 2000; Num 5]; [Num 2000; Num 7]].
    + apply perm_swap.
    + apply perm_skip, perm_swap.
  - intros r Hr. simpl in Hr.
    repeat (destruct Hr as [<- | Hr]; [reflexivity |]). contradiction.
Defined.

Lemma stamp_years_length (ts : list datetime) :
  forall vs, (List.length (stamp_years ts vs) <= List.length vs)%nat.
Proof.
  induction ts as [| t ts IH]; intros [| v vs]; simpl; try lia.
  - destruct t; simpl; lia.
  - specialize (IH vs). destruct t; simpl; lia.
Qed.

Lemma stamp_years_of_rows (i j : nat) (rs : list (list cell)) (y : Z) :
  (forall r, In r rs -> is_year_cell (nth i r NaN) = true) ->
  (In y (stamp_years (map (fun r => dt_of_cell (nth i r NaN)) rs)
                     (map (fun r => nth j r NaN) rs))
   <-> exists r, In r rs /\ nth i r NaN = Num (inject_Z y)).
Proof.
  intros Hy. rewrite stamp_years_flat, combine_maps, in_flat_map. split.
  - intros [p [Hp Hin]]. apply in_map_iff in Hp. destruct Hp as [r [<- Hr]].
    cbn [fst] in Hin. exists r. split; [exact Hr |].
    specialize (Hy r Hr). destruct (nth i r NaN) as [q | | s]; simpl in Hin;
      try contradiction.
    destruct Hin as [<- | []]. f_equal. apply year_cell_num, Hy.
  - intros [r [Hr E]]. exists (dt_of_cell (nth i r NaN), nth j r NaN). split.
    + apply in_map_iff. exists r. split; [reflexivity | exact Hr].
    + cbn [fst]. rewrite E. simpl. left. reflexivity.
Qed.

Lemma year_values_of_rows (i j : nat) (rs : list (list cell)) (y : Z) (q : Q) :
  (forall r, In r rs -> is_year_cell (nth i r NaN) = true) ->
  In q (year_values y (map (fun r => dt_of_cell (nth i r NaN)) rs)
                      (map (fun r => nth j r NaN) rs)) ->
  exists r, In r rs /\ nth i r NaN = Num (inject_Z y) /\ nth j r NaN = Num q.
Proof.
  intros Hy. rewrite year_values_flat, combine_maps, in_flat_map.
  intros [p [Hp Hin]]. apply in_map_iff in Hp. destruct Hp as [r [<- Hr]].
  cbn [fst snd] in Hin. exists r. split; [exact Hr |].
  specialize (Hy r Hr). destruct (nth i r NaN) as [d | | s]; simpl in Hin;
    try contradiction.
  destruct (nth j r NaN) as [v | | s]; try contradiction.
  cbn [year] in Hin. destruct (Qnum d =? y) eqn:E; [| contradiction].
  destruct Hin as [<- | []]. apply Z.eqb_eq in E. subst y.
  split; [| reflexivity]. f_equal. apply year_cell_num, Hy.
Qed.

(** X14.  On a frame whose [date] column holds years, when the grouping
    returns, the result has the two columns [date] and [value] and no more
    rows than the frame it groups; its [date] column lists, in ascending
    order and each once, exactly the years that occur in the frame (rows
    without a date contribute nothing); and a year none of whose rows
    holds a number has a missing mean. *)
Theorem groupby_mean_groups (cols : list string) (rs : list (list cell))
    (out : DataFrame) (i j : nat) :
  (forall r, In r rs -> is_year_cell (date_of (mkFrame cols rs) r) = true) ->
  col_index "date" cols = Some i ->
  col_index "value" cols = Some j ->
  groupby_mean "date" "value" (mkFrame cols rs) = Some out ->
  columns out = ["date"; "value"] /\
  (List.length (rows out) <= List.length rs)%nat /\
  exists ys,
    StronglySorted Z.lt ys /\
    map (fun r => nth 0 r NaN) (rows out) = map (fun y => Num (inject_Z y)) ys /\
    (forall y, In y ys <-> exists r, In r rs /\ nth i r NaN = Num (inject_Z y)) /\
    (forall r y, In r (rows out) -> nth 0 r NaN = Num (inject_Z y) ->
       (forall r', In r' rs -> nth i r' NaN = Num (inject_Z y) ->
                   is_num (nth j r' NaN) = false) ->
       nth 1 r NaN = NaN).
Proof.
  intros Hy Hi Hj. unfold groupby_mean, getcol, date_of in *. cbn [columns rows] in *.
  rewrite Hi in *. rewrite Hj. cbn [obind].
  rewrite (year_keys_of_rows i rs Hy).
  set (ts := map (fun r => dt_of_cell (nth i r NaN)) rs).
  set (vs := map (fun r => nth j r NaN) rs).
  destruct (group_rows (map dt_year ts) vs []) as [gs |] eqn:E; [| discriminate].
  cbn [obind]. intros H. injection H as <-. cbn [rows columns].
  destruct (group_rows_means ts vs gs E) as (ys & S & M & R).
  unfold Group in *. rewrite R. split; [reflexivity |]. split.
  - rewrite length_map.
    apply Nat.le_trans with (List.length (stamp_years ts vs)).
    + apply NoDup_incl_length; [apply StronglySorted_lt_NoDup, S |].
      intros y Hin. apply M, Hin.
    + apply Nat.le_trans with (List.length vs); [apply stamp_years_length |].
      unfold vs. rewrite length_map. apply Nat.le_refl.
  - exists ys. split; [exact S |]. split; [rewrite map_map; reflexivity |]. split.
    + intros y. rewrite M. apply (stamp_years_of_rows i j rs y Hy).
    + intros r y Hr E0 Hno. apply in_map_iff in Hr. destruct Hr as [y' [<- _]].
      cbn [nth] in *. injection E0 as E0. subst y'.
      destruct (year_values y ts vs) as [| q l] eqn:Ev; [reflexivity |].
      destruct (year_values_of_rows i j rs y q Hy) as (r' & Hr' & Ed & Eq).
      { fold ts vs. rewrite Ev. left. reflexivity. }
      specialize (Hno r' Hr' Ed). rewrite Eq in Hno. discriminate Hno.
Qed.

Lemma groupby_mean_groups_witness :
  let rs := [[Num 2000; Num 5]; [Num 2001; NaN]; [NaN; Num 3]; [Num 2000; Num 7]] in
  let out := mkFrame ["date"; "value"] [[Num 2000; Num 6]; [Num 2001; NaN]] in
  columns out = ["date"; "value"] /\
  (List.length (rows out) <= List.length rs)%nat /\
  exists ys,
    StronglySorted Z.lt ys /\
    map (fun r => nth 0 r NaN) (rows out) = map (fun y => Num (inject_Z y)) ys /\
    (forall y, In y ys <-> exists r, In r rs /\ nth 0 r NaN = Num (inject_Z y)) /\
    (forall r y, In r (rows out) -> nth 0 r NaN = Num (inject_Z y) ->
       (forall r', In r' rs -> nth 0 r' NaN = Num (inject_Z y) ->
                   is_num (nth 1 r' NaN) = false) ->
       nth 1 r NaN = NaN).
Proof.
  apply (groupby_mean_groups ["date"; "value"]
           [[Num 2000; Num 5]; [Num 2001; NaN]; [NaN; Num 3]; [Num 2000; Num 7]]
           (mkFrame ["date"; "value"] [[Num 2000; Num 6]; [Num 2001; NaN]]) 0 1).
  - intros r Hr. simpl in Hr.
    repeat (destruct Hr as [<- | Hr]; [reflexivity |]). contradiction.
  - reflexivity.
  - reflexivity.
  - reflexivity.
Defined.

(** ** The slider at full range *)

Lemma int_dated_year_dated (T : DataFrame) : int_dated T = true -> year_dated T = true.
Proof.
  unfold int_dated, year_dated.
  destruct (col_index "date" (columns T)) as [i |]; [| discriminate].
  rewrite !forallb_forall. intros H r Hr. specialize (H r Hr).
  destruct (nth i r NaN); try discriminate H. exact H.
Qed.

Lemma int_dated_has_dates (T : DataFrame) : int_dated T = true -> has_dates T = true.
Proof.
  unfold int_dated, has_dates.
  destruct (col_index "date" (columns T)) as [i |]; [| discriminate].
  rewrite !forallb_forall. intros H r Hr. specialize (H r Hr).
  destruct (nth i r NaN); try discriminate H. reflexivity.
Qed.

(** A row of a table of integer years carries one of the table's years. *)
Lemma int_dated_row (T : DataFrame) (r : list cell) :
  int_dated T = true -> In r (rows T) ->
  exists y, date_of T r = Num (inject_Z y) /\ In y (table_years T).
Proof.
  unfold int_dated, date_of, table_years, getcol.
  destruct (col_index "date" (columns T)) as [i |]; [| discriminate].
  cbn [obind]. rewrite forallb_forall. intros H Hr. specialize (H r Hr).
  destruct (nth i r NaN) as [q | |] eqn:E; try discriminate H.
  exists (Qnum q). split.
  - f_equal. apply year_cell_num. exact H.
  - unfold years_in. apply in_flat_map. exists (Num q). split; [| left; reflexivity].
    apply in_map_iff. exists r. auto.
Qed.

Lemma in_range_year (lo hi y : Z) : lo <= y <= hi -> in_range lo hi (Num (inject_Z y)).
Proof.
  intros [H1 H2]. exists (inject_Z y). rewrite <- !Zle_Qle. auto.
Qed.

(** X15.  For three tables of integer years, the temperature table not
    empty: the bounds of lines 94-95 are computed, and filtering by the
    whole span between them returns each of the three tables unchanged
    (the slider at full range hides nothing). *)
Theorem full_range_shows_everything (t l e : DataFrame) :
  int_dated t = true -> int_dated l = true -> int_dated e = true ->
  has_number t = true ->
  exists lo hi,
    year_min t l e = Some lo /\ year_max t l e = Some hi /\
    range_filter (lo, hi) t = Some t /\
    range_filter (lo, hi) l = Some l /\
    range_filter (lo, hi) e = Some e.
Proof.
  intros Ht Hl He Hn.
  destruct (year_bounds_cover t l e (int_dated_year_dated t Ht) (int_dated_year_dated l Hl)
              (int_dated_year_dated e He) Hn) as (lo & hi & Hlo & Hhi & _ & _ & Hall).
  exists lo, hi. split; [exact Hlo |]. split; [exact Hhi |].
  assert (Hfull : forall T, int_dated T = true ->
                            (forall y, In y (table_years T) -> lo <= y <= hi) ->
                            range_filter (lo, hi) T = Some T).
  { intros T HT Hy. rewrite (range_filter_rows T lo hi (int_dated_has_dates T HT)).
    rewrite filter_all.
    - destruct T. reflexivity.
    - intros r Hr. apply in_rangeb_iff.
      destruct (int_dated_row T r HT Hr) as [y [-> Hin]].
      apply in_range_year, Hy, Hin. }
  repeat split; apply Hfull; try assumption; intros y Hy; apply Hall;
    rewrite !in_app_iff; auto.
Qed.

Lemma full_range_shows_everything_witness :
  exists lo hi,
    year_min sample_emission sample_emission sample_emission = Some lo /\
    year_max sample_emission sample_emission sample_emission = Some hi /\
    range_filter (lo, hi) sample_emission = Some sample_emission /\
    range_filter (lo, hi) sample_emission = Some sample_emission /\
    range_filter (lo, hi) sample_emission = Some sample_emission.
Proof.
  apply (full_range_shows_everything sample_emission sample_emission sample_emission);
    reflexivity.
Defined.

(** ** What makes a [try] block raise *)

Lemma series_le_fails_iff (d : Series) (y : Z) :
  series_le d y = None <-> existsb is_str d = true.
Proof.
  unfold series_le. induction d as [| c d IH]; simpl.
  - split; discriminate.
  - destruct c as [q | | s]; simpl.
    + destruct (mapM (cell_le y) d); simpl; rewrite <- IH; split; congruence.
    + destruct (mapM (cell_le y) d); simpl; rewrite <- IH; split; congruence.
    + split; reflexivity.
Qed.

(** X16.  Let the remote temperature file parse to a frame without a
    column already called [date].  The [try] block raises exactly when
    the frame has no [Year] column, or no [J-D] column, or text in its
    [Year] column; text or gaps in the [J-D] column do not make it
    raise. *)
Theorem temp_try_fails_iff (w : World) (df : DataFrame) :
  read_csv w temp_url 1 = Some df ->
  ~ In "date" (columns df) ->
  (temp_try w = None <->
   getcol "Year" df = None \/
   getcol "J-D" df = None \/
   exists d, getcol "Year" df = Some d /\ existsb is_str d = true).
Proof.
  intros Hread Hnd. unfold temp_try. rewrite Hread.
  unfold select, rename. cbn [obind mapM columns rows].
  rewrite (col_index_year_renamed _ Hnd), col_index_jd_renamed.
  unfold getcol at 2 3 4.
  destruct (col_index "Year" (columns df)) as [iy |]; cbn [obind];
    [| split; [left; reflexivity | reflexivity]].
  destruct (col_index "J-D" (columns df)) as [iv |]; cbn [obind];
    [| split; [right; left; reflexivity | reflexivity]].
  cbn [columns rows].
  change (map (lookup_label [("J-D", "value")]) ["date"; "J-D"]) with ["date"; "value"].
  rewrite getcol_date_first. cbn [obind]. rewrite map_map. cbn [nth map].
  destruct (series_le (map (fun r => nth iy r NaN) (rows df)) (now_year w))
    as [m |] eqn:E; cbn [obind].
  - split; [discriminate |]. intros [H | [H | [d [Hd Hs]]]]; try discriminate.
    injection Hd as <-. apply series_le_fails_iff with (y := now_year w) in Hs.
    congruence.
  - split; [| reflexivity]. intros _. right. right. eexists. split; [reflexivity |].
    apply (series_le_fails_iff _ (now_year w)). exact E.
Qed.

Lemma temp_try_fails_iff_witness :
  temp_try (serving gistemp_text_year) = None <->
  getcol "Year" gistemp_text_year = None \/
  getcol "J-D" gistemp_text_year = None \/
  exists d, getcol "Year" gistemp_text_year = Some d /\ existsb is_str d = true.
Proof.
  apply (temp_try_fails_iff (serving gistemp_text_year) gistemp_text_year).
  - reflexivity.
  - simpl. intros [H | [H | []]]; discriminate H.
Defined.

Section SeaLevelFailures.

Variable to_datetime : Series -> option (list datetime).

Hypothesis to_datetime_length :
  forall d ts, to_datetime d = Some ts -> List.length ts = List.length d.

(** X17.  Let the remote sea-level file parse to a frame without columns
    already called [date] or [value].  The [try] block raises exactly
    when the frame has no [Time] column, or its [Time] column does not
    parse as timestamps, or it has no [GMSL] column, or some row whose
    [Time] parsed to a timestamp holds text in [GMSL].  Text in a row
    whose time is missing does not raise: the row is dropped before the
    mean is taken. *)
Theorem sea_try_fails_iff (w : World) (df : DataFrame) :
  read_csv w sea_url 0 = Some df ->
  ~ In "date" (columns df) ->
  ~ In "value" (columns df) ->
  (sea_try to_datetime w = None <->
   getcol "Time" df = None \/
   (exists d, getcol "Time" df = Some d /\ to_datetime d = None) \/
   getcol "GMSL" df = None \/
   exists d ts v, getcol "Time" df = Some d /\ to_datetime d = Some ts /\
                  getcol "GMSL" df = Some v /\ keyed_text ts v = true).
Proof.
  intros Hread Hd Hv. unfold sea_try. rewrite Hread. cbn [obind].
  set (df' := rename [("Time", "date"); ("GMSL", "value")] df).
  assert (Gd : getcol "date" df' = getcol "Time" df).
  { unfold getcol, df', rename. cbn [columns rows].
    rewrite (col_index_time_renamed _ Hd). reflexivity. }
  assert (Gv : getcol "value" df' = getcol "GMSL" df).
  { unfold getcol, df', rename. cbn [columns rows].
    rewrite (col_index_gmsl_renamed _ Hv). reflexivity. }
  destruct (getcol "Time" df) as [d |] eqn:Ed; rewrite Gd; cbn [obind];
    [| split; [left; reflexivity | reflexivity]].
  destruct (to_datetime d) as [ts |] eqn:Et; cbn [obind];
    [| split; [right; left; exists d; auto | reflexivity]].
  assert (Hl : List.length (map dt_year ts) = List.length (rows df')).
  { rewrite length_map, (to_datetime_length d ts Et).
    apply (getcol_length _ _ _ Gd). }
  assert (Hi : exists i, col_index "date" (columns df') = Some i).
  { unfold getcol in Gd.
    destruct (col_index "date" (columns df')) as [i |];
      [exists i; reflexivity | discriminate]. }
  destruct Hi as [i Hi]. unfold groupby_mean.
  rewrite (getcol_setcol_same "date" _ df' i Hi Hl). cbn [obind].
  rewrite (getcol_setcol_other "date" "value" _ df' i Hi Hl) by discriminate.
  destruct (getcol "GMSL" df) as [vs |] eqn:Ev; rewrite Gv; cbn [obind];
    [| split; [right; right; left; reflexivity | reflexivity]].
  destruct (group_rows (map dt_year ts) vs []) as [gs |] eqn:Eg; cbn [obind].
  - destruct (group_rows_means ts vs gs Eg) as (ys & _ & _ & R).
    unfold Group in *. rewrite R, getcol_date_first, map_map. cbn [obind nth].
    rewrite series_le_years. cbn [obind].
    split; [discriminate |].
    intros [H | [[d' [Hd' Ht]] | [H | (d' & ts' & v & Hd' & Ht & Hv' & Hs)]]];
      try discriminate.
    + injection Hd' as <-. rewrite Et in Ht. discriminate Ht.
    + injection Hd' as <-. rewrite Et in Ht. injection Ht as <-.
      injection Hv' as <-.
      pose proof (proj2 (group_rows_fails_iff ts vs []) Hs) as Hn.
      unfold Group in Hn. rewrite Eg in Hn. discriminate Hn.
  - split; [| reflexivity]. intros _. right. right. right. exists d, ts, vs.
    repeat split; try reflexivity; try assumption.
    apply (group_rows_fails_iff ts vs []). exact Eg.
Qed.

End SeaLevelFailures.

Lemma sea_try_fails_iff_witness :
  sea_try iso_to_datetime (serving gmsl_text) = None.
Proof.
  apply (sea_try_fails_iff iso_to_datetime iso_to_datetime_length
                           (serving gmsl_text) gmsl_text).
  - reflexivity.
  - simpl. intros [H | [H | []]]; discriminate H.
  - simpl. intros [H | [H | []]]; discriminate H.
  - right. right. right.
    exists [Str "2000-01"; Str "2000-06"; NaN],
           [Stamp (mkTimestamp 2000 1 1); Stamp (mkTimestamp 2000 6 1); NaT],
           [Num 5; Str "n/a"; Str "n/a"].
    repeat split; reflexivity.
Defined.

Lemma emission_redrawn_witness :
  exists q : nat,
    forall i, (i < 33)%nat ->
      exists g1 g2,
        nth 1 (nth i (rows (snd (fst (load_tables iso_to_datetime offline_world
                                                  fresh_runtime)))) []) NaN = Num g1 /\
        nth 1 (nth i (rows (snd (fst (load_tables iso_to_datetime sample_world
                                        (snd (load_tables iso_to_datetime offline_world
                                                          fresh_runtime)))))) []) NaN
        = Num g2 /\
        (g1 == 300 + inject_Z (Z.of_nat i) * (450 / 32)
               + 20 * gauss (rng fresh_runtime) (q + i))%Q /\
        (g2 == 300 + inject_Z (Z.of_nat i) * (450 / 32)
               + 20 * gauss (rng fresh_runtime) (q + 99 + i))%Q.
Proof. exact (emission_redrawn iso_to_datetime offline_world sample_world fresh_runtime). Defined.

(** ** The download *)

Lemma sapp_assoc (a b c : string) : ((a ++ b) ++ c = a ++ (b ++ c))%string.
Proof. induction a as [| x a IH]; simpl; [reflexivity | rewrite IH; reflexivity]. Qed.

Lemma strip_bom_encode (text : string) : strip_bom (encode_utf_8_sig text) = text.
Proof. reflexivity. Qed.

(** *** The reader on what the writer wrote *)

Lemma records_plain_char (c : ascii) (cur : option string) (row : list string)
    (s : string) :
  special c = false ->
  records false cur row (String c s) = records false (push cur c) row s.
Proof.
  unfold special. intros H.
  apply orb_false_iff in H. destruct H as [H H4].
  apply orb_false_iff in H. destruct H as [H H3].
  apply orb_false_iff in H. destruct H as [H1 H2].
  cbn [records]. rewrite H1, H4, H3, H2. reflexivity.
Qed.

Lemma records_plain (f : string) :
  forall cur row rest,
    plain f = true -> f <> EmptyString ->
    records false cur row (f ++ rest)%string
    = records false (Some (field_of cur ++ f)%string) row rest.
Proof.
  induction f as [| c f IH]; intros cur row rest Hp Hn; [contradiction Hn; reflexivity |].
  cbn [plain] in Hp. apply andb_true_iff in Hp. destruct Hp as [Hc Hp].
  apply negb_true_iff in Hc.
  change (String c f ++ rest)%string with (String c (f ++ rest)%string).
  rewrite (records_plain_char c cur row _ Hc).
  destruct f as [| c' f'].
  - reflexivity.
  - rewrite IH by (assumption || discriminate).
    unfold push. cbn [field_of]. rewrite sapp_assoc. reflexivity.
Qed.

Lemma records_line_end (lt f : string) (row : list string) (rest : string) :
  lt = String LF EmptyString \/ lt = String CR (String LF EmptyString) ->
  records false (Some f) row (lt ++ rest)%string
  = option_map (cons (rev (f :: row))) (records false None [] rest).
Proof. intros [-> | ->]; reflexivity. Qed.

Lemma records_fields (lt : string) (fs : list string) :
  lt = String LF EmptyString \/ lt = String CR (String LF EmptyString) ->
  forall row rest,
    fs <> [] ->
    Forall (fun f => plain f = true /\ f <> EmptyString) fs ->
    records false None row (String.concat "," fs ++ (lt ++ rest))%string
    = option_map (cons (rev row ++ fs)) (records false None [] rest).
Proof.
  intros Hlt. induction fs as [| f fs IH]; intros row rest Hne Hall;
    [contradiction Hne; reflexivity |].
  inversion Hall as [| ? ? [Hp Hn] Hall']; subst.
  destruct fs as [| g fs'].
  - cbn [String.concat]. rewrite (records_plain f None row _ Hp Hn). cbn [field_of].
    change (EmptyString ++ f)%string with f.
    rewrite (records_line_end lt f row rest Hlt). reflexivity.
  - change (String.concat "," (f :: g :: fs'))
      with (f ++ String comma (String.concat "," (g :: fs')))%string.
    rewrite sapp_assoc. rewrite (records_plain f None row _ Hp Hn). cbn [field_of].
    change (EmptyString ++ f)%string with f.
    change (records false (Some f) row
              (String comma (String.concat "," (g :: fs')) ++ (lt ++ rest))%string)
      with (records false None (f :: row)
              (String.concat "," (g :: fs') ++ (lt ++ rest))%string).
    rewrite (IH (f :: row) rest) by (discriminate || assumption).
    cbn [rev]. rewrite <- app_assoc. reflexivity.
Qed.

Lemma map_quote_plain (fs : list string) :
  Forall (fun f => plain f = true /\ f <> EmptyString) fs -> map quote_minimal fs = fs.
Proof.
  induction 1 as [| f fs [Hp _] _ IH]; [reflexivity |].
  cbn [map]. rewrite IH. unfold quote_minimal. rewrite Hp. reflexivity.
Qed.

(** A record of fields that need no quoting is the fields joined by
    commas. *)
Lemma writerow_plain (lt : string) (fs : list string) :
  Forall (fun f => plain f = true /\ f <> EmptyString) fs ->
  writerow lt fs = (String.concat "," fs ++ lt)%string.
Proof.
  intros Hall. pose proof (map_quote_plain fs Hall) as Hm.
  destruct fs as [| f [| g fs']].
  - reflexivity.
  - inversion Hall as [| ? ? [Hp Hn] _]; subst. unfold writerow.
    apply String.eqb_neq in Hn. rewrite Hn. unfold quote_minimal. rewrite Hp.
    reflexivity.
  - unfold writerow. rewrite Hm. reflexivity.
Qed.

Lemma records_lines (lt : string) (lines : list (list string)) :
  lt = String LF EmptyString \/ lt = String CR (String LF EmptyString) ->
  Forall (fun fs => fs <> [] /\ Forall (fun f => plain f = true /\ f <> EmptyString) fs)
         lines ->
  join_lines (map (writerow lt) lines)
  = join_lines (map (fun fs => String.concat "," fs ++ lt)%string lines) /\
  records false None [] (join_lines (map (writerow lt) lines)) = Some lines.
Proof.
  intros Hlt. induction 1 as [| fs lines [Hne Hall] _ [IH1 IH2]].
  - split; reflexivity.
  - cbn [map join_lines]. rewrite (writerow_plain lt fs Hall). split.
    + rewrite IH1. reflexivity.
    + rewrite sapp_assoc. rewrite (records_fields lt fs Hlt [] _ Hne Hall).
      rewrite IH2. reflexivity.
Qed.

(** *** The texts of a row of numbers *)

Lemma row_texts_length (nt : nat -> Q -> string) (r : list cell) :
  forall k, List.length (row_texts nt k r) = List.length r.
Proof. induction r as [| c r IH]; intros k; simpl; [reflexivity | rewrite IH; reflexivity]. Qed.

Lemma row_texts_nth (nt : nat -> Q -> string) (r : list cell) :
  forall k j, (j < List.length r)%nat ->
              nth j (row_texts nt k r) EmptyString = cell_text nt (k + j) (nth j r NaN).
Proof.
  induction r as [| c r IH]; intros k j Hj; simpl in Hj; [lia |].
  destruct j as [| j]; cbn [row_texts nth].
  - rewrite Nat.add_0_r. reflexivity.
  - rewrite IH by lia. rewrite Nat.add_succ_r. reflexivity.
Qed.

Lemma row_texts_all (nt : nat -> Q -> string) (P : string -> Prop) (r : list cell) :
  forall k,
    forallb is_num r = true ->
    (forall j q, nth_error r j = Some (Num q) -> P (nt (k + j)%nat q)) ->
    Forall P (row_texts nt k r).
Proof.
  induction r as [| c r IH]; intros k Hn H; [constructor |].
  cbn [forallb] in Hn. apply andb_true_iff in Hn. destruct Hn as [Hc Hn].
  destruct c as [q | | s]; try discriminate Hc.
  cbn [row_texts cell_text]. constructor.
  - specialize (H O q eq_refl). rewrite Nat.add_0_r in H. exact H.
  - apply IH; [exact Hn |]. intros j q' Hj.
    specialize (H (S j) q' Hj). rewrite Nat.add_succ_r in H. exact H.
Qed.

Lemma numeric_table_row (df : DataFrame) (r : list cell) :
  numeric_table df = true -> In r (rows df) ->
  List.length r = List.length (columns df) /\ forallb is_num r = true.
Proof.
  unfold numeric_table. rewrite forallb_forall. intros H Hr.
  specialize (H r Hr). apply andb_true_iff in H. destruct H as [Hl Hn].
  apply Nat.eqb_eq in Hl. split; assumption.
Qed.

Lemma is_num_nth (r : list cell) (j : nat) :
  forallb is_num r = true -> (j < List.length r)%nat ->
  exists q, nth j r NaN = Num q /\ nth_error r j = Some (Num q).
Proof.
  revert j. induction r as [| c r IH]; intros j Hn Hj; simpl in Hj; [lia |].
  cbn [forallb] in Hn. apply andb_true_iff in Hn. destruct Hn as [Hc Hn].
  destruct j as [| j].
  - destruct c as [q | | s]; try discriminate Hc. exists q. split; reflexivity.
  - apply (IH j Hn). lia.
Qed.

Lemma Forall2_map_same {A B : Type} (R : A -> B -> Prop) (f : A -> B) (l : list A) :
  (forall x, In x l -> R x (f x)) -> Forall2 R l (map f l).
Proof.
  induction l as [| x l IH]; intros H; [constructor |].
  cbn [map]. constructor; [apply H; left; reflexivity |].
  apply IH. intros y Hy. apply H. right. exact Hy.
Qed.

Lemma Forall2_map_seq {B : Type} (R : cell -> B -> Prop) (g : nat -> B) (r : list cell) :
  forall k,
    (forall j, (j < List.length r)%nat -> R (nth j r NaN) (g (k + j)%nat)) ->
    Forall2 R r (map g (seq k (List.length r))).
Proof.
  induction r as [| c r IH]; intros k H; [constructor |].
  cbn [List.length seq map]. constructor.
  - specialize (H O). rewrite Nat.add_0_r in H. apply H. simpl. lia.
  - apply IH. intros j Hj. specialize (H (S j)).
    rewrite Nat.add_succ_r in H. apply H. simpl. lia.
Qed.

(** *** A table of numbers, written and read back *)

Section NumericTables.

Variable number_text : nat -> Q -> string.
Variable lineterminator : string.
Variable read_number : string -> option Q.
Variable tol : Q.

Hypothesis lineterminator_host :
  lineterminator = String LF EmptyString \/
  lineterminator = String CR (String LF EmptyString).

Variable df : DataFrame.

Hypothesis labels_plain :
  columns df <> [] /\
  Forall (fun f => plain f = true /\ f <> EmptyString) (columns df).
Hypothesis cells_numeric : numeric_table df = true.
Hypothesis cells_format : formats_well number_text read_number tol df.

Lemma row_texts_plain (r : list cell) :
  In r (rows df) ->
  row_texts number_text 0 r <> [] /\
  Forall (fun f => plain f = true /\ f <> EmptyString) (row_texts number_text 0 r).
Proof.
  intros Hr. destruct (numeric_table_row df r cells_numeric Hr) as [Hl Hn]. split.
  - intros E. apply (f_equal (@List.length string)) in E.
    rewrite row_texts_length, Hl in E. destruct labels_plain as [Hc _].
    destruct (columns df); [contradiction Hc; reflexivity | discriminate E].
  - apply row_texts_all; [exact Hn |]. intros j q Hj.
    destruct (cells_format r j q Hr Hj) as (Hp & Hne & _). split; assumption.
Qed.

Lemma lines_plain :
  Forall (fun fs => fs <> [] /\ Forall (fun f => plain f = true /\ f <> EmptyString) fs)
         (columns df :: map (row_texts number_text 0) (rows df)).
Proof.
  constructor; [exact labels_plain |].
  apply Forall_forall. intros fs Hfs. apply in_map_iff in Hfs.
  destruct Hfs as [r [<- Hr]]. apply row_texts_plain, Hr.
Qed.

Lemma to_csv_lines :
  to_csv number_text lineterminator df
  = join_lines (map (writerow lineterminator)
                    (columns df :: map (row_texts number_text 0) (rows df))).
Proof. unfold to_csv. cbn [map join_lines]. rewrite map_map. reflexivity. Qed.

(** The text: the labels, then the numbers of each row, joined by commas. *)
Lemma to_csv_numeric :
  to_csv number_text lineterminator df
  = (String.concat "," (columns df) ++ lineterminator
     ++ join_lines (map (fun r => String.concat "," (row_texts number_text 0 r)
                                  ++ lineterminator)
                        (rows df)))%string.
Proof.
  rewrite to_csv_lines.
  rewrite (proj1 (records_lines lineterminator _ lineterminator_host lines_plain)).
  cbn [map join_lines]. rewrite map_map, sapp_assoc. reflexivity.
Qed.

Lemma numeric_column_texts (j : nat) :
  (j < List.length (columns df))%nat ->
  numeric_column read_number (map (row_texts number_text 0) (rows df)) j = true.
Proof.
  intros Hj. unfold numeric_column. apply forallb_forall. intros fs Hfs.
  apply in_map_iff in Hfs. destruct Hfs as [r [<- Hr]].
  destruct (numeric_table_row df r cells_numeric Hr) as [Hl Hn].
  rewrite <- Hl in Hj. destruct (is_num_nth r j Hn Hj) as (q & Eq & Eq').
  rewrite (row_texts_nth number_text r 0 j Hj), Eq. cbn [cell_text Nat.add].
  destruct (cells_format r j q Hr Eq') as (_ & _ & q' & Hq' & _).
  unfold numeric_field. rewrite Hq'. apply orb_true_r.
Qed.

(** Reading the download back gives the labels, and row by row numbers
    within the tolerance of the ones written. *)
Lemma reparse_numeric :
  exists back,
    reparse_csv read_number (csv number_text lineterminator df) = Some back /\
    table_close tol df back.
Proof.
  unfold reparse_csv, csv. rewrite strip_bom_encode, to_csv_lines.
  rewrite (proj2 (records_lines lineterminator _ lineterminator_host lines_plain)).
  assert (Hw : existsb (fun r => (List.length (columns df) <? List.length r)%nat)
                       (map (row_texts number_text 0) (rows df)) = false).
  { destruct (existsb _ _) eqn:E; [| reflexivity].
    apply existsb_exists in E. destruct E as [fs [Hfs Hlt]].
    apply in_map_iff in Hfs. destruct Hfs as [r [<- Hr]].
    destruct (numeric_table_row df r cells_numeric Hr) as [Hl _].
    rewrite row_texts_length, Hl in Hlt. apply Nat.ltb_lt in Hlt. lia. }
  rewrite Hw. eexists. split; [reflexivity |].
  split; [reflexivity |]. cbn [rows]. rewrite map_map.
  apply Forall2_map_same. intros r Hr.
  destruct (numeric_table_row df r cells_numeric Hr) as [Hl Hn].
  rewrite <- Hl. apply Forall2_map_seq. intros j Hj. cbn [Nat.add].
  destruct (is_num_nth r j Hn Hj) as (q & Eq & Eq').
  rewrite (row_texts_nth number_text r 0 j Hj), Eq. cbn [cell_text Nat.add].
  rewrite numeric_column_texts by (rewrite <- Hl; exact Hj).
  destruct (cells_format r j q Hr Eq') as (_ & Hne & q' & Hq' & Hclose).
  unfold read_cell. apply String.eqb_neq in Hne. rewrite Hne, Hq'. exact Hclose.
Qed.

End NumericTables.

(** *** The emission table *)

Lemma emission_numeric (s : Runtime) : numeric_table (fst (build_emission s)) = true.
Proof. reflexivity. Qed.

Lemma emission_labels_plain :
  ["date"; "총배출량"; "순배출량"; "CO2"] <> [] /\
  Forall (fun f => plain f = true /\ f <> EmptyString)
         ["date"; "총배출량"; "순배출량"; "CO2"].
Proof.
  split; [discriminate |].
  repeat (constructor; [split; [reflexivity | discriminate] |]). constructor.
Qed.

Lemma Some_inj {A : Type} (a b : A) : Some a = Some b -> a = b.
Proof. intros H. injection H as H. exact H. Qed.

(** What the filter returns on the emission table of a run. *)
Lemma filtered_emission_table (s : Runtime) (yr : Z * Z) (fe : DataFrame) :
  range_filter yr (fst (build_emission s)) = Some fe ->
  columns fe = ["date"; "총배출량"; "순배출량"; "CO2"] /\ numeric_table fe = true.
Proof.
  destruct yr as [lo hi].
  rewrite (range_filter_rows _ lo hi (build_emission_has_dates s)).
  intros H. apply Some_inj in H. subst fe. split; [reflexivity |].
  pose proof (emission_numeric s) as Hn. unfold numeric_table in *.
  change (columns (mkFrame ?c ?r)) with c. change (rows (mkFrame ?c ?r)) with r.
  rewrite forallb_forall in *.
  intros r Hr. apply filter_In in Hr. apply Hn, Hr.
Qed.

Section Download.

Variable number_text : nat -> Q -> string.
Variable lineterminator : string.
Variable read_number : string -> option Q.
Variable tol : Q.

Hypothesis lineterminator_host :
  lineterminator = String LF EmptyString \/
  lineterminator = String CR (String LF EmptyString).


End Download.

(** *** The three-decimal format *)

Lemma plain_app (a b : string) : plain (a ++ b)%string = plain a && plain b.
Proof.
  induction a as [| c a IH]; [reflexivity |].
  cbn [append plain]. rewrite IH. apply andb_assoc.
Qed.

Lemma plain_uint (d : Decimal.uint) : plain (NilEmpty.string_of_uint d) = true.
Proof. induction d; cbn [NilEmpty.string_of_uint plain]; try rewrite IHd; reflexivity. Qed.

Lemma plain_int (d : Decimal.signed_int) : plain (NilEmpty.string_of_int d) = true.
Proof.
  destruct d as [d | d]; cbn [NilEmpty.string_of_int plain]; rewrite plain_uint;
    reflexivity.
Qed.

Lemma length_app (a b : string) :
  String.length (a ++ b)%string = (String.length a + String.length b)%nat.
Proof. induction a as [| c a IH]; simpl; [reflexivity | rewrite IH; reflexivity]. Qed.

Lemma substring_all (b : string) : substring 0 (String.length b) b = b.
Proof. induction b as [| c b IH]; simpl; [reflexivity | rewrite IH; reflexivity]. Qed.

Lemma substring_app_r (a b : string) :
  substring (String.length a) (String.length b) (a ++ b)%string = b.
Proof. induction a as [| c a IH]; simpl; [apply substring_all | exact IH]. Qed.

Lemma substring_app_l (a b : string) :
  substring 0 (String.length a) (a ++ b)%string = a.
Proof.
  induction a as [| c a IH]; simpl; [destruct b; reflexivity | rewrite IH; reflexivity].
Qed.

Lemma read_milli_text (j : nat) (q : Q) :
  read_milli (milli_text j q) = Some (Qfloor (q * 1000) # 1000).
Proof.
  unfold read_milli, milli_text.
  set (a := NilEmpty.string_of_int (Z.to_int (Qfloor (q * 1000)))).
  rewrite length_app. change (String.length "e-3") with 3%nat.
  replace (String.length a + 3 - 3)%nat with (String.length a) by lia.
  replace (3 <=? String.length a + 3)%nat with true
    by (symmetry; apply Nat.leb_le; lia).
  pose proof (substring_app_r a "e-3") as Hr.
  change (String.length "e-3") with 3%nat in Hr.
  rewrite Hr, (substring_app_l a "e-3").
  cbn [andb]. rewrite String.eqb_refl. unfold a. rewrite NilEmpty.isi.
  cbn [option_map]. rewrite DecimalZ.of_to. reflexivity.
Qed.

Lemma milli_close (q : Q) : (Qabs ((Qfloor (q * 1000) # 1000) - q) <= 1 # 1000)%Q.
Proof.
  apply Qabs_Qle_condition.
  pose proof (Qfloor_le (q * 1000)) as H1.
  pose proof (Qlt_floor (q * 1000)) as H2.
  rewrite inject_Z_plus in H2. change (inject_Z 1) with 1%Q in H2.
  assert (E : ((Qfloor (q * 1000) # 1000)
               == inject_Z (Qfloor (q * 1000)) * (1 # 1000))%Q).
  { unfold Qeq, inject_Z, Qmult. simpl. lia. }
  rewrite E. set (f := inject_Z (Qfloor (q * 1000))) in *.
  split; lra.
Qed.

Lemma milli_formats_well (df : DataFrame) :
  formats_well milli_text read_milli (1 # 1000) df.
Proof.
  intros r j q _ _. split; [| split].
  - unfold milli_text. rewrite plain_app, plain_int. reflexivity.
  - unfold milli_text. destruct (NilEmpty.string_of_int _); discriminate.
  - exists (Qfloor (q * 1000) # 1000). split; [apply read_milli_text | apply milli_close].
Qed.

